(** * The trading session and position lifecycle engine

    A shallow embedding of the services of the repository that decide how
    a session trades:

    - [JupiterService]   (src/jupiter/jupiter.service.ts): the symbol table;
    - [DepositService]   (wallet/deposit.service.ts): the fund ledger;
    - [TradingService]   (src/trading/trading.service.ts): entry and exit
      execution, and the orders that a client signs;
    - [BotService]       (src/bot/bot.service.ts): sessions, the trading
      cadence, the monitor, exit evaluation and the exit retry ladder.

    Conventions of the embedding.

    - A JavaScript [number] is a rational ([Q]): every finite double is a
      rational, [Math.floor] is [Qfloor], comparisons are those of [Q].
      Rounding of the arithmetic operations is not modelled, and [NaN] and
      the infinities are outside the model.  Where the code rounds a sum,
      a difference or a product, the value of the model may differ from
      the double of the code in its last digits; the theorems on the
      ledger, on the orders that a client signs and on the choice of a
      signal state of such a value only what holds of the double too:
      an order between numbers that the rounding keeps, or the exact
      value up to the rounding ([rounded], [floor_of_rounded]).
    - A string is a string of bytes, and its upper case is that of the
      ASCII letters; what depends on the upper case of a token that a
      caller chooses is stated of tokens in ASCII.
    - A [Date] is its [getTime()], a [Z] number of milliseconds.
    - A [Map<string, V>] and a JavaScript object used as a table are a
      [gmap string V].
    - An [async] method is a program of type [Prog]: a tree whose nodes
      are the accesses to the memory of the process ([Mem], never
      interrupted) and the calls that leave the services ([Do]), some of
      which are awaited ([awaited]): there other jobs may run.  [throw]
      is [Throw], and [try]/[catch]/[finally] are the combinators
      [try_catch] and [finally].
    - The collaborators (price feed, order interface, signer, signal
      feed, chain, clock) are a function [respond] that answers each
      call from the state of a world of any type.
    - A program is run in two ways: [run] takes one call to its end, and
      [life] does so for a sequence of operations; [step] is one step of
      the event loop, where entries and exits are interleaved at their
      awaited calls.
    - Log lines have no effect on the state and are left out, except the
      progress lines of the exit retry ladder ([Log]), which tell its
      attempts apart. *)

From stdpp Require Import gmap strings list.
From Stdlib Require Import Ascii QArith Qabs Qround Qminmax Lqa Sorted.

(** ** JavaScript values *)

Module Js.

(** [!!s] for an optional string: [undefined], [null] and the empty
    string are falsy. *)
Definition truthy_string (s : option string) : bool :=
  match s with
  | Some s => negb (String.eqb s "")
  | None => false
  end.

(** [!!x] for an optional number: [undefined] and [0] are falsy. *)
Definition truthy_number (x : option Q) : bool :=
  match x with
  | Some q => negb (Qeq_bool q 0)
  | None => false
  end.

(** [a || b] on optional strings. *)
Definition or_string (a b : option string) : option string :=
  if truthy_string a then a else b.

(** [a || d] on an optional natural number with a default. *)
Definition or_nat (a : option nat) (d : nat) : nat :=
  match a with
  | Some (S n) => S n
  | _ => d
  end.

(** [a || d] on an optional number with a default. *)
Definition or_number (a : option Q) (d : Q) : Q :=
  match a with
  | Some q => if Qeq_bool q 0 then d else q
  | None => d
  end.

(** [a ?? d]. *)
Definition nullish {A} (a : option A) (d : A) : A :=
  match a with
  | Some x => x
  | None => d
  end.

(** [c.toUpperCase()] on the ASCII letters.  JavaScript also maps
    letters beyond ASCII, the long s to S for one: on a string of ASCII
    characters [toUpperCase] is the method of the code, and what depends
    on the upper case of a token that the caller chooses is stated of
    such strings ([ascii_only]). *)
Definition upper_ascii (c : ascii) : ascii :=
  let n := nat_of_ascii c in
  if (97 <=? n)%nat && (n <=? 122)%nat then ascii_of_nat (n - 32) else c.

Fixpoint toUpperCase (s : string) : string :=
  match s with
  | EmptyString => EmptyString
  | String c r => String (upper_ascii c) (toUpperCase r)
  end.

(** [Math.pow(10, d)]; exact in a double for [d <= 22]. *)
Definition pow10 (d : nat) : Z := (10 ^ Z.of_nat d)%Z.

(** [a < b], [a <= b] and [a >= b] as the booleans JavaScript computes. *)
Definition lt (a b : Q) : bool := negb (Qle_bool b a).
Definition le (a b : Q) : bool := Qle_bool a b.
Definition ge (a b : Q) : bool := Qle_bool b a.
Definition gt (a b : Q) : bool := negb (Qle_bool a b).

(** A string that passes [if (s)]. *)
Definition present (s : option string) : option string :=
  if Js.truthy_string s then s else None.

(** A number that passes [if (x)]. *)
Definition nonzero (x : option Q) : option Q :=
  if Js.truthy_number x then x else None.

(** [s.includes(needle)]. *)
Fixpoint includes (needle s : string) : bool :=
  String.prefix needle s ||
  match s with
  | EmptyString => false
  | String _ r => includes needle r
  end.

End Js.

(** ** Data model *)

Inductive Action : Type := BUY | SELL.

Inductive PositionStatus : Type := OPEN | CLOSED.

Inductive SessionStatus : Type :=
| PENDING_DEPOSIT | RUNNING | STOPPED | COMPLETED | FAILED.

Definition Action_eqb (a b : Action) : bool :=
  match a, b with
  | BUY, BUY | SELL, SELL => true
  | _, _ => false
  end.

Definition SessionStatus_eqb (a b : SessionStatus) : bool :=
  match a, b with
  | PENDING_DEPOSIT, PENDING_DEPOSIT | RUNNING, RUNNING | STOPPED, STOPPED
  | COMPLETED, COMPLETED | FAILED, FAILED => true
  | _, _ => false
  end.

Definition PositionStatus_eqb (a b : PositionStatus) : bool :=
  match a, b with
  | OPEN, OPEN | CLOSED, CLOSED => true
  | _, _ => false
  end.

(** [interface Position] of bot.service.ts, with the two extra fields
    ([orderId], [transactionSignature]) of the object that
    [TradingService.executeTradeForSession] builds. *)
Module Position.
Record t : Type := mk {
  id : string;
  token : string;
  action : Action;
  entryPrice : Q;
  amount : Q;
  solSpent : Q;
  takeProfitPrice : Q;
  stopLossPrice : Q;
  status : PositionStatus;
  createdAt : Z;
  autoExitTime : Z;
  orderId : string;
  transactionSignature : option string
}.

Definition set_status (st : PositionStatus) (p : t) : t :=
  mk (id p) (token p) (action p) (entryPrice p) (amount p) (solSpent p)
     (takeProfitPrice p) (stopLossPrice p) st (createdAt p)
     (autoExitTime p) (orderId p) (transactionSignature p).
End Position.

(** [interface BotSession] of bot.service.ts. *)
Module BotSession.
Record t : Type := mk {
  sessionId : string;
  walletPublicKey : string;
  allocatedSol : Q;
  remainingSol : Q;
  tradesExecuted : nat;
  maxTrades : nat;
  status : SessionStatus;
  startedAt : Z;
  positions : list Position.t
}.

Definition set_status (st : SessionStatus) (s : t) : t :=
  mk (sessionId s) (walletPublicKey s) (allocatedSol s) (remainingSol s)
     (tradesExecuted s) (maxTrades s) st (startedAt s) (positions s).

(** [session.positions.push(p); session.remainingSol -= p.solSpent]. *)
Definition push_position (p : Position.t) (s : t) : t :=
  mk (sessionId s) (walletPublicKey s) (allocatedSol s)
     (remainingSol s - Position.solSpent p)%Q
     (tradesExecuted s) (maxTrades s) (status s) (startedAt s)
     (positions s ++ [p]).

(** [session.tradesExecuted++]. *)
Definition incr_tradesExecuted (s : t) : t :=
  mk (sessionId s) (walletPublicKey s) (allocatedSol s) (remainingSol s)
     (S (tradesExecuted s)) (maxTrades s) (status s) (startedAt s)
     (positions s).
End BotSession.

(** [interface UserDeposit] of the deposit service. *)
Module UserDeposit.
Record t : Type := mk {
  userId : string;
  userWalletAddress : string;
  depositedSol : Q;
  availableSol : Q;
  totalTrades : nat;
  depositedAt : Z;
  lastTradeAt : option Z
}.
End UserDeposit.

(** The memory of the process that the services share: the guard flag and
    the legacy counter of [TradingService], the session table of
    [BotService] and the ledger of [DepositService]. *)
Record Process : Type := mkProcess {
  isExecutingTrade : bool;
  tradesExecutedInSession : nat;
  activeSessions : gmap string BotSession.t;
  userDeposits : gmap string UserDeposit.t
}.

Definition set_isExecutingTrade (b : bool) (m : Process) : Process :=
  mkProcess b (tradesExecutedInSession m) (activeSessions m) (userDeposits m).

Definition set_activeSessions (ss : gmap string BotSession.t) (m : Process)
  : Process :=
  mkProcess (isExecutingTrade m) (tradesExecutedInSession m) ss
            (userDeposits m).

Definition set_userDeposits (ds : gmap string UserDeposit.t) (m : Process)
  : Process :=
  mkProcess (isExecutingTrade m) (tradesExecutedInSession m)
            (activeSessions m) ds.

(** The sessions are objects mutated in place: an update of a session is
    an update of the entry of the table that holds it. *)
Definition update_session (sid : string) (f : BotSession.t -> BotSession.t)
    (m : Process) : Process :=
  set_activeSessions (alter f sid (activeSessions m)) m.

(** The session object [session] as it is now.  A method keeps the
    object that it looked up; the table never loses a session, so that
    the object is the entry of the table. *)
Definition current (m : Process) (sessionId : string)
    (session : BotSession.t) : BotSession.t :=
  default session (activeSessions m !! sessionId).

Definition update_deposit (w : string) (f : UserDeposit.t -> UserDeposit.t)
    (m : Process) : Process :=
  set_userDeposits (alter f w (userDeposits m)) m.

(** ** Values exchanged with the collaborators *)

(** An entry of the price table that [fetchPricesBySymbols] returns,
    keyed by mint. *)
Record PriceEntry : Type := mkPriceEntry {
  usdPrice : option Q;
  decimals : option nat
}.

Definition Prices : Type := gmap string PriceEntry.

(** [prices[mint]?.usdPrice] and [prices[mint]?.decimals]. *)
Definition price_of (prices : Prices) (mint : string) : option Q :=
  prices !! mint ≫= usdPrice.

Definition decimals_of (prices : Prices) (mint : string) : option nat :=
  prices !! mint ≫= decimals.

(** [CreateOrderParams] of trigger.service.ts.  The two amounts are
    strings of decimal digits in the source; they are kept as the integers
    they print. *)
Record CreateOrderParams : Type := mkCreateOrderParams {
  inputMint : string;
  outputMint : string;
  maker : string;
  payer : string;
  makingAmount : Z;
  takingAmount : Z;
  slippageBps : option Q
}.

(** The fields that the services read in the reply of [createOrder]. *)
Record OrderResponse : Type := mkOrderResponse {
  or_transaction : option string;
  or_tx : option string;
  or_requestId : option string;
  or_orderId : option string;
  or_order : option string
}.

(** The value of [TriggerService.executeSignedTransaction]. *)
Record ExecutionResult : Type := mkExecutionResult {
  er_success : bool;
  er_error : option string;
  er_message : option string;
  er_signature : option string;
  er_txid : option string
}.

(** The value of [WalletSigningService.signTransaction]. *)
Record SigningResult : Type := mkSigningResult {
  sr_success : bool;
  sr_signedTransaction : option string;
  sr_error : option string
}.

(** One element of the signal feed. *)
Record Signal : Type := mkSignal {
  sg_token : string;
  sg_action : Z;
  sg_confidence : option Q;
  sg_urgency : option Q;
  sg_price : option Q;
  sg_explanation : option string
}.

Record SignalsResponse : Type := mkSignalsResponse {
  sig_success : bool;
  sig_data : option (list (option Signal))
}.

(** The reason of an exit: the three strings that [shouldExitPosition]
    builds, and the suffix that the retry ladder appends. *)
Inductive Reason : Type :=
| TakeProfitReached
| StopLossReached
| TimeoutReached (changePercent : Q)
| WithSlippage (r : Reason) (slippagePercent : Z).

(** The exceptions, one constructor for each [throw] of the services and
    one, [External], for what a collaborator throws. *)
Inductive Error : Type :=
| MissingMintMapping (symbol : string)
| CouldNotFetchPrices (symbol : string)
| BotWalletNotAvailable
| NoTransactionReturned
| TransactionSigningFailed (error : option string)
| NoRequestIdReturned
| ExitInsufficient (amount : Q) (symbol : string)
| ExitSlippageExceeded (bps : Q) (symbol : string)
| ExitRequestTimeout
| ExitInvalidParameters (symbol : string)
| ExitExecutionFailed (errorMsg : string)
| External (message : string).

(** The [message] of a result. *)
Inductive Message : Type :=
| Skipped
| MaxTradesReached
| UseExecuteTradeForSession
| SessionNotFound
| NoSignalsAvailable
| NoTradeableSignals
| EntryProcessed (action : Action) (token : string)
| ExitExecuted (token : string) (reason : Reason)
| ExitOrderCreated (token reason : string)
| BotStopped (returned : Q)
| DepositAmountNotPositive
| DepositWalletUnavailable
| DepositCreated (amountSol : Q)
| DepositProcessed (amountSol : Q)
| DepositCreationFailed (cause : Message)
| DepositFailed (cause : Message)
| ReservationFailed (cause : Message)
| NoDepositsFound
| InsufficientBalance (available required : Q)
| Reserved (amountSol : Q)
| SignDeposit (allocatedSol : Q)
| UnexpectedStatus (status : SessionStatus)
| DepositConfirmed (allocatedSol : Q)
| Failed (e : Error).

(** A promise that has settled. *)
Inductive Settled (A : Type) : Type :=
| Fulfilled (a : A)
| Rejected (e : Error).
Arguments Fulfilled {A} a.
Arguments Rejected {A} e.

(** The progress lines that [BotService.executeExitTrade] writes to the
    log. *)
Inductive LogLine : Type :=
| ExitAttempt (attempt total : nat) (slippagePercent slippageBps : Z)
| PositionClosed (positionId : string) (slippagePercent : Z)
| ExitAttemptFailed (attempt : nat) (slippagePercent : Z)
                    (message : Message)
| ExitAttemptError (attempt : nat) (slippagePercent : Z) (e : Error)
| WaitingBeforeNextAttempt
| ExitFailedAllLevels (positionId : string).

(** The callbacks that the services hand to the event loop. *)
Inductive Task : Type :=
| StartTradingForSession (sessionId : string).

(** The calls that leave the services.  The first group returns at once;
    the second group is awaited. *)
Inductive Call : Type :=
| Now
| Fresh (prefix : string)
| GetPublicKey
| SignTransaction (transaction : string)
| NewPublicKey (address : string)
| SerializeTransfer (fromPubkey toPubkey : string) (lamports : Z)
                    (blockhash : string)
| SetTimeout (task : Task) (ms : Z)
| Start (task : Task)
| Log (line : LogLine)
| FetchPricesBySymbols (symbols : list string)
| CreateOrder (params : CreateOrderParams)
| ExecuteSignedTransaction (signedTransaction requestId : string)
| RefreshThenGetSignals
| GetLatestBlockhash
| SendRawTransaction (transaction : string)
| ConfirmTransaction (signature : string)
| Sleep (ms : Z).

Definition Answer (c : Call) : Type :=
  match c with
  | Now => Z
  | Fresh _ => string
  | GetPublicKey => option string
  | SignTransaction _ => SigningResult
  | NewPublicKey _ => Settled string
  | SerializeTransfer _ _ _ _ => Settled string
  | SetTimeout _ _ => unit
  | Start _ => unit
  | Log _ => unit
  | FetchPricesBySymbols _ => Settled Prices
  | CreateOrder _ => Settled OrderResponse
  | ExecuteSignedTransaction _ _ => Settled ExecutionResult
  | RefreshThenGetSignals => Settled (option SignalsResponse)
  | GetLatestBlockhash => Settled string
  | SendRawTransaction _ => Settled string
  | ConfirmTransaction _ => Settled unit
  | Sleep _ => unit
  end.

(** The calls at which the caller is suspended ([await]). *)
Definition awaited (c : Call) : bool :=
  match c with
  | FetchPricesBySymbols _ | CreateOrder _ | ExecuteSignedTransaction _ _
  | RefreshThenGetSignals | GetLatestBlockhash | SendRawTransaction _
  | ConfirmTransaction _ | Sleep _ => true
  | _ => false
  end.

(** ** Programs *)

Inductive Prog (A : Type) : Type :=
| Ret (a : A)
| Throw (e : Error)
| Mem (upd : Process -> Process) (k : Process -> Prog A)
| Do (c : Call) (k : Answer c -> Prog A).
Arguments Ret {A} a.
Arguments Throw {A} e.
Arguments Mem {A} upd k.
Arguments Do {A} c k.

Fixpoint bind {A B} (p : Prog A) (f : A -> Prog B) : Prog B :=
  match p with
  | Ret a => f a
  | Throw e => Throw e
  | Mem upd k => Mem upd (fun m => bind (k m) f)
  | Do c k => Do c (fun r => bind (k r) f)
  end.

(** [try { p } catch (error) { h error }]. *)
Fixpoint try_catch {A} (p : Prog A) (h : Error -> Prog A) : Prog A :=
  match p with
  | Ret a => Ret a
  | Throw e => h e
  | Mem upd k => Mem upd (fun m => try_catch (k m) h)
  | Do c k => Do c (fun r => try_catch (k r) h)
  end.

(** [try { p } finally { f }], for an [f] that neither returns nor
    throws. *)
Fixpoint finally {A} (p : Prog A) (f : Prog unit) : Prog A :=
  match p with
  | Ret a => bind f (fun _ => Ret a)
  | Throw e => bind f (fun _ => Throw e)
  | Mem upd k => Mem upd (fun m => finally (k m) f)
  | Do c k => Do c (fun r => finally (k r) f)
  end.

Declare Scope prog_scope.
Delimit Scope prog_scope with prog.
Bind Scope prog_scope with Prog.

Notation "x <- p ;; q" := (bind p (fun x => q))
  (at level 100, p at next level, right associativity) : prog_scope.
Notation "p ;; q" := (bind p (fun _ => q))
  (at level 100, right associativity) : prog_scope.

(** Reading and writing the memory of the process. *)
Definition read : Prog Process := Mem (fun m => m) Ret.
Definition write (upd : Process -> Process) : Prog unit :=
  Mem upd (fun _ => Ret tt).

(** A call, and a call whose rejection is thrown at the caller. *)
Definition call (c : Call) : Prog (Answer c) := Do c Ret.

Definition settle {A} (r : Settled A) : Prog A :=
  match r with
  | Fulfilled a => Ret a
  | Rejected e => Throw e
  end.

(** ** JupiterService *)

Module JupiterService.

Definition tokenSymbolToMint : gmap string string :=
  list_to_map
    [ ("SOL", "So11111111111111111111111111111111111111112");
      ("USDC", "EPjFWdd5AufqSSqeM2qN1xzybapC8G4wEGGkZwyTDt1v");
      ("BONK", "DezXAZ8z7PnrnRJjz3wXBoRgixCa6xjnB7YaB1pPB263");
      ("PENGU", "2zMMhcVQEXDtdE6vsFS7S7D5oUodfJHE8vd1gnBouauv");
      ("JUP", "JUPyiwrYJFskUPiHa7hkeR8VUtAeFoSYbKedZNsDvCN");
      ("RAY", "4k3Dyjzvzp8eMZWUXbBCjEvwSkkk59S5iCNLY3QrkX6R");
      ("PYTH", "HZ1JovNiVvGrGNiiYvEozEVgZ58xaU3RKwX8eACQBCt3");
      ("TRUMP", "6p6xgHyF7AeE6TZkSmFsko444wqoP15icUSqi2jfGiPN");
      ("JTO", "jtojtomepa8beP8AuQc6eXt5FriJwfFMwQx2v2f9mCL");
      ("ORCA", "orcaEKTdK7LKz57vaAYr9QeNsVEPfiu6QeMU1kektZE") ].

Definition getDefaultTokenMap : gmap string string := tokenSymbolToMint.

Arguments tokenSymbolToMint : simpl never.
Arguments getDefaultTokenMap : simpl never.

End JupiterService.

(** ** TradingService *)

Module TradingService.
Local Open Scope prog_scope.

Record EntryRequest : Type := mkEntryRequest {
  e_sessionId : string;
  e_token : string;
  e_action : Action;
  e_confidence : Q;
  e_price : option Q;
  e_reason : string;
  e_tradeSizeSol : Q
}.

Record EntryResult : Type := mkEntryResult {
  en_success : bool;
  en_executed : bool;
  en_message : Message;
  en_position : option Position.t;
  en_orderId : option string;
  en_transactionSignature : option string
}.

Record ExitRequest : Type := mkExitRequest {
  x_positionId : string;
  x_token : string;
  x_action : Action;
  x_amount : Q;
  x_slippageBps : Q;
  x_reason : Reason
}.

Record ExitResult : Type := mkExitResult {
  ex_success : bool;
  ex_message : Message;
  ex_orderId : option string;
  ex_transactionSignature : option string
}.

Record ExitOrderRequest : Type := mkExitOrderRequest {
  xo_token : string;
  xo_action : Action;
  xo_amount : Q;
  xo_slippageBps : Q;
  xo_walletPublicKey : string;
  xo_reason : string
}.

Record OrderResult : Type := mkOrderResult {
  o_success : bool;
  o_orderId : option string;
  o_transaction : option string;
  o_requestId : option string;
  o_message : Message
}.

(** The result of [executeTradeOnce] and the two results of
    [executeTradeForSession] that carry no position. *)
Definition skipped : EntryResult :=
  mkEntryResult false false Skipped None None None.

Definition entry_failed (e : Error) : EntryResult :=
  mkEntryResult false false (Failed e) None None None.

Definition exit_failed (e : Error) : ExitResult :=
  mkExitResult false (Failed e) None None.

Definition maxTradesPerSession : nat := 5.

(** [executeTradeOnce], the legacy entry point. *)
Definition executeTradeOnce : Prog EntryResult :=
  m <- read ;;
  if isExecutingTrade m then Ret skipped
  else if (maxTradesPerSession <=? tradesExecutedInSession m)%nat then
    Ret (mkEntryResult false false MaxTradesReached None None None)
  else
    write (set_isExecutingTrade true) ;;
    finally
      (try_catch
         (Ret (mkEntryResult false false UseExecuteTradeForSession
                             None None None))
         (fun e => Ret (entry_failed e)))
      (write (set_isExecutingTrade false)).

Definition lamportsPerSol : Q := 1000000000.

(** [makingAmount] and [takingAmount] of an entry order. *)
Definition entry_amounts (action : Action)
    (tradeSizeSol solPrice tokenPrice : Q) (tokenDecimals : nat) : Z * Z :=
  let makingAmountLamports := Qfloor (tradeSizeSol * lamportsPerSol) in
  let estimatedTokens := (tradeSizeSol * solPrice / tokenPrice)%Q in
  let tokenSmallestUnits :=
    Qfloor (estimatedTokens * inject_Z (Js.pow10 tokenDecimals)) in
  match action with
  | BUY => (makingAmountLamports, tokenSmallestUnits)
  | SELL => (tokenSmallestUnits, makingAmountLamports)
  end.

(** The body of the [try] block of [executeTradeForSession]. *)
Definition entry_body (request : EntryRequest) : Prog EntryResult :=
  let symbol := Js.toUpperCase (e_token request) in
  match Js.present (JupiterService.getDefaultTokenMap !! symbol),
        Js.present (JupiterService.getDefaultTokenMap !! "SOL") with
  | Some tokenMint, Some solMint =>
    prices <- bind (call (FetchPricesBySymbols [symbol; "SOL"])) settle ;;
    let tokenDecimals := Js.or_nat (decimals_of prices tokenMint) 9 in
    match Js.nonzero (price_of prices tokenMint),
          Js.nonzero (price_of prices solMint) with
    | Some tokenPrice, Some solPrice =>
      let inputMint :=
        match e_action request with BUY => solMint | SELL => tokenMint end in
      let outputMint :=
        match e_action request with BUY => tokenMint | SELL => solMint end in
      let (makingAmount, takingAmount) :=
        entry_amounts (e_action request) (e_tradeSizeSol request)
                      solPrice tokenPrice tokenDecimals in
      key <- call GetPublicKey ;;
      match Js.present key with
      | None => Throw BotWalletNotAvailable
      | Some walletPublicKey =>
        order <- bind (call (CreateOrder
                   (mkCreateOrderParams inputMint outputMint
                      walletPublicKey walletPublicKey
                      makingAmount takingAmount None))) settle ;;
        match Js.present
                (Js.or_string (or_transaction order) (or_tx order)) with
        | None => Throw NoTransactionReturned
        | Some transaction =>
          signingResult <- call (SignTransaction transaction) ;;
          match (if sr_success signingResult
                 then Js.present (sr_signedTransaction signingResult)
                 else None) with
          | None => Throw (TransactionSigningFailed (sr_error signingResult))
          | Some signedTransaction =>
            requestId <- match Js.present (or_requestId order) with
                         | Some r => Ret r
                         | None => call (Fresh "req")
                         end ;;
            executionResult <-
              bind (call (ExecuteSignedTransaction signedTransaction
                                                   requestId)) settle ;;
            (* [if (!executionResult.success) { log } else { log }]:
               both branches only write to the log *)
            now <- call Now ;;
            let autoExitTime := (now + 3 * 60 * 1000)%Z in
            id <- call (Fresh "pos") ;;
            orderId <- match Js.present (or_orderId order) with
                       | Some o => Ret o
                       | None => call (Fresh "order")
                       end ;;
            let position :=
              Position.mk id (e_token request) (e_action request) tokenPrice
                (match e_action request with
                 | BUY => inject_Z takingAmount
                          / inject_Z (Js.pow10 tokenDecimals)
                 | SELL => inject_Z makingAmount
                           / inject_Z (Js.pow10 tokenDecimals)
                 end)%Q
                (e_tradeSizeSol request)
                (tokenPrice * match e_action request with
                              | BUY => 103 # 100 | SELL => 97 # 100 end)%Q
                (tokenPrice * match e_action request with
                              | BUY => 95 # 100 | SELL => 105 # 100 end)%Q
                OPEN now autoExitTime orderId
                (Js.or_string (er_signature executionResult)
                              (er_txid executionResult)) in
            let signature :=
              Js.nullish (Js.present (er_signature executionResult))
                         "pending" in
            Ret (mkEntryResult true true
                   (EntryProcessed (e_action request) (e_token request))
                   (Some position)
                   (Js.or_string (or_orderId order) (or_order order))
                   (Some signature))
          end
        end
      end
    | _, _ => Throw (CouldNotFetchPrices symbol)
    end
  | _, _ => Throw (MissingMintMapping symbol)
  end.

(** [executeTradeForSession]: the guard, then the [try] block with its
    [catch] and its [finally]. *)
Definition executeTradeForSession (request : EntryRequest)
  : Prog EntryResult :=
  m <- read ;;
  if isExecutingTrade m then Ret skipped
  else
    write (set_isExecutingTrade true) ;;
    finally
      (try_catch (entry_body request) (fun e => Ret (entry_failed e)))
      (write (set_isExecutingTrade false)).

Definition minimumSlippageBps : Q := 300.

(** [Math.max(request.slippageBps, minimumSlippageBps)]. *)
Definition actualSlippageBps (requested : Q) : Q :=
  Qmax requested minimumSlippageBps.

(** The [throw] that follows a failed execution of an exit order. *)
Definition exit_execution_error (executionResult : ExecutionResult)
    (exitAmount : Q) (symbol : string) (actual : Q) : Error :=
  let errorMsg :=
    Js.nullish
      (Js.present (Js.or_string (er_error executionResult)
                                 (er_message executionResult)))
      "Unknown exit execution error" in
  if Js.includes "insufficient" errorMsg then
    ExitInsufficient exitAmount symbol
  else if Js.includes "slippage" errorMsg then
    ExitSlippageExceeded (actual / 100) symbol
  else if Js.includes "timeout" errorMsg then ExitRequestTimeout
  else if Js.includes "invalid" errorMsg then ExitInvalidParameters symbol
  else ExitExecutionFailed errorMsg.

(** The body of the [try] block of [executeExitTrade]. *)
Definition exit_body (request : ExitRequest) : Prog ExitResult :=
  let actual := actualSlippageBps (x_slippageBps request) in
  let symbol := Js.toUpperCase (x_token request) in
  match Js.present (JupiterService.getDefaultTokenMap !! symbol),
        Js.present (JupiterService.getDefaultTokenMap !! "SOL") with
  | Some tokenMint, Some solMint =>
    prices <- bind (call (FetchPricesBySymbols [symbol; "SOL"])) settle ;;
    let tokenDecimals := Js.or_nat (decimals_of prices tokenMint) 9 in
    let inputMint :=
      match x_action request with BUY => solMint | SELL => tokenMint end in
    let outputMint :=
      match x_action request with BUY => tokenMint | SELL => solMint end in
    key <- call GetPublicKey ;;
    match Js.present key with
    | None => Throw BotWalletNotAvailable
    | Some walletPublicKey =>
      let exitAmount := x_amount request in
      let exitAmountBigInt := Qfloor exitAmount in
      let decimalMultiplier := Js.pow10 tokenDecimals in
      let amountSmallestUnits :=
        (exitAmountBigInt * decimalMultiplier)%Z in
      currentPrices <-
        bind (call (FetchPricesBySymbols [symbol; "SOL"])) settle ;;
      let currentTokenPrice :=
        Js.or_number (price_of currentPrices tokenMint) (1 # 10) in
      let currentSolPrice :=
        Js.or_number (price_of currentPrices solMint) 235 in
      let estimatedSolValue :=
        (exitAmount * currentTokenPrice / currentSolPrice)%Q in
      let estimatedSolLamports :=
        Qfloor (estimatedSolValue * lamportsPerSol) in
      order <- bind (call (CreateOrder
                 (mkCreateOrderParams inputMint outputMint
                    walletPublicKey walletPublicKey
                    amountSmallestUnits estimatedSolLamports
                    (Some actual)))) settle ;;
      match Js.present
              (Js.or_string (or_transaction order) (or_tx order)) with
      | None => Throw NoTransactionReturned
      | Some transaction =>
        signingResult <- call (SignTransaction transaction) ;;
        match (if sr_success signingResult
               then Js.present (sr_signedTransaction signingResult)
               else None) with
        | None => Throw (TransactionSigningFailed (sr_error signingResult))
        | Some signedTransaction =>
          match Js.present (or_requestId order) with
          | None => Throw NoRequestIdReturned
          | Some requestId =>
            executionResult <-
              bind (call (ExecuteSignedTransaction signedTransaction
                                                   requestId)) settle ;;
            if er_success executionResult then
              orderId <- call (Fresh "swap") ;;
              Ret (mkExitResult true
                     (ExitExecuted (x_token request) (x_reason request))
                     (Some orderId)
                     (er_signature executionResult))
            else
              Throw (exit_execution_error executionResult exitAmount
                                          symbol actual)
          end
        end
      end
    end
  | _, _ => Throw (MissingMintMapping symbol)
  end.

(** [executeExitTrade]: one [try] block and its [catch]. *)
Definition executeExitTrade (request : ExitRequest) : Prog ExitResult :=
  try_catch (exit_body request) (fun e => Ret (exit_failed e)).

(** The body of the [try] block of [createExitOrder]. *)
Definition exit_order_body (request : ExitOrderRequest)
  : Prog OrderResult :=
  let actual := actualSlippageBps (xo_slippageBps request) in
  let symbol := Js.toUpperCase (xo_token request) in
  match Js.present (JupiterService.getDefaultTokenMap !! symbol),
        Js.present (JupiterService.getDefaultTokenMap !! "SOL") with
  | Some tokenMint, Some solMint =>
    prices <- bind (call (FetchPricesBySymbols [symbol; "SOL"])) settle ;;
    let tokenDecimals := Js.or_nat (decimals_of prices tokenMint) 9 in
    match Js.nonzero (price_of prices tokenMint),
          Js.nonzero (price_of prices solMint) with
    | Some tokenPrice, Some solPrice =>
      let inputMint :=
        match xo_action request with BUY => solMint | SELL => tokenMint end in
      let outputMint :=
        match xo_action request with BUY => tokenMint | SELL => solMint end in
      let safeAmount := (xo_amount request * (98 # 100))%Q in
      let amountSmallestUnits :=
        Qfloor (safeAmount * inject_Z (Js.pow10 tokenDecimals)) in
      let estimatedSolValue := (safeAmount * tokenPrice / solPrice)%Q in
      let estimatedSolLamports :=
        Qfloor (estimatedSolValue * lamportsPerSol) in
      order <- bind (call (CreateOrder
                 (mkCreateOrderParams inputMint outputMint
                    (xo_walletPublicKey request)
                    (xo_walletPublicKey request)
                    amountSmallestUnits estimatedSolLamports
                    (Some actual)))) settle ;;
      match Js.present
              (Js.or_string (or_transaction order) (or_tx order)) with
      | None => Throw NoTransactionReturned
      | Some transaction =>
        requestId <- call (Fresh "exit_req") ;;
        Ret (mkOrderResult true (or_orderId order) (Some transaction)
               (Some requestId)
               (ExitOrderCreated (xo_token request) (xo_reason request)))
      end
    | _, _ => Throw (CouldNotFetchPrices symbol)
    end
  | _, _ => Throw (MissingMintMapping symbol)
  end.

(** [createExitOrder]. *)
Definition createExitOrder (request : ExitOrderRequest)
  : Prog OrderResult :=
  try_catch (exit_order_body request)
            (fun e => Ret (mkOrderResult false None None None (Failed e))).

(** *** The orders that a client signs *)

(** The [message] of the results of [createEntryOrder], [executeEntryOrder]
    and [executeExitOrder]. *)
Inductive OrderMessage : Type :=
| EntryOrderReady (action : Action) (token : string)
| EntryOrderExecuted
| ExitOrderExecuted
| OrderFailed (e : Error).

Record EntryOrderRequest : Type := mkEntryOrderRequest {
  eo_token : string;
  eo_action : Action;
  eo_tradeSizeSol : Q;
  eo_walletPublicKey : string
}.

Record EntryOrderResult : Type := mkEntryOrderResult {
  eor_success : bool;
  eor_orderId : option string;
  eor_transaction : option string;
  eor_requestId : option string;
  eor_message : OrderMessage
}.

Record ExecuteOrderRequest : Type := mkExecuteOrderRequest {
  xq_signedTransaction : string;
  xq_requestId : string;
  xq_orderId : option string
}.

Record ExecuteOrderResult : Type := mkExecuteOrderResult {
  xr_success : bool;
  xr_signature : option string;
  xr_message : OrderMessage
}.

(** The body of the [try] block of [createEntryOrder]. *)
Definition entry_order_body (request : EntryOrderRequest)
  : Prog EntryOrderResult :=
  let symbol := Js.toUpperCase (eo_token request) in
  match Js.present (JupiterService.getDefaultTokenMap !! symbol),
        Js.present (JupiterService.getDefaultTokenMap !! "SOL") with
  | Some tokenMint, Some solMint =>
    prices <- bind (call (FetchPricesBySymbols [symbol; "SOL"])) settle ;;
    let tokenDecimals := Js.or_nat (decimals_of prices tokenMint) 9 in
    match Js.nonzero (price_of prices tokenMint),
          Js.nonzero (price_of prices solMint) with
    | Some tokenPrice, Some solPrice =>
      let inputMint :=
        match eo_action request with BUY => solMint | SELL => tokenMint end in
      let outputMint :=
        match eo_action request with BUY => tokenMint | SELL => solMint end in
      let (makingAmount, takingAmount) :=
        entry_amounts (eo_action request) (eo_tradeSizeSol request)
                      solPrice tokenPrice tokenDecimals in
      order <- bind (call (CreateOrder
                 (mkCreateOrderParams inputMint outputMint
                    (eo_walletPublicKey request)
                    (eo_walletPublicKey request)
                    makingAmount takingAmount None))) settle ;;
      match Js.present
              (Js.or_string (or_transaction order) (or_tx order)) with
      | None => Throw NoTransactionReturned
      | Some transaction =>
        requestId <- call (Fresh "req") ;;
        Ret (mkEntryOrderResult true (or_orderId order) (Some transaction)
               (Some requestId)
               (EntryOrderReady (eo_action request) (eo_token request)))
      end
    | _, _ => Throw (CouldNotFetchPrices symbol)
    end
  | _, _ => Throw (MissingMintMapping symbol)
  end.

(** [createEntryOrder]. *)
Definition createEntryOrder (request : EntryOrderRequest)
  : Prog EntryOrderResult :=
  try_catch (entry_order_body request)
            (fun e => Ret (mkEntryOrderResult false None None None
                                              (OrderFailed e))).

(** [executeEntryOrder]: the signed transaction is handed to the order
    interface, and the answer counts as a success when it carries a
    signature. *)
Definition executeEntryOrder (request : ExecuteOrderRequest)
  : Prog ExecuteOrderResult :=
  try_catch
    (result <- bind (call (ExecuteSignedTransaction
                             (xq_signedTransaction request)
                             (xq_requestId request))) settle ;;
     match Js.present (er_signature result) with
     | None => Throw (External "Execution failed - no signature returned")
     | Some signature =>
       Ret (mkExecuteOrderResult true (Some signature) EntryOrderExecuted)
     end)
    (fun e => Ret (mkExecuteOrderResult false None (OrderFailed e))).

(** [executeExitOrder]. *)
Definition executeExitOrder (request : ExecuteOrderRequest)
  : Prog ExecuteOrderResult :=
  try_catch
    (result <- bind (call (ExecuteSignedTransaction
                             (xq_signedTransaction request)
                             (xq_requestId request))) settle ;;
     match Js.present (er_signature result) with
     | None =>
       Throw (External "Exit execution failed - no signature returned")
     | Some signature =>
       Ret (mkExecuteOrderResult true (Some signature) ExitOrderExecuted)
     end)
    (fun e => Ret (mkExecuteOrderResult false None (OrderFailed e))).

End TradingService.

(** ** DepositService: the fund ledger *)

Module DepositService.
Local Open Scope prog_scope.

Record TransactionResult : Type := mkTransactionResult {
  t_success : bool;
  t_transaction : option string;
  t_botWalletAddress : option string;
  t_message : Message
}.

Record DepositResult : Type := mkDepositResult {
  d_success : bool;
  d_signature : option string;
  d_depositBalance : option Q;
  d_message : Message
}.

Record ReserveResult : Type := mkReserveResult {
  rv_success : bool;
  rv_remainingBalance : option Q;
  rv_message : Message
}.

Definition LAMPORTS_PER_SOL : Q := 1000000000.

(** The loop that asks for a recent blockhash: [retries] attempts, one
    second apart; the error of the last attempt is thrown. *)
Fixpoint latestBlockhash (retries : nat) : Prog string :=
  match retries with
  | O => Ret ""
  | S n =>
    r <- call GetLatestBlockhash ;;
    match r with
    | Fulfilled blockhash => Ret blockhash
    | Rejected e =>
      match n with
      | O => Throw e
      | S _ => call (Sleep 1000) ;; latestBlockhash n
      end
    end
  end.

Definition createDepositTransaction (userWalletAddress : string)
    (amountSol : Q) : Prog TransactionResult :=
  try_catch
    (key <- call GetPublicKey ;;
     match Js.present key with
     | None =>
       Ret (mkTransactionResult false None None DepositWalletUnavailable)
     | Some botWalletAddress =>
       if Js.le amountSol 0 then
         Ret (mkTransactionResult false None None DepositAmountNotPositive)
       else
         userPublicKey <-
           bind (call (NewPublicKey userWalletAddress)) settle ;;
         botPublicKey <-
           bind (call (NewPublicKey botWalletAddress)) settle ;;
         let lamports := Qfloor (amountSol * LAMPORTS_PER_SOL) in
         blockhash <- latestBlockhash 3 ;;
         transactionBase64 <-
           bind (call (SerializeTransfer userPublicKey botPublicKey
                                         lamports blockhash)) settle ;;
         Ret (mkTransactionResult true (Some transactionBase64)
                (Some botWalletAddress) (DepositCreated amountSol))
     end)
    (fun e => Ret (mkTransactionResult false None None (Failed e))).

(** [existingDeposit.depositedSol += a; existingDeposit.availableSol += a]. *)
Definition add_deposit (a : Q) (d : UserDeposit.t) : UserDeposit.t :=
  UserDeposit.mk (UserDeposit.userId d) (UserDeposit.userWalletAddress d)
    (UserDeposit.depositedSol d + a)%Q (UserDeposit.availableSol d + a)%Q
    (UserDeposit.totalTrades d) (UserDeposit.depositedAt d)
    (UserDeposit.lastTradeAt d).

(** [deposit.availableSol += a]. *)
Definition add_available (a : Q) (d : UserDeposit.t) : UserDeposit.t :=
  UserDeposit.mk (UserDeposit.userId d) (UserDeposit.userWalletAddress d)
    (UserDeposit.depositedSol d) (UserDeposit.availableSol d + a)%Q
    (UserDeposit.totalTrades d) (UserDeposit.depositedAt d)
    (UserDeposit.lastTradeAt d).

(** [deposit.availableSol -= a; deposit.totalTrades++;
    deposit.lastTradeAt = now]. *)
Definition reserve (a : Q) (now : Z) (d : UserDeposit.t) : UserDeposit.t :=
  UserDeposit.mk (UserDeposit.userId d) (UserDeposit.userWalletAddress d)
    (UserDeposit.depositedSol d) (UserDeposit.availableSol d - a)%Q
    (S (UserDeposit.totalTrades d)) (UserDeposit.depositedAt d)
    (Some now).

Definition processDeposit (userWalletAddress signedTransaction : string)
    (amountSol : Q) : Prog DepositResult :=
  try_catch
    (signature <-
       bind (call (SendRawTransaction signedTransaction)) settle ;;
     bind (call (ConfirmTransaction signature)) settle ;;
     let userId := userWalletAddress in
     m <- read ;;
     match userDeposits m !! userId with
     | Some _ => write (update_deposit userId (add_deposit amountSol))
     | None =>
       now <- call Now ;;
       write (fun m =>
                set_userDeposits
                  (<[userId :=
                       UserDeposit.mk userId userWalletAddress amountSol
                                      amountSol 0 now None]>
                     (userDeposits m)) m)
     end ;;
     m <- read ;;
     Ret (mkDepositResult true (Some signature)
            (UserDeposit.availableSol <$> userDeposits m !! userId)
            (DepositProcessed amountSol)))
    (fun e => Ret (mkDepositResult false None None (Failed e))).

Definition reserveFundsForTrading (userWalletAddress : string)
    (amountSol : Q) : Prog ReserveResult :=
  m <- read ;;
  match userDeposits m !! userWalletAddress with
  | None => Ret (mkReserveResult false None NoDepositsFound)
  | Some deposit =>
    if Js.lt (UserDeposit.availableSol deposit) amountSol then
      Ret (mkReserveResult false None
             (InsufficientBalance (UserDeposit.availableSol deposit)
                                  amountSol))
    else
      now <- call Now ;;
      write (update_deposit userWalletAddress (reserve amountSol now)) ;;
      Ret (mkReserveResult true
             (Some (UserDeposit.availableSol deposit - amountSol)%Q)
             (Reserved amountSol))
  end.

(** [returnUnusedFunds]: nothing happens for a wallet without an entry. *)
Definition returnUnusedFunds (userWalletAddress : string) (amountSol : Q)
  : Prog unit :=
  write (update_deposit userWalletAddress (add_available amountSol)).

(** *** Reading the ledger, and withdrawing from it *)

Inductive LedgerMessage : Type :=
| NoDeposits
| AvailableBalance (availableSol : Q)
| InsufficientFunds (availableSol : Q)
| BotWalletUnavailable
| WithdrawalProcessed (amountSol : Q)
| WithdrawalFailed (e : Error).

Record BalanceResult : Type := mkBalanceResult {
  b_success : bool;
  b_deposit : option UserDeposit.t;
  b_message : LedgerMessage
}.

Record WithdrawalResult : Type := mkWithdrawalResult {
  w_success : bool;
  w_signature : option string;
  w_message : LedgerMessage
}.

(** [getUserBalance]. *)
Definition getUserBalance (userWalletAddress : string) : Prog BalanceResult :=
  m <- read ;;
  match userDeposits m !! userWalletAddress with
  | None => Ret (mkBalanceResult false None NoDeposits)
  | Some deposit =>
    Ret (mkBalanceResult true (Some deposit)
           (AvailableBalance (UserDeposit.availableSol deposit)))
  end.

(** [deposit.availableSol -= a]. *)
Definition sub_available (a : Q) (d : UserDeposit.t) : UserDeposit.t :=
  UserDeposit.mk (UserDeposit.userId d) (UserDeposit.userWalletAddress d)
    (UserDeposit.depositedSol d) (UserDeposit.availableSol d - a)%Q
    (UserDeposit.totalTrades d) (UserDeposit.depositedAt d)
    (UserDeposit.lastTradeAt d).

(** [createWithdrawalTransaction]: the bot wallet signs and sends the
    transfer back to the user, and the ledger is debited once the chain
    has confirmed it. *)
Definition createWithdrawalTransaction (userWalletAddress : string)
    (amountSol : Q) : Prog WithdrawalResult :=
  try_catch
    (m <- read ;;
     match userDeposits m !! userWalletAddress with
     | None => Ret (mkWithdrawalResult false None NoDeposits)
     | Some deposit =>
       if Js.lt (UserDeposit.availableSol deposit) amountSol then
         Ret (mkWithdrawalResult false None
                (InsufficientFunds (UserDeposit.availableSol deposit)))
       else
         key <- call GetPublicKey ;;
         match Js.present key with
         | None => Ret (mkWithdrawalResult false None BotWalletUnavailable)
         | Some botWalletAddress =>
           userPublicKey <-
             bind (call (NewPublicKey userWalletAddress)) settle ;;
           botPublicKey <-
             bind (call (NewPublicKey botWalletAddress)) settle ;;
           let lamports := Qfloor (amountSol * LAMPORTS_PER_SOL) in
           blockhash <- latestBlockhash 3 ;;
           transactionBase64 <-
             bind (call (SerializeTransfer botPublicKey userPublicKey
                                           lamports blockhash)) settle ;;
           signingResult <- call (SignTransaction transactionBase64) ;;
           match (if sr_success signingResult
                  then Js.present (sr_signedTransaction signingResult)
                  else None) with
           | None =>
             Throw (TransactionSigningFailed (sr_error signingResult))
           | Some signedTransaction =>
             signature <-
               bind (call (SendRawTransaction signedTransaction)) settle ;;
             bind (call (ConfirmTransaction signature)) settle ;;
             write (update_deposit userWalletAddress
                                   (sub_available amountSol)) ;;
             Ret (mkWithdrawalResult true (Some signature)
                    (WithdrawalProcessed amountSol))
           end
         end
     end)
    (fun e => Ret (mkWithdrawalResult false None (WithdrawalFailed e))).

End DepositService.

(** ** BotService: sessions, cadence, exit evaluation, retry ladder *)

Module BotService.
Local Open Scope prog_scope.

Record LaunchResult : Type := mkLaunchResult {
  l_success : bool;
  l_sessionId : option string;
  l_depositTransaction : option string;
  l_botWalletAddress : option string;
  l_message : Message;
  l_step : option string
}.

Record StopResult : Type := mkStopResult {
  s_success : bool;
  s_message : Message;
  s_status : option SessionStatus;
  s_tradesExecuted : option nat;
  s_remainingSol : option Q;
  s_fundsReturned : option bool
}.

Record ExitDecision : Type := mkExitDecision {
  exit : bool;
  reason : option Reason
}.

(** A position is an object shared by the session that holds it and by
    the monitor: it is named by its session and its index in
    [session.positions], where it stays for ever. *)
Definition PositionRef : Type := string * nat.

Definition position_at (m : Process) (ref : PositionRef)
  : option Position.t :=
  activeSessions m !! ref.1 ≫= fun s => BotSession.positions s !! ref.2.

Definition set_positions (ps : list Position.t) (s : BotSession.t)
  : BotSession.t :=
  BotSession.mk (BotSession.sessionId s) (BotSession.walletPublicKey s)
    (BotSession.allocatedSol s) (BotSession.remainingSol s)
    (BotSession.tradesExecuted s) (BotSession.maxTrades s)
    (BotSession.status s) (BotSession.startedAt s) ps.

(** [position.status = st]. *)
Definition set_position_status (ref : PositionRef) (st : PositionStatus)
    (m : Process) : Process :=
  update_session ref.1
    (fun s => set_positions
                (alter (Position.set_status st) ref.2
                       (BotSession.positions s)) s) m.

(** [launchBot]. *)
Definition launchBot (walletPublicKey : string) (allocatedSol : Q)
  : Prog LaunchResult :=
  try_catch
    (depositResult <-
       DepositService.createDepositTransaction walletPublicKey
                                               allocatedSol ;;
     match (if DepositService.t_success depositResult
            then Js.present (DepositService.t_transaction depositResult)
            else None) with
     | None =>
       Ret (mkLaunchResult false None None None
              (DepositCreationFailed
                 (DepositService.t_message depositResult))
              (Some "deposit_creation_failed"))
     | Some transaction =>
       sessionId <- call (Fresh "bot") ;;
       startedAt <- call Now ;;
       let session :=
         BotSession.mk sessionId walletPublicKey allocatedSol allocatedSol
                       0 5 PENDING_DEPOSIT startedAt [] in
       write (fun m =>
                set_activeSessions
                  (<[sessionId := session]> (activeSessions m)) m) ;;
       Ret (mkLaunchResult true (Some sessionId) (Some transaction)
              (DepositService.t_botWalletAddress depositResult)
              (SignDeposit allocatedSol)
              (Some "sign_and_confirm_deposit"))
     end)
    (fun e =>
       Ret (mkLaunchResult false None None None (Failed e)
                           (Some "launch_failed"))).

(** [confirmDepositAndStartTrading].  The call of
    [startTradingForSession] is not awaited: the task is handed to the
    event loop ([Start]).  In the code the callee runs until it first
    waits before the caller returns.  For a session with trades left in
    its quota and at least the minimum of a trade remaining that part
    of the turn writes nothing, and the memory at the return is the one
    of the embedding; for another session the turn has marked the
    session [COMPLETED] by then, which the embedding shows after the
    return only. *)
Definition confirmDepositAndStartTrading (sessionId : string)
    (signedDepositTransaction userWalletAddress : string)
    (allocatedSol : Q) : Prog LaunchResult :=
  try_catch
    (m <- read ;;
     match activeSessions m !! sessionId with
     | None =>
       Ret (mkLaunchResult false None None None SessionNotFound None)
     | Some session =>
       if negb (SessionStatus_eqb (BotSession.status session)
                                  PENDING_DEPOSIT) then
         Ret (mkLaunchResult false None None None
                (UnexpectedStatus (BotSession.status session)) None)
       else
         depositResult <-
           DepositService.processDeposit userWalletAddress
             signedDepositTransaction allocatedSol ;;
         if negb (DepositService.d_success depositResult) then
           write (update_session sessionId (BotSession.set_status FAILED)) ;;
           Ret (mkLaunchResult false None None None
                  (DepositFailed (DepositService.d_message depositResult))
                  (Some "deposit_failed"))
         else
           reserveResult <-
             DepositService.reserveFundsForTrading userWalletAddress
                                                   allocatedSol ;;
           if negb (DepositService.rv_success reserveResult) then
             write (update_session sessionId
                                   (BotSession.set_status FAILED)) ;;
             Ret (mkLaunchResult false None None None
                    (ReservationFailed
                       (DepositService.rv_message reserveResult))
                    (Some "reservation_failed"))
           else
             write (update_session sessionId
                                   (BotSession.set_status RUNNING)) ;;
             call (Start (StartTradingForSession sessionId)) ;;
             Ret (mkLaunchResult true (Some sessionId) None None
                    (DepositConfirmed allocatedSol) None)
     end)
    (fun e =>
       write (update_session sessionId (BotSession.set_status FAILED)) ;;
       Ret (mkLaunchResult false None None None (Failed e)
                           (Some "confirmation_failed"))).

(** [stopBot]. *)
Definition stopBot (sessionId : string) : Prog StopResult :=
  m <- read ;;
  match activeSessions m !! sessionId with
  | None => Ret (mkStopResult false SessionNotFound None None None None)
  | Some session =>
    write (update_session sessionId (BotSession.set_status STOPPED)) ;;
    (if Js.gt (BotSession.remainingSol session) 0 then
       DepositService.returnUnusedFunds
         (BotSession.walletPublicKey session)
         (BotSession.remainingSol session)
     else Ret tt) ;;
    Ret (mkStopResult true
           (BotStopped (BotSession.remainingSol session))
           (Some STOPPED)
           (Some (BotSession.tradesExecuted session))
           (Some (BotSession.remainingSol session))
           (Some (Js.gt (BotSession.remainingSol session) 0)))
  end.

(** The score of a candidate signal. *)
Definition score (sig : Signal) : Q :=
  let urgency := Js.nullish (sg_urgency sig) 0 in
  let confidence := Js.nullish (sg_confidence sig) 0 in
  let bias := if (sg_action sig =? 1)%Z then 1 # 100 else 0 in
  (urgency * (1 # 2) + confidence * (1 # 2) + bias)%Q.

(** [scored.sort((a, b) => b.score - a.score)]: by decreasing score,
    equal scores in their original order. *)
Fixpoint insert_by_score (x : Signal) (l : list Signal) : list Signal :=
  match l with
  | [] => [x]
  | y :: r =>
    if Js.lt (score x) (score y) then y :: insert_by_score x r
    else x :: y :: r
  end.

Fixpoint sort_by_score (l : list Signal) : list Signal :=
  match l with
  | [] => []
  | x :: r => insert_by_score x (sort_by_score r)
  end.

(** The two filters of [analyzeAndTradeForSession]: a signal that is
    present and not a hold, for a supported token. *)
Definition candidates (data : list (option Signal)) : list Signal :=
  filter (fun s =>
            is_Some (JupiterService.getDefaultTokenMap
                       !! Js.toUpperCase (sg_token s)))
         (omap (fun s =>
                  match s with
                  | Some sig =>
                    if (sg_action sig =? 0)%Z then None else Some sig
                  | None => None
                  end) data).

(** [analyzeAndTradeForSession]. *)
Definition analyzeAndTradeForSession (sessionId : string)
  : Prog TradingService.EntryResult :=
  m <- read ;;
  match activeSessions m !! sessionId with
  | None =>
    Ret (TradingService.mkEntryResult false false SessionNotFound
                                      None None None)
  | Some session =>
    signals <- bind (call RefreshThenGetSignals) settle ;;
    match signals with
    | Some (mkSignalsResponse true (Some ((_ :: _) as data))) =>
      match sort_by_score (candidates data) with
      | [] =>
        Ret (TradingService.mkEntryResult true false NoTradeableSignals
                                          None None None)
      | best :: _ =>
        let reason :=
          Js.nullish (Js.present (sg_explanation best))
                     "Signal-driven trade" in
        m <- read ;;
        let maxTradeSize :=
          (BotSession.remainingSol (current m sessionId session)
           * (9 # 10))%Q in
        result <-
          TradingService.executeTradeForSession
            (TradingService.mkEntryRequest sessionId (sg_token best) BUY
               (Js.nullish (sg_confidence best) 0) (sg_price best)
               reason maxTradeSize) ;;
        match (if TradingService.en_executed result
               then TradingService.en_position result else None) with
        | Some position =>
          write (update_session sessionId
                                (BotSession.push_position position))
        | None => Ret tt
        end ;;
        Ret result
      end
    | _ =>
      Ret (TradingService.mkEntryResult false false NoSignalsAvailable
                                        None None None)
    end
  end.

Definition minimumTradeSol : Q := 1 # 100.

(** [startTradingForSession]: one turn of the trading cadence.  The
    next turn is a callback handed to [setTimeout]. *)
Definition startTradingForSession (sessionId : string) : Prog unit :=
  m <- read ;;
  match activeSessions m !! sessionId with
  | None => Ret tt
  | Some session =>
    if negb (SessionStatus_eqb (BotSession.status session) RUNNING) then
      Ret tt
    else
      try_catch
        (if (BotSession.maxTrades session
             <=? BotSession.tradesExecuted session)%nat then
           write (update_session sessionId
                                 (BotSession.set_status COMPLETED)) ;;
           (if Js.gt (BotSession.remainingSol session) 0 then
              DepositService.returnUnusedFunds
                (BotSession.walletPublicKey session)
                (BotSession.remainingSol session)
            else Ret tt)
         else if Js.lt (BotSession.remainingSol session) minimumTradeSol
         then
           write (update_session sessionId
                                 (BotSession.set_status COMPLETED))
         else
           result <- analyzeAndTradeForSession sessionId ;;
           (if TradingService.en_executed result then
              write (update_session sessionId
                                    BotSession.incr_tradesExecuted)
            else Ret tt) ;;
           m <- read ;;
           let session := current m sessionId session in
           if SessionStatus_eqb (BotSession.status session) RUNNING
              && (BotSession.tradesExecuted session
                  <? BotSession.maxTrades session)%nat then
             let hasOpenPositions :=
               existsb (fun p => PositionStatus_eqb (Position.status p)
                                                    OPEN)
                       (BotSession.positions session) in
             if negb hasOpenPositions then
               call (SetTimeout (StartTradingForSession sessionId)
                                (2 * 60 * 1000))
             else
               call (SetTimeout (StartTradingForSession sessionId)
                                (10 * 60 * 1000))
           else Ret tt)
        (fun e =>
           call (SetTimeout (StartTradingForSession sessionId)
                            (2 * 60 * 1000)))
  end.

(** [shouldExitPosition]: take profit, then stop loss, then the
    timeout. *)
Definition shouldExitPosition (position : Position.t) (currentPrice : Q)
  : Prog ExitDecision :=
  if Js.ge currentPrice (Position.takeProfitPrice position) then
    Ret (mkExitDecision true (Some TakeProfitReached))
  else if Js.le currentPrice (Position.stopLossPrice position) then
    Ret (mkExitDecision true (Some StopLossReached))
  else
    now <- call Now ;;
    if (Position.autoExitTime position <=? now)%Z then
      let changePercent :=
        ((currentPrice - Position.entryPrice position)
         / Position.entryPrice position * 100)%Q in
      Ret (mkExitDecision true (Some (TimeoutReached changePercent)))
    else Ret (mkExitDecision false None).

Definition slippagePercentages : list Z := [3; 5; 7; 10; 15; 20]%Z.

(** The loop of [executeExitTrade], from the rung of index [i] on;
    [rungs] are the rungs that remain.  The body of the [try] block
    yields [true] where the source returns from the method. *)
Fixpoint exit_attempts (ref : PositionRef) (position : Position.t)
    (reason : Reason) (i : nat) (rungs : list Z) : Prog unit :=
  match rungs with
  | [] =>
    call (Log (ExitFailedAllLevels (Position.id position))) ;;
    write (set_position_status ref OPEN)
  | slippagePercent :: rest =>
    let slippageBps := (slippagePercent * 100)%Z in
    returned <-
      try_catch
        (call (Log (ExitAttempt (i + 1) (length slippagePercentages)
                                slippagePercent slippageBps)) ;;
         result <-
           TradingService.executeExitTrade
             (TradingService.mkExitRequest
                (Position.id position) (Position.token position)
                (match Position.action position with
                 | BUY => SELL | SELL => BUY end)
                (Position.amount position) (inject_Z slippageBps)
                (WithSlippage reason slippagePercent)) ;;
         if TradingService.ex_success result then
           write (set_position_status ref CLOSED) ;;
           call (Log (PositionClosed (Position.id position)
                                     slippagePercent)) ;;
           Ret true
         else
           call (Log (ExitAttemptFailed (i + 1) slippagePercent
                        (TradingService.ex_message result))) ;;
           Ret false)
        (fun e =>
           call (Log (ExitAttemptError (i + 1) slippagePercent e)) ;;
           (if (i <? length slippagePercentages - 1)%nat then
              call (Log WaitingBeforeNextAttempt) ;;
              call (Sleep 3000)
            else Ret tt) ;;
           Ret false) ;;
    if returned : bool then Ret tt
    else exit_attempts ref position reason (S i) rest
  end.

(** [executeExitTrade], the exit retry ladder. *)
Definition executeExitTrade (ref : PositionRef) (position : Position.t)
    (reason : Reason) : Prog unit :=
  exit_attempts ref position reason 0 slippagePercentages.

(** *** The monitor *)

(** [session.positions.filter(p => p.status === 'OPEN')], each position
    with the place where it lives. *)
Definition open_positions_of (sessionId : string) (session : BotSession.t)
  : list (PositionRef * Position.t) :=
  omap (fun ip : nat * Position.t =>
          if PositionStatus_eqb (Position.status ip.2) OPEN
          then Some ((sessionId, ip.1), ip.2) else None)
       (imap pair (BotSession.positions session)).

(** [allPositions]: the open positions of all sessions.  A [Map] gives
    its values in the order in which its keys were inserted; [keys] are
    the keys of the table of sessions in that order, which the table
    itself does not record. *)
Definition allPositions (keys : list string) (m : Process)
  : list (PositionRef * Position.t) :=
  keys ≫= fun sessionId =>
            match activeSessions m !! sessionId with
            | Some session => open_positions_of sessionId session
            | None => []
            end.

(** [[...new Set(tokens)]]: each token once, where it comes first. *)
Fixpoint unique (seen tokens : list string) : list string :=
  match tokens with
  | [] => []
  | t :: rest =>
    if bool_decide (t ∈ seen) then unique seen rest
    else t :: unique (t :: seen) rest
  end.

(** [prices[tokenMint]?.usdPrice], for the mint that the table gives to
    the token as the position has it; a token that the table does not
    have gives no price. *)
Definition currentPrice_of (prices : Prices) (position : Position.t)
  : option Q :=
  match JupiterService.getDefaultTokenMap !! Position.token position with
  | Some tokenMint => Js.nonzero (price_of prices tokenMint)
  | None => None
  end.

(** The loop of [checkExitConditions] over the positions gathered. *)
Fixpoint check_positions (prices : Prices)
    (positions : list (PositionRef * Position.t)) : Prog unit :=
  match positions with
  | [] => Ret tt
  | (ref, position) :: rest =>
    match currentPrice_of prices position with
    | None => check_positions prices rest
    | Some currentPrice =>
      call Now ;;
      shouldExit <- shouldExitPosition position currentPrice ;;
      match (if exit shouldExit then reason shouldExit else None) with
      | Some why => executeExitTrade ref position why
      | None => Ret tt
      end ;;
      check_positions prices rest
    end
  end.

(** [checkExitConditions]. *)
Definition checkExitConditions (keys : list string) : Prog unit :=
  m <- read ;;
  match allPositions keys m with
  | [] => Ret tt
  | positions =>
    let tokens := unique [] ((fun rp => Position.token rp.2) <$> positions) in
    prices <- bind (call (FetchPricesBySymbols tokens)) settle ;;
    check_positions prices positions
  end.

(** The callback of [startLiveMonitoring]: an error of the check is
    logged and goes no further. *)
Definition monitoringTick (keys : list string) : Prog unit :=
  try_catch (checkExitConditions keys) (fun _ => Ret tt).

End BotService.

(** ** Running a program *)

(** What the outside world saw: a call and its answer. *)
Record Event : Type := mkEvent {
  ev_call : Call;
  ev_answer : Answer ev_call
}.

(** The end of a run: the value returned or the exception thrown, the
    memory of the process, the state of the world, and the calls made, in
    order. *)
Record Final (World A : Type) : Type := mkFinal {
  outcome : Settled A;
  memory : Process;
  world : World;
  trace : list Event
}.
Arguments mkFinal {World A} outcome memory world trace.
Arguments outcome {World A} f.
Arguments memory {World A} f.
Arguments world {World A} f.
Arguments trace {World A} f.

Definition calls {World A} (f : Final World A) : list Call :=
  ev_call <$> trace f.

Section Run.
Context {World : Type}.
(** The collaborators: each call is answered from the state of the
    world, which the answer may change. *)
Variable respond : forall c : Call, World -> Answer c * World.

(** The run [f], after the events [evs]. *)
Definition after {A} (evs : list Event) (f : Final World A)
  : Final World A :=
  match f with
  | mkFinal o m w t => mkFinal o m w (evs ++ t)
  end.

(** A call runs to its end, with nothing else in between. *)
Fixpoint run {A} (p : Prog A) (m : Process) (w : World) : Final World A :=
  match p with
  | Ret a => mkFinal (Fulfilled a) m w []
  | Throw e => mkFinal (Rejected e) m w []
  | Mem upd k => run (k m) (upd m) w
  | Do c k =>
    match respond c w with
    | (r, w') => after [mkEvent c r] (run (k r) m w')
    end
  end.

(** The run of [q], or of [h] after an exception, after a run that
    ended in [f]. *)
Definition and_then {A B} (f : Final World A)
    (q : A -> Process -> World -> Final World B)
    (h : Error -> Process -> World -> Final World B) : Final World B :=
  match f with
  | mkFinal (Fulfilled a) m w t => after t (q a m w)
  | mkFinal (Rejected e) m w t => after t (h e m w)
  end.

Definition thrown {B} (e : Error) (m : Process) (w : World)
  : Final World B :=
  mkFinal (Rejected e) m w [].

Definition returned {B} (b : B) (m : Process) (w : World)
  : Final World B :=
  mkFinal (Fulfilled b) m w [].

(** A task of the event loop runs until it is suspended at an awaited
    call, or ends. *)
Fixpoint advance {A} (p : Prog A) (m : Process) (w : World)
  : Prog A * Process * World * list Event :=
  match p with
  | Mem upd k => advance (k m) (upd m) w
  | Do c k =>
    if awaited c then (p, m, w, [])
    else
      let r := respond c w in
      let '(p', m', w', evs) := advance (k r.1) m r.2 in
      (p', m', w', mkEvent c r.1 :: evs)
  | _ => (p, m, w, [])
  end.

(** The awaited call settles and the task goes on. *)
Definition resume {A} (p : Prog A) (m : Process) (w : World)
  : Prog A * Process * World * list Event :=
  match p with
  | Do c k =>
    let r := respond c w in
    let '(p', m', w', evs) := advance (k r.1) m r.2 in
    (p', m', w', mkEvent c r.1 :: evs)
  | _ => (p, m, w, [])
  end.

End Run.

(** A task is in flight when it waits for an awaited call. *)
Definition in_flight {A} (p : Prog A) : bool :=
  match p with
  | Do c _ => awaited c
  | _ => false
  end.

(** The trade executions that the event loop holds. *)
Inductive Job : Type :=
| EntryJob (p : Prog TradingService.EntryResult)
| ExitJob (p : Prog TradingService.ExitResult).

Definition job_in_flight (j : Job) : bool :=
  match j with
  | EntryJob p => in_flight p
  | ExitJob p => in_flight p
  end.

Record Loop (World : Type) : Type := mkLoop {
  lp_memory : Process;
  lp_world : World;
  lp_jobs : list Job;
  lp_trace : list Event
}.
Arguments mkLoop {World} lp_memory lp_world lp_jobs lp_trace.
Arguments lp_memory {World} l.
Arguments lp_world {World} l.
Arguments lp_jobs {World} l.
Arguments lp_trace {World} l.

(** What the event loop does next: a caller starts an entry or an exit,
    or the awaited call of the job of index [i] settles. *)
Inductive Step : Type :=
| CallEntry (request : TradingService.EntryRequest)
| CallExit (request : TradingService.ExitRequest)
| Settle (i : nat).

Section EventLoop.
Context {World : Type}.
Variable respond : forall c : Call, World -> Answer c * World.

Definition step_job (j : Job) (m : Process) (w : World)
  : Job * Process * World * list Event :=
  match j with
  | EntryJob p =>
    let '(p', m', w', evs) := resume respond p m w in
    (EntryJob p', m', w', evs)
  | ExitJob p =>
    let '(p', m', w', evs) := resume respond p m w in
    (ExitJob p', m', w', evs)
  end.

Definition step (l : Loop World) (s : Step) : Loop World :=
  match s with
  | CallEntry request =>
    let '(p, m, w, evs) :=
      advance respond (TradingService.executeTradeForSession request)
              (lp_memory l) (lp_world l) in
    mkLoop m w (lp_jobs l ++ [EntryJob p]) (lp_trace l ++ evs)
  | CallExit request =>
    let '(p, m, w, evs) :=
      advance respond (TradingService.executeExitTrade request)
              (lp_memory l) (lp_world l) in
    mkLoop m w (lp_jobs l ++ [ExitJob p]) (lp_trace l ++ evs)
  | Settle i =>
    match lp_jobs l !! i with
    | Some j =>
      let '(j', m, w, evs) := step_job j (lp_memory l) (lp_world l) in
      mkLoop m w (<[i := j']> (lp_jobs l)) (lp_trace l ++ evs)
    | None => l
    end
  end.

Definition steps (l : Loop World) (ss : list Step) : Loop World :=
  foldl step l ss.

(** The number of trade executions in flight. *)
Definition executions_in_flight (l : Loop World) : nat :=
  length (filter (fun j => job_in_flight j = true) (lp_jobs l)).

End EventLoop.

(** The process as it starts: no trade executing, no session, an empty
    ledger. *)
Definition initial : Process := mkProcess false 0 ∅ ∅.

(** ** A scripted world

    A world that answers from a script, for the examples: the clock, the
    key of the wallet, and the replies of the price feed, of the order
    interface, of the signer and of the signal feed are fixed; the
    executions of signed transactions are answered from a list, one
    answer for each call. *)

Record Desk : Type := mkDesk {
  dk_clock : Z;
  dk_key : option string;
  dk_prices : Settled Prices;
  dk_order : Settled OrderResponse;
  dk_signing : SigningResult;
  dk_executions : list (Settled ExecutionResult);
  dk_signals : Settled (option SignalsResponse)
}.

Definition desk_respond (c : Call) (d : Desk) : Answer c * Desk :=
  match c return Answer c * Desk with
  | Now => (dk_clock d, d)
  | Fresh prefix => (prefix, d)
  | GetPublicKey => (dk_key d, d)
  | SignTransaction _ => (dk_signing d, d)
  | NewPublicKey address => (Fulfilled address, d)
  | SerializeTransfer _ _ _ _ => (Fulfilled "transfer", d)
  | SetTimeout _ _ => (tt, d)
  | Start _ => (tt, d)
  | Log _ => (tt, d)
  | FetchPricesBySymbols _ => (dk_prices d, d)
  | CreateOrder _ => (dk_order d, d)
  | ExecuteSignedTransaction _ _ =>
    match dk_executions d with
    | [] => (Rejected (External "Network error"), d)
    | r :: rest =>
      (r, mkDesk (dk_clock d) (dk_key d) (dk_prices d) (dk_order d)
                 (dk_signing d) rest (dk_signals d))
    end
  | RefreshThenGetSignals => (dk_signals d, d)
  | GetLatestBlockhash => (Fulfilled "blockhash", d)
  | SendRawTransaction _ => (Fulfilled "signature", d)
  | ConfirmTransaction _ => (Fulfilled tt, d)
  | Sleep _ => (tt, d)
  end.

Definition bonkMint : string :=
  "DezXAZ8z7PnrnRJjz3wXBoRgixCa6xjnB7YaB1pPB263".
Definition solMint : string :=
  "So11111111111111111111111111111111111111112".

(** BONK at 0.5 USD with 5 decimals, SOL at 200 USD with 9. *)
Definition desk_prices : Prices :=
  list_to_map
    [ (bonkMint, mkPriceEntry (Some (1 # 2)) (Some 5%nat));
      (solMint, mkPriceEntry (Some 200) (Some 9%nat)) ].

Definition accepted : ExecutionResult :=
  mkExecutionResult true None None (Some "sig") None.

Definition refused : ExecutionResult :=
  mkExecutionResult false (Some "slippage tolerance exceeded") None None
                    None.

(** A desk where every collaborator answers, and the executions are
    answered by [executions]. *)
Definition desk (executions : list (Settled ExecutionResult)) : Desk :=
  mkDesk 1000 (Some "BotWallet") (Fulfilled desk_prices)
         (Fulfilled (mkOrderResponse (Some "tx") None (Some "req-1")
                                     (Some "order-1") None))
         (mkSigningResult true (Some "signed-tx") None)
         executions
         (Fulfilled
            (Some (mkSignalsResponse true
                     (Some [Some (mkSignal "bonk" 1 (Some (8 # 10))
                                           (Some (5 # 10)) None None)])))).

(** A long position in BONK: entry at 100, take profit at 103, stop loss
    at 95, automatic exit at 180000. *)
Definition long_position : Position.t :=
  Position.mk "pos-1" "BONK" BUY 100 (19 # 10) (9 # 10) 103 95 OPEN 0 180000
              "order-1" (Some "sig").

(** A position whose take-profit and stop-loss thresholds are both
    crossed by a price of 100. *)
Definition crossed_position : Position.t :=
  Position.mk "pos-2" "BONK" SELL 100 (19 # 10) (9 # 10) 97 105 OPEN 0 180000
              "order-2" (Some "sig").

(** The orders that a run asked the order interface to create. *)
Definition orders_of {World A} (f : Final World A) : list CreateOrderParams :=
  omap (fun c => match c with CreateOrder p => Some p | _ => None end)
       (calls f).

(** An exit of [amount] BONK with a requested tolerance of [bps] basis
    points, through [executeExitTrade] and through [createExitOrder]. *)
Definition exit_request (amount bps : Q) : TradingService.ExitRequest :=
  TradingService.mkExitRequest "pos-1" "bonk" SELL amount bps
                               TakeProfitReached.

Definition exit_order_request (amount bps : Q)
  : TradingService.ExitOrderRequest :=
  TradingService.mkExitOrderRequest "bonk" SELL amount bps "UserWallet"
                                    "manual".

(** The execution results that the order interface returned during a
    run. *)
Definition execution_of (ev : Event) : option ExecutionResult :=
  match ev with
  | mkEvent c a =>
    match c return Answer c -> option ExecutionResult with
    | ExecuteSignedTransaction _ _ =>
      fun a => match a with
               | Fulfilled er => Some er
               | Rejected _ => None
               end
    | _ => fun _ => None
    end a
  end.

Definition executions_of {World A} (f : Final World A)
  : list ExecutionResult :=
  omap execution_of (trace f).

(** The world of [respond], where the order interface reports [success]
    for every execution that it answers. *)
Definition set_er_success (success : bool) (er : ExecutionResult)
  : ExecutionResult :=
  mkExecutionResult success (er_error er) (er_message er) (er_signature er)
                    (er_txid er).

Definition reporting {World : Type} (success : bool)
    (respond : forall c : Call, World -> Answer c * World)
    (c : Call) (w : World) : Answer c * World :=
  match c return Answer c * World -> Answer c * World with
  | ExecuteSignedTransaction _ _ =>
    fun r => (match r.1 with
              | Fulfilled er => Fulfilled (set_er_success success er)
              | Rejected e => Rejected e
              end, r.2)
  | _ => fun r => r
  end (respond c w).

(** Two runs that end with the same value, the same memory and the same
    world. *)
Definition same_end {World A} (f g : Final World A) : Prop :=
  outcome f = outcome g /\ memory f = memory g /\ world f = world g.

(** A process that holds one running session, "bot-1", of the wallet
    "UserWallet": [allocated] SOL were allocated to it, [remaining] SOL
    remain after [trades] trades, and the ledger of the wallet shows
    [available] SOL of [deposited]. *)
Definition bot1 (allocated remaining : Q) (trades : nat)
    (positions : list Position.t) : BotSession.t :=
  BotSession.mk "bot-1" "UserWallet" allocated remaining trades 5 RUNNING 0
                positions.

Definition trading (session : BotSession.t) (deposited available : Q)
  : Process :=
  mkProcess false 0
    {[ "bot-1" := session ]}
    {[ "UserWallet" :=
         UserDeposit.mk "UserWallet" "UserWallet" deposited available 1 0
                        (Some 0%Z) ]}.

(** ** The exit retry ladder, as the log shows it *)

Inductive LadderEvent : Type :=
| Tried (slippageBps : Z)
| FailedAttempt
| Closed
| GaveUp.

Definition ladder_event (ev : Event) : option LadderEvent :=
  match ev_call ev with
  | Log (ExitAttempt _ _ _ slippageBps) => Some (Tried slippageBps)
  | Log (ExitAttemptFailed _ _ _) => Some FailedAttempt
  | Log (ExitAttemptError _ _ _) => Some FailedAttempt
  | Log (PositionClosed _ _) => Some Closed
  | Log (ExitFailedAllLevels _) => Some GaveUp
  | _ => None
  end.

(** The attempts of a run and how each ended, in order. *)
Definition ladder_of {World A} (f : Final World A) : list LadderEvent :=
  omap ladder_event (trace f).

(** The delays of a run, in milliseconds. *)
Definition delay_of (ev : Event) : option Z :=
  match ev_call ev with
  | Sleep ms => Some ms
  | _ => None
  end.

Definition delays_of {World A} (f : Final World A) : list Z :=
  omap delay_of (trace f).

(** The tolerances of the ladder, in basis points. *)
Definition ladder : list Z := [300; 500; 700; 1000; 1500; 2000]%Z.

(** The log of attempts that all failed. *)
Definition failed_rungs (tolerances : list Z) : list LadderEvent :=
  flat_map (fun slippageBps => [Tried slippageBps; FailedAttempt])
           tolerances.

(** The tolerances that a run attempted, in order. *)
Definition tolerances_attempted {World A} (f : Final World A) : list Z :=
  omap (fun e => match e with Tried slippageBps => Some slippageBps
                         | _ => None end)
       (ladder_of f).

(** The session "bot-1" after one entry: [long_position] is its first
    position, and a tenth of a SOL remains. *)
Definition holding : Process :=
  trading (bot1 1 (1 # 10) 1 [long_position]) 1 0.

Definition long_ref : BotService.PositionRef := ("bot-1", 0%nat).

(** ** The life of the process

    What can happen to the process, one thing at a time: a request of a
    client, a turn of the trading cadence that the event loop starts, or
    the exit of a position that the monitor triggers. *)

Inductive Operation : Type :=
| LaunchBot (walletPublicKey : string) (allocatedSol : Q)
| ConfirmDeposit (sessionId signedDepositTransaction userWalletAddress : string)
                 (allocatedSol : Q)
| StopBot (sessionId : string)
| TradingTurn (sessionId : string)
| ExitPosition (ref : BotService.PositionRef) (position : Position.t)
               (reason : Reason)
| CreateExitOrder (request : TradingService.ExitOrderRequest)
| TradeOnce.

Definition perform (op : Operation) : Prog unit :=
  match op with
  | LaunchBot walletPublicKey allocatedSol =>
    bind (BotService.launchBot walletPublicKey allocatedSol)
         (fun _ => Ret tt)
  | ConfirmDeposit sessionId signed wallet allocatedSol =>
    bind (BotService.confirmDepositAndStartTrading sessionId signed wallet
                                                   allocatedSol)
         (fun _ => Ret tt)
  | StopBot sessionId => bind (BotService.stopBot sessionId) (fun _ => Ret tt)
  | TradingTurn sessionId => BotService.startTradingForSession sessionId
  | ExitPosition ref position reason =>
    BotService.executeExitTrade ref position reason
  | CreateExitOrder request =>
    bind (TradingService.createExitOrder request) (fun _ => Ret tt)
  | TradeOnce => bind TradingService.executeTradeOnce (fun _ => Ret tt)
  end.

Section Life.
Context {World : Type}.
Variable respond : forall c : Call, World -> Answer c * World.

(** The memory and the world after the operations [ops], each run to
    its end before the next one starts. *)
Fixpoint life (ops : list Operation) (m : Process) (w : World)
  : Process * World :=
  match ops with
  | [] => (m, w)
  | op :: rest =>
    let f := run respond (perform op) m w in
    life rest (memory f) (world f)
  end.

End Life.

(** The SOL that the positions of a session have committed. *)
Definition committed (s : BotSession.t) : Q :=
  foldr Qplus 0 (Position.solSpent <$> BotSession.positions s).

(** The accounts of a session are in order. *)
Definition balanced (s : BotSession.t) : Prop :=
  (0 <= BotSession.remainingSol s)%Q
  /\ (BotSession.remainingSol s == BotSession.allocatedSol s - committed s)%Q.

(** The accounts of every session of the process are in order. *)
Definition all_balanced (m : Process) : Prop :=
  map_Forall (fun _ s => balanced s) (activeSessions m).

Section Preservation.
Context {World : Type}.
Variable respond : forall c : Call, World -> Answer c * World.

(** The program [p] keeps the invariant [I] of the memory, from its
    start to its end. *)
Definition preserves {A} (I : Process -> Prop) (p : Prog A) : Prop :=
  forall m w, I m -> I (memory (run respond p m w)).

End Preservation.

(** The available balance of a wallet in the ledger, 0 for a wallet
    without an entry. *)
Definition availableSol_of (m : Process) (wallet : string) : Q :=
  default 0%Q (UserDeposit.availableSol <$> userDeposits m !! wallet).

Definition status_of (m : Process) (sessionId : string)
  : option SessionStatus :=
  BotSession.status <$> activeSessions m !! sessionId.

Definition remainingSol_of (m : Process) (sessionId : string) : Q :=
  default 0%Q (BotSession.remainingSol <$> activeSessions m !! sessionId).

(** "UserWallet" launches a bot with [allocated] SOL and confirms the
    deposit; the cadence then takes [turns] turns.  On the desk the
    session is named "bot". *)
Definition session_life (allocated : Q) (turns : nat) : list Operation :=
  [LaunchBot "UserWallet" allocated;
   ConfirmDeposit "bot" "signed-deposit" "UserWallet" allocated]
  ++ replicate turns (TradingTurn "bot").

Definition desk_life (ops : list Operation) : Process * Desk :=
  life desk_respond ops initial (desk (replicate 5 (Fulfilled accepted))).

(** The value that a run returned, if it returned. *)
Definition outcome_value {World A} (f : Final World A) : option A :=
  match outcome f with
  | Fulfilled a => Some a
  | Rejected _ => None
  end.

(** An entry of 0.9 SOL into BONK for the session "bot". *)
Definition entry_request : TradingService.EntryRequest :=
  TradingService.mkEntryRequest "bot" "bonk" BUY (8 # 10) None
                                "Signal-driven trade" (9 # 10).

(** The event loop of a process that has just started, on the desk. *)
Definition idle_loop : Loop Desk :=
  mkLoop initial (desk (replicate 5 (Fulfilled accepted))) [] [].

Definition loop_calls {World} (l : Loop World) : list Call :=
  ev_call <$> lp_trace l.

(** The result of the job of index [i], once it has returned. *)
Definition exit_result_of {World} (l : Loop World) (i : nat)
  : option TradingService.ExitResult :=
  match lp_jobs l !! i with
  | Some (ExitJob (Ret result)) => Some result
  | _ => None
  end.

Definition entry_result_of {World} (l : Loop World) (i : nat)
  : option TradingService.EntryResult :=
  match lp_jobs l !! i with
  | Some (EntryJob (Ret result)) => Some result
  | _ => None
  end.

(** ** The guard, under every schedule *)

(** A program that does not touch the memory of the process. *)
Inductive mem_free {A : Type} : Prog A -> Prop :=
| mem_free_ret (a : A) : mem_free (Ret a)
| mem_free_throw (e : Error) : mem_free (Throw e)
| mem_free_do (c : Call) (k : Answer c -> Prog A) :
    (forall r, mem_free (k r)) -> mem_free (Do c k).

(** A program that has come to its end. *)
Definition finished {A} (p : Prog A) : Prop :=
  match p with
  | Ret _ | Throw _ => True
  | _ => False
  end.

(** An entry past the guard: what is left of it is a [try] block that
    does not touch the memory, and the [finally] block that frees the
    guard. *)
Definition guarded {A} (p : Prog A) : Prop :=
  exists q, mem_free q /\ p = finally q (write (set_isExecutingTrade false)).

Definition entry_in_flight (j : Job) : bool :=
  match j with
  | EntryJob p => in_flight p
  | ExitJob _ => false
  end.

Fixpoint count_jobs (f : Job -> bool) (jobs : list Job) : nat :=
  match jobs with
  | [] => 0
  | j :: rest => (if f j then 1 else 0) + count_jobs f rest
  end.

(** The number of entries in flight. *)
Definition entries_in_flight {World} (l : Loop World) : nat :=
  count_jobs entry_in_flight (lp_jobs l).

Definition job_ok (j : Job) : Prop :=
  match j with
  | EntryJob p => in_flight p = true /\ guarded p \/ finished p
  | ExitJob p => mem_free p
  end.

(** The jobs of the loop are as the guard leaves them: the guard is held
    exactly when one entry is in flight. *)
Definition loop_ok {World} (l : Loop World) : Prop :=
  Forall job_ok (lp_jobs l)
  /\ entries_in_flight l
     = (if isExecutingTrade (lp_memory l) then 1 else 0)%nat.

(** ** What a trace says about signing and submitting *)

(** The transaction that the wallet signed, when it did. *)
Definition signed_of (ev : Event) : option string :=
  match ev with
  | mkEvent c a =>
    match c return Answer c -> option string with
    | SignTransaction _ =>
      fun a => if sr_success a then Js.present (sr_signedTransaction a)
               else None
    | _ => fun _ => None
    end a
  end.

(** The signed transaction and the request id handed to the order
    interface for execution. *)
Definition submitted_of (ev : Event) : option (string * string) :=
  match ev with
  | mkEvent (ExecuteSignedTransaction signed requestId) _ =>
    Some (signed, requestId)
  | _ => None
  end.

(** The request id of an order that the order interface created. *)
Definition request_id_of (ev : Event) : option string :=
  match ev with
  | mkEvent c a =>
    match c return Answer c -> option string with
    | CreateOrder _ =>
      fun a => match a with
               | Fulfilled order => Js.present (or_requestId order)
               | Rejected _ => None
               end
    | _ => fun _ => None
    end a
  end.

(** The request ids that the process made up itself. *)
Definition fresh_of (ev : Event) : option string :=
  match ev with
  | mkEvent c a =>
    match c return Answer c -> option string with
    | Fresh _ => fun a => Some a
    | _ => fun _ => None
    end a
  end.

(** ** What a trace says about the chain *)

(** The key that the chain library made of an address. *)
Definition public_key_of (ev : Event) : option (string * string) :=
  match ev with
  | mkEvent c a =>
    match c return Answer c -> option (string * string) with
    | NewPublicKey address =>
      fun a => match a with
               | Fulfilled key => Some (address, key)
               | Rejected _ => None
               end
    | _ => fun _ => None
    end a
  end.

(** The transfer that was serialized: from, to, lamports. *)
Definition transfer_of (ev : Event) : option (string * string * Z) :=
  match ev with
  | mkEvent (SerializeTransfer from to lamports _) _ =>
    Some (from, to, lamports)
  | _ => None
  end.

(** The transaction that the chain accepted, with its signature. *)
Definition sent_of (ev : Event) : option (string * string) :=
  match ev with
  | mkEvent c a =>
    match c return Answer c -> option (string * string) with
    | SendRawTransaction transaction =>
      fun a => match a with
               | Fulfilled signature => Some (transaction, signature)
               | Rejected _ => None
               end
    | _ => fun _ => None
    end a
  end.

(** The signature whose transaction the chain confirmed. *)
Definition confirmed_of (ev : Event) : option string :=
  match ev with
  | mkEvent c a =>
    match c return Answer c -> option string with
    | ConfirmTransaction signature =>
      fun a => match a with
               | Fulfilled _ => Some signature
               | Rejected _ => None
               end
    | _ => fun _ => None
    end a
  end.

(** The answers to the requests for a recent blockhash. *)
Definition blockhash_of (ev : Event) : option (Settled string) :=
  match ev with
  | mkEvent c a =>
    match c return Answer c -> option (Settled string) with
    | GetLatestBlockhash => fun a => Some a
    | _ => fun _ => None
    end a
  end.

(** ** What a trace says about the cadence *)

(** The task handed to [setTimeout], with its delay. *)
Definition timeout_of (ev : Event) : option (Task * Z) :=
  match ev with
  | mkEvent (SetTimeout task ms) _ => Some (task, ms)
  | _ => None
  end.

(** The task handed to the event loop without a delay. *)
Definition started_of (ev : Event) : option Task :=
  match ev with
  | mkEvent (Start task) _ => Some task
  | _ => None
  end.

(** ** What the monitor may change *)

(** The position [p'] is the position [p], but for its status. *)
Definition same_position (p p' : Position.t) : Prop :=
  exists st, p' = Position.set_status st p.

(** The session [s'] is the session [s], but for the statuses of its
    positions. *)
Definition same_session (s s' : BotSession.t) : Prop :=
  s' = BotService.set_positions (BotSession.positions s') s
  /\ Forall2 same_position (BotSession.positions s)
             (BotSession.positions s').

(** The memory [m'] is the memory [m], but for the statuses of the
    positions. *)
Definition statuses_only (m m' : Process) : Prop :=
  isExecutingTrade m' = isExecutingTrade m
  /\ userDeposits m' = userDeposits m
  /\ forall sessionId,
      option_Forall2 same_session (activeSessions m !! sessionId)
                     (activeSessions m' !! sessionId).

(** The tokens of the open positions, each once. *)
Definition monitored_tokens (keys : list string) (m : Process)
  : list string :=
  BotService.unique []
    ((fun rp => Position.token rp.2) <$> BotService.allPositions keys m).

(** ** The orders of the exit retry ladder, rung by rung *)

(** The order that a call asked the order interface to create. *)
Definition order_of (ev : Event) : option CreateOrderParams :=
  match ev_call ev with
  | CreateOrder params => Some params
  | _ => None
  end.

(** The orders of a trace, each under the attempt during which it was
    asked for: the orders that come before the first attempt, and then
    every attempt, in order, with the tolerance that its progress line
    shows and the orders asked for until the next attempt begins. *)
Fixpoint by_rung (t : list Event)
  : list CreateOrderParams * list (Z * list CreateOrderParams) :=
  match t with
  | [] => ([], [])
  | ev :: rest =>
    match ev_call ev with
    | Log (ExitAttempt _ _ _ slippageBps) =>
      ([], (slippageBps, (by_rung rest).1) :: (by_rung rest).2)
    | CreateOrder params => (params :: (by_rung rest).1, (by_rung rest).2)
    | _ => by_rung rest
    end
  end.

Definition orders_by_rung {World A} (f : Final World A)
  : list (Z * list CreateOrderParams) :=
  (by_rung (trace f)).2.

(** ** Strings of ASCII characters *)

(** A string of ASCII characters.  On such a string [Js.toUpperCase] is
    [String.prototype.toUpperCase]; JavaScript also maps letters beyond
    ASCII, which the embedding does not, so that what is stated of the
    upper case of a token is stated of tokens in ASCII. *)
Fixpoint ascii_only (s : string) : bool :=
  match s with
  | EmptyString => true
  | String c r => (nat_of_ascii c <? 128)%nat && ascii_only r
  end.

(** ** Scoring, whatever the rounding *)

(** The signal [a] is at least as urgent and as sure as [b], and is a
    buy if [b] is one: whatever the rounding of the sums, the score of
    [a] is then the score of [b] or more. *)
Definition dominates (a b : Signal) : Prop :=
  (Js.nullish (sg_urgency b) 0 <= Js.nullish (sg_urgency a) 0)%Q
  /\ (Js.nullish (sg_confidence b) 0 <= Js.nullish (sg_confidence a) 0)%Q
  /\ (sg_action b = 1%Z -> sg_action a = 1%Z).

(** [scored.sort((a, b) => b.score - a.score)] for the scores [sc]: the
    sort of [BotService.sort_by_score], which is the one for the scores
    in exact arithmetic. *)
Fixpoint insert_by (sc : Signal -> Q) (x : Signal) (l : list Signal)
  : list Signal :=
  match l with
  | [] => [x]
  | y :: r =>
    if Js.lt (sc x) (sc y) then y :: insert_by sc x r
    else x :: y :: r
  end.

Fixpoint sort_by (sc : Signal -> Q) (l : list Signal) : list Signal :=
  match l with
  | [] => []
  | x :: r => insert_by sc x (sort_by sc r)
  end.

(** ** Numbers up to the rounding of the code *)

(** The unit of rounding of a double, 2^-53, and the greatest finite
    double. *)
Definition unit_roundoff : Q := 1 # (2 ^ 53).

Definition max_double : Q := inject_Z (2 ^ 1024 - 2 ^ 971).

(** [stored] is the double that the code has for one sum or one
    difference of doubles whose exact value is [exact]: the nearest
    double, within 2^-53 of it in proportion, unless the operation
    overflows.  The value of the embedding is [exact] itself. *)
Definition rounded (exact stored : Q) : Prop :=
  (Qabs exact <= max_double ->
   Qabs (stored - exact) <= unit_roundoff * Qabs exact)%Q.

(** [n] is [Math.floor] of the double that the code has for one product
    of doubles whose exact value is [exact], unless the product
    overflows: less than one below that double, which is within 2^-53
    of [exact] in proportion, or within the least double of it. *)
Definition floor_of_rounded (exact : Q) (n : Z) : Prop :=
  (Qabs exact <= max_double ->
   Qabs (inject_Z n - exact) <= 1 + unit_roundoff * Qabs exact)%Q.

(** * Properties *)

(** ** The laws of running a program *)

Section RunLaws.
Context {World : Type}.
Variable respond : forall c : Call, World -> Answer c * World.

Lemma after_nil {A} (f : Final World A) : after [] f = f.
Proof. by destruct f. Qed.

Lemma after_after {A} (t1 t2 : list Event) (f : Final World A) :
  after t1 (after t2 f) = after (t1 ++ t2) f.
Proof. destruct f. simpl. by rewrite app_assoc. Qed.

Lemma and_then_after {A B} (t : list Event) (f : Final World A)
    (q : A -> Process -> World -> Final World B) h :
  and_then (after t f) q h = after t (and_then f q h).
Proof. destruct f as [[a|e] m w t']; simpl; by rewrite after_after. Qed.

Lemma run_bind {A B} (p : Prog A) (f : A -> Prog B) m w :
  run respond (bind p f) m w
  = and_then (run respond p m w) (fun a => run respond (f a)) thrown.
Proof.
  revert m w. induction p as [a|e|upd k IH|c k IH]; intros m w; simpl.
  - by rewrite after_nil.
  - reflexivity.
  - apply IH.
  - destruct (respond c w) as [r w']. by rewrite IH, and_then_after.
Qed.

Lemma run_try_catch {A} (p : Prog A) (h : Error -> Prog A) m w :
  run respond (try_catch p h) m w
  = and_then (run respond p m w) returned (fun e => run respond (h e)).
Proof.
  revert m w. induction p as [a|e|upd k IH|c k IH]; intros m w; simpl.
  - reflexivity.
  - by rewrite after_nil.
  - apply IH.
  - destruct (respond c w) as [r w']. by rewrite IH, and_then_after.
Qed.

Lemma run_finally {A} (p : Prog A) (f : Prog unit) m w :
  run respond (finally p f) m w
  = and_then (run respond p m w)
      (fun a => run respond (bind f (fun _ => Ret a)))
      (fun e => run respond (bind f (fun _ => Throw e))).
Proof.
  revert m w. induction p as [a|e|upd k IH|c k IH]; intros m w; simpl.
  - by rewrite after_nil.
  - by rewrite after_nil.
  - apply IH.
  - destruct (respond c w) as [r w']. by rewrite IH, and_then_after.
Qed.

End RunLaws.

(** ** Exit evaluation *)

Section ExitEvaluation.
Context {World : Type}.
Variable respond : forall c : Call, World -> Answer c * World.

Lemma Qle_bool_false (a b : Q) : Qle_bool a b = false <-> (b < a)%Q.
Proof.
  destruct (Qle_bool a b) eqn:E; split; intros H; try done.
  - apply Qle_bool_iff in E. exfalso. by apply (Qlt_not_le b a).
  - apply Qnot_le_lt. intros Hle. apply Qle_bool_iff in Hle. congruence.
Qed.

(** C7.  [shouldExitPosition] tests take profit, then stop loss, then
    the timeout, and reports the reason of the first test that holds:
    a price at or above the take-profit price gives the take-profit
    reason whatever the stop-loss price and the clock are; below it, a
    price at or below the stop-loss price gives the stop-loss reason;
    otherwise the position exits for the timeout exactly when the
    clock has reached [autoExitTime].  The decision carries one reason
    at most. *)
Theorem shouldExitPosition_priority
    (position : Position.t) (currentPrice : Q) (m : Process) (w : World) :
  let decision :=
    outcome (run respond
               (BotService.shouldExitPosition position currentPrice) m w) in
  let now := (respond Now w).1 in
  ((Position.takeProfitPrice position <= currentPrice)%Q ->
   decision
   = Fulfilled (BotService.mkExitDecision true (Some TakeProfitReached)))
  /\ ((currentPrice < Position.takeProfitPrice position)%Q ->
      (currentPrice <= Position.stopLossPrice position)%Q ->
      decision
      = Fulfilled (BotService.mkExitDecision true (Some StopLossReached)))
  /\ ((currentPrice < Position.takeProfitPrice position)%Q ->
      (Position.stopLossPrice position < currentPrice)%Q ->
      (Position.autoExitTime position <= now)%Z ->
      decision
      = Fulfilled
          (BotService.mkExitDecision true
             (Some (TimeoutReached
                      ((currentPrice - Position.entryPrice position)
                       / Position.entryPrice position * 100)%Q))))
  /\ ((currentPrice < Position.takeProfitPrice position)%Q ->
      (Position.stopLossPrice position < currentPrice)%Q ->
      (now < Position.autoExitTime position)%Z ->
      decision = Fulfilled (BotService.mkExitDecision false None)).
Proof.
  intros decision now. subst decision now.
  unfold BotService.shouldExitPosition, Js.ge, Js.le.
  repeat split.
  - intros Htp. apply Qle_bool_iff in Htp. by rewrite Htp.
  - intros Htp Hsl. apply Qle_bool_false in Htp.
    apply Qle_bool_iff in Hsl. by rewrite Htp, Hsl.
  - intros Htp Hsl. apply Qle_bool_false in Htp, Hsl.
    rewrite Htp, Hsl. simpl.
    destruct (respond Now w) as [now w']. simpl. intros Ht.
    apply Z.leb_le in Ht. by rewrite Ht.
  - intros Htp Hsl. apply Qle_bool_false in Htp, Hsl.
    rewrite Htp, Hsl. simpl.
    destruct (respond Now w) as [now w']. simpl. intros Ht.
    apply Z.leb_gt in Ht. by rewrite Ht.
Qed.

End ExitEvaluation.

(** A price of 104 against a take profit of 103, and a price of 100 that
    crosses both thresholds of [crossed_position]: the reason is the take
    profit. *)
Lemma shouldExitPosition_priority_witness :
  outcome (run desk_respond
             (BotService.shouldExitPosition long_position 104)
             initial (desk []))
  = Fulfilled (BotService.mkExitDecision true (Some TakeProfitReached))
  /\ ((100 <= Position.stopLossPrice crossed_position)%Q
      /\ outcome (run desk_respond
                    (BotService.shouldExitPosition crossed_position 100)
                    initial (desk []))
         = Fulfilled (BotService.mkExitDecision true
                        (Some TakeProfitReached))).
Proof.
  split; [|split].
  - apply (shouldExitPosition_priority desk_respond long_position 104).
    unfold Qle; simpl; lia.
  - unfold Qle; simpl; lia.
  - apply (shouldExitPosition_priority desk_respond crossed_position 100).
    unfold Qle; simpl; lia.
Defined.

(** ** Exit orders *)

(** One step of a run: the answer of the next call, by cases. *)
Ltac run_call respond :=
  match goal with
  | |- context [respond ?c ?w] =>
    let r := fresh "r" in
    let w' := fresh "w" in
    let E := fresh "E" in
    destruct (respond c w) as [r w'] eqn:E; simpl in r; simpl;
    try match type of r with
        | Settled _ => destruct r; simpl
        | SigningResult => destruct r; simpl
        end
  | |- context [match Js.present ?x with _ => _ end] =>
    destruct (Js.present x) eqn:?; simpl
  | |- context [match Js.nonzero ?x with _ => _ end] =>
    destruct (Js.nonzero x) eqn:?; simpl
  | |- context [if ?b then _ else _] =>
    destruct b eqn:?; simpl
  end.

(** The same for the runs named by equations of the context, which [tac]
    simplifies; [Hf] is one of them. *)
Ltac run_call_with respond Hf tac :=
  match type of Hf with
  | context [respond ?c ?w] =>
    let r := fresh "r" in
    let w' := fresh "w" in
    let E := fresh "E" in
    destruct (respond c w) as [r w'] eqn:E; simpl in r; tac;
    try match type of r with
        | Settled _ => destruct r; tac
        | SigningResult => destruct r; tac
        end
  | context [match Js.present ?x with _ => _ end] =>
    destruct (Js.present x) eqn:?; tac
  | context [match Js.nonzero ?x with _ => _ end] =>
    destruct (Js.nonzero x) eqn:?; tac
  | context [if ?b then _ else _] =>
    destruct b eqn:?; tac
  end.

Ltac run_call_in respond Hf := run_call_with respond Hf ltac:(simpl in Hf).

Section ExitOrders.
Context {World : Type}.
Variable respond : forall c : Call, World -> Answer c * World.

Lemma actualSlippageBps_cases (requested : Q) :
  (requested < 300)%Q
  /\ TradingService.actualSlippageBps requested = 300%Q
  \/ (300 <= requested)%Q
     /\ TradingService.actualSlippageBps requested = requested.
Proof.
  unfold TradingService.actualSlippageBps,
    TradingService.minimumSlippageBps, Qmax, GenericMinMax.gmax.
  destruct (requested ?= 300)%Q eqn:E.
  - right. split; [|done]. apply Qeq_alt in E. rewrite E. apply Qle_refl.
  - left. split; [|done]. by apply Qlt_alt.
  - right. split; [|done]. apply Qgt_alt in E. by apply Qlt_le_weak.
Qed.

Local Arguments Qfloor : simpl never.

Lemma present_Some (s : option string) (x : string) :
  Js.present s = Some x -> s = Some x.
Proof. unfold Js.present. by destruct (Js.truthy_string s). Qed.

Lemma exit_trade_orders (request : TradingService.ExitRequest) m w params :
  In (CreateOrder params)
     (calls (run respond (TradingService.executeExitTrade request) m w)) ->
  exists tokenMint prices,
    JupiterService.getDefaultTokenMap
      !! Js.toUpperCase (TradingService.x_token request) = Some tokenMint
    /\ (respond (FetchPricesBySymbols
                   [Js.toUpperCase (TradingService.x_token request); "SOL"])
                w).1 = Fulfilled prices
    /\ slippageBps params
       = Some (TradingService.actualSlippageBps
                 (TradingService.x_slippageBps request))
    /\ makingAmount params
       = (Qfloor (TradingService.x_amount request)
          * Js.pow10 (Js.or_nat (decimals_of prices tokenMint) 9))%Z.
Proof.
  unfold TradingService.executeExitTrade, TradingService.exit_body, calls.
  rewrite run_try_catch.
  set (sym := Js.toUpperCase (TradingService.x_token request)).
  destruct (JupiterService.getDefaultTokenMap !! sym)
    as [tokenMint|] eqn:Htok; [|simpl; intros []].
  destruct (Js.present (Some tokenMint)) as [tm|] eqn:Htm;
    [|simpl; intros []].
  apply present_Some in Htm. inversion Htm; subst tm; clear Htm.
  destruct (Js.present (JupiterService.getDefaultTokenMap !! "SOL"))
    as [solMint|]; [|simpl; intros []].
  unfold and_then; simpl.
  repeat run_call respond; simpl.
  all: intros H; repeat (destruct H as [H|H]; try discriminate H);
    try contradiction; inversion H; subst;
    eexists _, _; repeat split; reflexivity.
Qed.

Lemma exit_order_orders (request : TradingService.ExitOrderRequest)
    m w params :
  In (CreateOrder params)
     (calls (run respond (TradingService.createExitOrder request) m w)) ->
  slippageBps params
  = Some (TradingService.actualSlippageBps
            (TradingService.xo_slippageBps request)).
Proof.
  unfold TradingService.createExitOrder, TradingService.exit_order_body,
    calls.
  rewrite run_try_catch.
  set (sym := Js.toUpperCase (TradingService.xo_token request)).
  destruct (Js.present (JupiterService.getDefaultTokenMap !! sym))
    as [tokenMint|]; [|simpl; intros []].
  destruct (Js.present (JupiterService.getDefaultTokenMap !! "SOL"))
    as [solMint|]; [|simpl; intros []].
  unfold and_then; simpl.
  repeat run_call respond; simpl.
  all: intros H; repeat (destruct H as [H|H]; try discriminate H);
    try contradiction; inversion H; subst; reflexivity.
Qed.

Lemma orders_of_In {A} (f : Final World A) (P : CreateOrderParams -> Prop) :
  (forall params, In (CreateOrder params) (calls f) -> P params) ->
  Forall P (orders_of f).
Proof.
  intros H. apply Forall_forall. intros params Hin.
  apply H. unfold orders_of in Hin.
  apply list_elem_of_omap in Hin as (c & Hc & Heq).
  destruct c; try discriminate. inversion Heq; subst.
  by apply list_elem_of_In.
Qed.

(** C6.  Every order that [executeExitTrade] or [createExitOrder] asks
    for carries the tolerance [max(requested, 300)]: never less than
    300 basis points, 300 when less was requested, and the requested
    value itself when it is 300 or more. *)
Theorem exit_tolerance_floor
    (request : TradingService.ExitRequest)
    (order_request : TradingService.ExitOrderRequest) m w :
  Forall (fun p => slippageBps p
                   = Some (Qmax (TradingService.x_slippageBps request) 300))
         (orders_of
            (run respond (TradingService.executeExitTrade request) m w))
  /\ Forall (fun p => slippageBps p
                      = Some (Qmax (TradingService.xo_slippageBps
                                      order_request) 300))
            (orders_of
               (run respond (TradingService.createExitOrder order_request)
                    m w))
  /\ forall requested : Q,
       (300 <= Qmax requested 300)%Q
       /\ ((requested < 300)%Q -> Qmax requested 300 = 300%Q)
       /\ ((300 <= requested)%Q -> Qmax requested 300 = requested).
Proof.
  split; [|split].
  - apply orders_of_In. intros params Hin.
    apply exit_trade_orders in Hin as (? & ? & _ & _ & H & _). exact H.
  - apply orders_of_In. intros params Hin.
    by apply exit_order_orders in Hin.
  - intros requested.
    destruct (actualSlippageBps_cases requested) as [[Hlt Heq]|[Hle Heq]];
      unfold TradingService.actualSlippageBps,
        TradingService.minimumSlippageBps in Heq; rewrite Heq.
    + split; [apply Qle_refl|]. split; [done|].
      intros Hle. exfalso. by apply (Qlt_not_le requested 300).
    + split; [done|]. split; [|done].
      intros Hlt. exfalso. by apply (Qlt_not_le requested 300).
Qed.

(** C10.  Every order that [executeExitTrade] asks for sells
    [floor(amount) * 10^tokenDecimals] units, where [tokenDecimals] is
    what the price feed said of the token (9 when it said nothing or
    zero): the fraction of the stored amount is dropped before the
    scaling, and an amount from 0 up to 1 gives an order of zero
    units. *)
Theorem exit_making_amount_truncated
    (request : TradingService.ExitRequest) m w :
  Forall
    (fun p =>
       exists tokenMint prices,
         JupiterService.getDefaultTokenMap
           !! Js.toUpperCase (TradingService.x_token request)
         = Some tokenMint
         /\ (respond
               (FetchPricesBySymbols
                  [Js.toUpperCase (TradingService.x_token request); "SOL"])
               w).1 = Fulfilled prices
         /\ makingAmount p
            = (Qfloor (TradingService.x_amount request)
               * 10 ^ Z.of_nat (Js.or_nat (decimals_of prices tokenMint) 9))%Z
         /\ ((0 <= TradingService.x_amount request)%Q ->
             (TradingService.x_amount request < 1)%Q ->
             makingAmount p = 0%Z))
    (orders_of (run respond (TradingService.executeExitTrade request) m w)).
Proof.
  apply orders_of_In. intros params Hin.
  apply exit_trade_orders in Hin as (tokenMint & prices & Ht & Hp & _ & Hm).
  exists tokenMint, prices. repeat split; try done.
  intros H0 H1. rewrite Hm.
  assert (Qfloor (TradingService.x_amount request) = 0%Z) as ->; [|done].
  assert (0 <= Qfloor (TradingService.x_amount request))%Z.
  { change 0%Z with (Qfloor 0). by apply Qfloor_resp_le. }
  assert (Qfloor (TradingService.x_amount request) < 1)%Z; [|lia].
  rewrite Zlt_Qlt. eapply Qle_lt_trans; [apply Qfloor_le|exact H1].
Qed.

End ExitOrders.

(** A request of 100 basis points is raised to 300 on both paths. *)
Lemma exit_tolerance_floor_witness :
  (exists p,
      orders_of (run desk_respond
                   (TradingService.executeExitTrade
                      (exit_request (19 # 10) 100))
                   initial (desk [Fulfilled accepted])) = [p]
      /\ slippageBps p = Some 300%Q)
  /\ (exists p,
         orders_of (run desk_respond
                      (TradingService.createExitOrder
                         (exit_order_request (19 # 10) 100))
                      initial (desk [])) = [p]
         /\ slippageBps p = Some 300%Q).
Proof.
  destruct (exit_tolerance_floor desk_respond (exit_request (19 # 10) 100)
              (exit_order_request (19 # 10) 100) initial
              (desk [Fulfilled accepted])) as (H1 & _ & _).
  destruct (exit_tolerance_floor desk_respond (exit_request (19 # 10) 100)
              (exit_order_request (19 # 10) 100) initial
              (desk [])) as (_ & H2 & _).
  vm_compute in H1. vm_compute in H2.
  split; eexists; (split; [vm_compute; reflexivity|]).
  - exact (Forall_inv H1).
  - exact (Forall_inv H2).
Defined.

(** An exit of 1.9 BONK (5 decimals) sells 100000 units, the units of one
    token; an exit of half a token sells nothing. *)
Lemma exit_making_amount_truncated_witness :
  (makingAmount <$>
     orders_of (run desk_respond
                  (TradingService.executeExitTrade
                     (exit_request (19 # 10) 300))
                  initial (desk [Fulfilled accepted]))) = [100000%Z]
  /\ Forall (fun p => makingAmount p = 0%Z)
         (orders_of (run desk_respond
                       (TradingService.executeExitTrade
                          (exit_request (1 # 2) 300))
                       initial (desk [Fulfilled accepted])))
  /\ length (orders_of (run desk_respond
                          (TradingService.executeExitTrade
                             (exit_request (1 # 2) 300))
                          initial (desk [Fulfilled accepted]))) = 1%nat.
Proof.
  split; [vm_compute; reflexivity|]. split; [|vm_compute; reflexivity].
  eapply Forall_impl;
    [apply (exit_making_amount_truncated desk_respond
              (exit_request (1 # 2) 300) initial
              (desk [Fulfilled accepted]))|].
  intros p (_ & _ & _ & _ & _ & H). apply H; unfold Qle, Qlt; simpl; lia.
Defined.

(** ** Entries *)

Section Entries.
Context {World : Type}.
Variable respond : forall c : Call, World -> Answer c * World.

Local Arguments Qfloor : simpl never.

(** What a run of [executeTradeForSession] leaves behind when the guard
    is free: the guard is free again, nothing else of the memory has
    changed, and the call has returned; it returned an executed entry
    with its position exactly when the order interface answered the
    execution, whatever the answer said. *)
Lemma executeTradeForSession_run
    (request : TradingService.EntryRequest) m w :
  isExecutingTrade m = false ->
  let f := run respond (TradingService.executeTradeForSession request) m w in
  memory f = m
  /\ exists result,
      outcome f = Fulfilled result
      /\ (TradingService.en_executed result = false
          /\ TradingService.en_position result = None
          /\ executions_of f = []
          \/ TradingService.en_success result = true
             /\ TradingService.en_executed result = true
             /\ (exists er, executions_of f = [er])
             /\ exists position,
                 TradingService.en_position result = Some position
                 /\ Position.solSpent position
                    = TradingService.e_tradeSizeSol request
                 /\ Position.status position = OPEN).
Proof.
  intros Hfree f.
  destruct m as [flag n ss ds]. simpl in Hfree. subst flag.
  remember f as g eqn:Hf. subst f.
  unfold TradingService.executeTradeForSession, TradingService.entry_body
    in Hf.
  simpl in Hf.
  set (sym := Js.toUpperCase (TradingService.e_token request)) in Hf.
  destruct (Js.present (JupiterService.getDefaultTokenMap !! sym))
    as [tokenMint|];
    [|simpl in Hf; subst g; simpl; split; [reflexivity|];
      eexists; split; [reflexivity|]; left; repeat split; reflexivity].
  destruct (Js.present (JupiterService.getDefaultTokenMap !! "SOL"))
    as [solMint|];
    [|simpl in Hf; subst g; simpl; split; [reflexivity|];
      eexists; split; [reflexivity|]; left; repeat split; reflexivity].
  simpl in Hf.
  repeat run_call_in respond Hf.
  all: subst g; unfold executions_of; simpl.
  all: split; [reflexivity|]; eexists; split; [reflexivity|]; simpl.
  all: first
         [ left; repeat split; reflexivity
         | right; split; [reflexivity|]; split; [reflexivity|];
           split; [eexists; reflexivity|];
           eexists; repeat split; reflexivity ].
Qed.

(** Whether the order interface reports the execution as a success or
    as a failure, [executeTradeForSession] ends the same. *)
Lemma executeTradeForSession_reporting
    (request : TradingService.EntryRequest) m w :
  same_end
    (run (reporting false respond)
         (TradingService.executeTradeForSession request) m w)
    (run (reporting true respond)
         (TradingService.executeTradeForSession request) m w).
Proof.
  remember (run (reporting false respond) _ m w) as g1 eqn:H1.
  remember (run (reporting true respond) _ m w) as g2 eqn:H2.
  unfold TradingService.executeTradeForSession, TradingService.entry_body
    in H1, H2.
  simpl in H1, H2.
  destruct (isExecutingTrade m); simpl in H1, H2;
    [by subst g1 g2|].
  set (sym := Js.toUpperCase (TradingService.e_token request)) in H1, H2.
  destruct (Js.present (JupiterService.getDefaultTokenMap !! sym))
    as [tokenMint|]; [|by subst g1 g2].
  destruct (Js.present (JupiterService.getDefaultTokenMap !! "SOL"))
    as [solMint|]; [|by subst g1 g2].
  simpl in H1, H2. unfold reporting in H1, H2. simpl in H1, H2.
  repeat run_call_with respond H1 ltac:(simpl in H1, H2).
  all: by subst g1 g2.
Qed.

(** While the guard is held the call returns at once: it says that it
    was skipped, calls nobody and leaves the memory as it is. *)
Lemma executeTradeForSession_held
    (request : TradingService.EntryRequest) m w :
  isExecutingTrade m = true ->
  run respond (TradingService.executeTradeForSession request) m w
  = mkFinal (Fulfilled TradingService.skipped) m w [].
Proof.
  intros Hheld. unfold TradingService.executeTradeForSession. simpl.
  by rewrite Hheld.
Qed.

Local Opaque TradingService.executeTradeForSession.

(** What a turn of [analyzeAndTradeForSession] leaves behind: either
    the memory as it was, and no execution answered; or one execution
    answered, whatever the answer, and then the call returns an
    executed entry whose position, of 90% of what remained, has been
    appended to the session. *)
Lemma analyzeAndTradeForSession_run (sessionId : string) m w :
  let f := run respond (BotService.analyzeAndTradeForSession sessionId) m w in
  memory f = m /\ executions_of f = []
  \/ exists er session result position,
      executions_of f = [er]
      /\ activeSessions m !! sessionId = Some session
      /\ outcome f = Fulfilled result
      /\ TradingService.en_success result = true
      /\ TradingService.en_executed result = true
      /\ TradingService.en_position result = Some position
      /\ Position.solSpent position
         = (BotSession.remainingSol session * (9 # 10))%Q
      /\ Position.status position = OPEN
      /\ memory f
         = update_session sessionId (BotSession.push_position position) m.
Proof.
  intros f. remember f as g eqn:Hf. subst f.
  unfold BotService.analyzeAndTradeForSession in Hf. simpl in Hf.
  destruct (activeSessions m !! sessionId) as [session|] eqn:Hs;
    simpl in Hf; [|left; by subst g].
  destruct (respond RefreshThenGetSignals w) as [r w1]. simpl in Hf.
  destruct r as [[[[] [[|d data]|]]|]|e]; simpl in Hf;
    try (left; by subst g).
  destruct (BotService.sort_by_score (BotService.candidates (d :: data)))
    as [|best rest]; simpl in Hf; [left; by subst g|].
  unfold current in Hf. rewrite Hs in Hf. simpl in Hf.
rewrite run_bind in Hf.
  destruct (isExecutingTrade m) eqn:Hflag.
  { rewrite executeTradeForSession_held in Hf by done. simpl in Hf.
    left. by subst g. }
  match type of Hf with
  | context [TradingService.executeTradeForSession ?req] =>
    destruct (executeTradeForSession_run req m w1 Hflag)
      as (Hmem & result & Hout & Hcases);
    destruct (run respond (TradingService.executeTradeForSession req) m w1)
      as [o m1 w2 t] eqn:Hrun
  end.
  simpl in Hmem, Hout. subst o m1. simpl in Hf.
  unfold executions_of in Hcases; simpl in Hcases.
  destruct Hcases
    as [(He & Hp & Hx)
       |(Hsucc & He & (er & Hx) & position & Hp & Hsol & Hst)].
  - rewrite He in Hf. simpl in Hf. left. subst g.
    unfold executions_of. simpl. by rewrite app_nil_r.
  - rewrite He, Hp in Hf. simpl in Hf. right.
    exists er, session, result, position. subst g.
    unfold executions_of. simpl. rewrite app_nil_r.
    repeat split; done.
Qed.

Lemma analyzeAndTradeForSession_reporting (sessionId : string) m w :
  same_end
    (run (reporting false respond)
         (BotService.analyzeAndTradeForSession sessionId) m w)
    (run (reporting true respond)
         (BotService.analyzeAndTradeForSession sessionId) m w).
Proof.
  remember (run (reporting false respond) _ m w) as g1 eqn:H1.
  remember (run (reporting true respond) _ m w) as g2 eqn:H2.
  unfold BotService.analyzeAndTradeForSession in H1, H2.
  simpl in H1, H2.
  destruct (activeSessions m !! sessionId) as [session|] eqn:Hs;
    simpl in H1, H2; [|by subst g1 g2].
  destruct (respond RefreshThenGetSignals w) as [r w1]. simpl in H1, H2.
  destruct r as [[[[] [[|d data]|]]|]|e]; simpl in H1, H2;
    try (by subst g1 g2).
  destruct (BotService.sort_by_score (BotService.candidates (d :: data)))
    as [|best rest]; simpl in H1, H2; [by subst g1 g2|].
  rewrite run_bind in H1, H2.
  match type of H1 with
  | context [TradingService.executeTradeForSession ?req] =>
    destruct (executeTradeForSession_reporting req m w1)
      as (Ho & Hm & Hw);
    destruct (run (reporting false respond)
                  (TradingService.executeTradeForSession req) m w1)
      as [o1 m1 w2 t1];
    destruct (run (reporting true respond)
                  (TradingService.executeTradeForSession req) m w1)
      as [o2 m2 w3 t2]
  end.
  simpl in Ho, Hm, Hw. subst o2 m2 w3.
  destruct o1 as [result|e]; simpl in H1, H2; [|by subst g1 g2].
  destruct (if TradingService.en_executed result
            then TradingService.en_position result else None);
    simpl in H1, H2; by subst g1 g2.
Qed.

(** C3.  When the order interface answers the execution of an entry
    with a failure, the entry is recorded all the same:
    [executeTradeForSession] returns [success] and [executed] with a
    position that commits the whole trade size, and
    [analyzeAndTradeForSession] appends that position to the session
    and takes its [solSpent] from [remainingSol].  The run ends with
    the same value and the same memory as when the interface reports a
    success. *)
Theorem adapter_failure_still_opens_position
    (sessionId : string) m w (er : ExecutionResult) :
  er_success er = false ->
  In er (executions_of
           (run respond (BotService.analyzeAndTradeForSession sessionId)
                m w)) ->
  let f := run respond (BotService.analyzeAndTradeForSession sessionId) m w in
  (exists session result position,
      activeSessions m !! sessionId = Some session
      /\ outcome f = Fulfilled result
      /\ TradingService.en_success result = true
      /\ TradingService.en_executed result = true
      /\ TradingService.en_position result = Some position
      /\ Position.status position = OPEN
      /\ Position.solSpent position
         = (BotSession.remainingSol session * (9 # 10))%Q
      /\ activeSessions (memory f) !! sessionId
         = Some (BotSession.mk
                   (BotSession.sessionId session)
                   (BotSession.walletPublicKey session)
                   (BotSession.allocatedSol session)
                   (BotSession.remainingSol session
                    - Position.solSpent position)%Q
                   (BotSession.tradesExecuted session)
                   (BotSession.maxTrades session)
                   (BotSession.status session)
                   (BotSession.startedAt session)
                   (BotSession.positions session ++ [position])))
  /\ same_end
       (run (reporting false respond)
            (BotService.analyzeAndTradeForSession sessionId) m w)
       (run (reporting true respond)
            (BotService.analyzeAndTradeForSession sessionId) m w).
Proof.
  intros _ Hin f. split; [|apply analyzeAndTradeForSession_reporting].
  destruct (analyzeAndTradeForSession_run sessionId m w)
    as [[_ Hnone]
       |(er' & session & result & position & _ & Hs & Ho & H1 & H2 & H3
         & H4 & H5 & Hm)].
  { rewrite Hnone in Hin. destruct Hin. }
  exists session, result, position. subst f.
  repeat split; try done.
  rewrite Hm. unfold update_session. simpl.
  by rewrite lookup_alter_eq, Hs.
Qed.

End Entries.

(** One SOL remains, the best signal is for BONK, and the order interface
    refuses the execution: the entry is returned as executed. *)
Lemma adapter_failure_still_opens_position_witness :
  er_success refused = false
  /\ In refused
        (executions_of
           (run desk_respond (BotService.analyzeAndTradeForSession "bot-1")
                (trading (bot1 1 1 0 []) 1 0) (desk [Fulfilled refused])))
  /\ exists result,
      outcome (run desk_respond
                 (BotService.analyzeAndTradeForSession "bot-1")
                 (trading (bot1 1 1 0 []) 1 0) (desk [Fulfilled refused]))
      = Fulfilled result
      /\ TradingService.en_success result = true
      /\ TradingService.en_executed result = true.
Proof.
  split; [reflexivity|].
  assert (In refused
            (executions_of
               (run desk_respond
                    (BotService.analyzeAndTradeForSession "bot-1")
                    (trading (bot1 1 1 0 []) 1 0)
                    (desk [Fulfilled refused])))) as Hin.
  { vm_compute. left. reflexivity. }
  split; [exact Hin|].
  destruct (adapter_failure_still_opens_position desk_respond "bot-1"
              (trading (bot1 1 1 0 []) 1 0) (desk [Fulfilled refused])
              refused eq_refl Hin)
    as [(session & result & position & _ & Ho & Hs & He & _) _].
  exists result. repeat split; assumption.
Defined.

(** ** The exit retry ladder *)

Section ExitLadder.
Context {World : Type}.
Variable respond : forall c : Call, World -> Answer c * World.

Local Arguments Qfloor : simpl never.

(** [TradingService.executeExitTrade] returns a result, whatever happens:
    it never throws; it leaves the memory as it is, writes none of the
    progress lines of the ladder and never sleeps. *)
Lemma executeExitTrade_run (request : TradingService.ExitRequest) m w :
  exists result w' t,
    run respond (TradingService.executeExitTrade request) m w
    = mkFinal (Fulfilled result) m w' t
    /\ omap ladder_event t = []
    /\ omap delay_of t = [].
Proof.
  remember (run respond (TradingService.executeExitTrade request) m w)
    as g eqn:Hf.
  unfold TradingService.executeExitTrade, TradingService.exit_body in Hf.
  simpl in Hf.
  set (sym := Js.toUpperCase (TradingService.x_token request)) in Hf.
  destruct (Js.present (JupiterService.getDefaultTokenMap !! sym))
    as [tokenMint|];
    [|simpl in Hf; subst g; do 3 eexists; repeat split; reflexivity].
  destruct (Js.present (JupiterService.getDefaultTokenMap !! "SOL"))
    as [solMint|];
    [|simpl in Hf; subst g; do 3 eexists; repeat split; reflexivity].
  simpl in Hf.
  repeat run_call_in respond Hf.
  all: subst g; do 3 eexists; split; [reflexivity|]; split; reflexivity.
Qed.

Local Opaque TradingService.executeExitTrade.

(** The loop of the ladder from any rung on: it returns, it never
    sleeps, and either some rung succeeds after the rungs before it
    failed, and the position is marked [CLOSED], or every rung fails and
    the position is marked [OPEN]. *)
Lemma exit_attempts_run ref position reason (rungs : list Z) :
  forall (i : nat) m w,
  exists m' w' t,
    run respond (BotService.exit_attempts ref position reason i rungs) m w
    = mkFinal (Fulfilled tt) m' w' t
    /\ omap delay_of t = []
    /\ ((exists k slippagePercent,
            rungs !! k = Some slippagePercent
            /\ omap ladder_event t
               = failed_rungs ((fun p => p * 100)%Z <$> take k rungs)
                 ++ [Tried (slippagePercent * 100); Closed]
            /\ m' = BotService.set_position_status ref CLOSED m)
        \/ omap ladder_event t
           = failed_rungs ((fun p => p * 100)%Z <$> rungs) ++ [GaveUp]
           /\ m' = BotService.set_position_status ref OPEN m).
Proof.
  induction rungs as [|slippagePercent rest IH]; intros i m w.
  - simpl. destruct (respond (Log _) w) as [[] w']. simpl.
    do 3 eexists. split; [reflexivity|]. split; [reflexivity|].
    right. split; reflexivity.
  - simpl. destruct (respond (Log _) w) as [[] w1]. simpl.
    rewrite run_bind, run_try_catch, run_bind.
    match goal with
    | |- context [TradingService.executeExitTrade ?req] =>
      destruct (executeExitTrade_run req m w1)
        as (result & w2 & t1 & Hrun & Hl & Hd)
    end.
    rewrite Hrun. simpl.
    destruct (TradingService.ex_success result); simpl.
    + destruct (respond (Log _) w2) as [[] w3]. simpl.
      do 3 eexists. split; [reflexivity|].
      rewrite !app_nil_r. cbn. rewrite !omap_app, Hl, Hd. cbn.
      split; [reflexivity|].
      left. exists 0%nat, slippagePercent. repeat split; reflexivity.
    + destruct (respond (Log _) w2) as [[] w3]. simpl.
      destruct (IH (S i) m w3) as (m' & w' & t & Hrest & Hd' & Hcases).
      rewrite Hrest. simpl.
      do 3 eexists. split; [reflexivity|].
      rewrite !app_nil_r. cbn. rewrite !omap_app, Hl, Hd, Hd'. cbn.
      split; [reflexivity|].
      destruct Hcases as [(k & pct & Hk & Ht & Hm)|[Ht Hm]].
      * left. exists (S k), pct. rewrite Ht. repeat split; done.
      * right. rewrite Ht. split; done.
Qed.

Lemma position_at_set_status ref st m :
  BotService.position_at (BotService.set_position_status ref st m) ref
  = Position.set_status st <$> BotService.position_at m ref.
Proof.
  unfold BotService.position_at, BotService.set_position_status,
    update_session.
  simpl. rewrite lookup_alter_eq.
  destruct (activeSessions m !! ref.1) as [s|]; [|done].
  simpl. apply list_lookup_alter_eq.
Qed.

Lemma attempted_failed_rungs (l : list Z) (rest : list LadderEvent) :
  omap (fun e => match e with Tried slippageBps => Some slippageBps
                         | _ => None end)
       (failed_rungs l ++ rest)
  = l ++ omap (fun e => match e with Tried slippageBps => Some slippageBps
                                | _ => None end) rest.
Proof. induction l as [|b l IH]; [done|]. simpl. by rewrite <- IH. Qed.

(** In no run of the exit ladder is there a delay: the three seconds
    are waited in the [catch] block only, and
    [TradingService.executeExitTrade] reports a failure by its result. *)
Theorem exit_ladder_never_waits
    (ref : BotService.PositionRef) (position : Position.t)
    (reason : Reason) m w :
  delays_of (run respond (BotService.executeExitTrade ref position reason)
                 m w) = [].
Proof.
  unfold BotService.executeExitTrade.
  destruct (exit_attempts_run ref position reason
              BotService.slippagePercentages 0 m w)
    as (m' & w' & t & Hrun & Hd & _).
  by rewrite Hrun.
Qed.

End ExitLadder.

Section ExitLadderOrders.
Context {World : Type}.
Variable respond : forall c : Call, World -> Answer c * World.

Local Arguments Qfloor : simpl never.

(** One rung: [TradingService.executeExitTrade] returns a result and
    leaves the memory as it is; it asks for one order at most, with the
    tolerance of the request or 300, and has one execution answered at
    most; its result is a success exactly when the order interface
    answered the execution of its order with a success. *)
Lemma executeExitTrade_rung (request : TradingService.ExitRequest) m w :
  exists result w' t,
    run respond (TradingService.executeExitTrade request) m w
    = mkFinal (Fulfilled result) m w' t
    /\ omap ladder_event t = []
    /\ omap delay_of t = []
    /\ (length (omap order_of t) <= 1)%nat
    /\ Forall (fun p => slippageBps p
                        = Some (TradingService.actualSlippageBps
                                  (TradingService.x_slippageBps request)))
              (omap order_of t)
    /\ if TradingService.ex_success result
       then length (omap order_of t) = 1%nat
            /\ exists er, omap execution_of t = [er] /\ er_success er = true
       else Forall (fun er => er_success er = false) (omap execution_of t).
Proof.
  remember (run respond (TradingService.executeExitTrade request) m w)
    as g eqn:Hf.
  unfold TradingService.executeExitTrade, TradingService.exit_body in Hf.
  simpl in Hf.
  set (sym := Js.toUpperCase (TradingService.x_token request)) in Hf.
  destruct (Js.present (JupiterService.getDefaultTokenMap !! sym))
    as [tokenMint|];
    [|simpl in Hf; subst g; do 3 eexists; split; [reflexivity|];
      simpl; repeat split; auto].
  destruct (Js.present (JupiterService.getDefaultTokenMap !! "SOL"))
    as [solMint|];
    [|simpl in Hf; subst g; do 3 eexists; split; [reflexivity|];
      simpl; repeat split; auto].
  simpl in Hf.
  repeat run_call_in respond Hf.
  all: subst g; do 3 eexists; (split; [reflexivity|]); simpl.
  all: split; [reflexivity|]; split; [reflexivity|].
  all: split; [lia|]; split; [repeat constructor|].
  all: first [ split; [reflexivity|]; eexists; split; [reflexivity|assumption]
             | repeat constructor; assumption
             | repeat constructor ].
Qed.

Local Opaque TradingService.executeExitTrade.

Lemma by_rung_quiet (t1 t2 : list Event) :
  omap ladder_event t1 = [] ->
  by_rung (t1 ++ t2)
  = (omap order_of t1 ++ (by_rung t2).1, (by_rung t2).2).
Proof.
  induction t1 as [|[c a] t1 IH]; simpl; intros Hq.
  - by destruct (by_rung t2).
  - unfold ladder_event, order_of in *. simpl in *.
    destruct c; try (by apply IH); try (by rewrite IH).
    destruct line; try discriminate; by apply IH.
Qed.

Lemma executions_app (t1 t2 : list Event) :
  omap execution_of (t1 ++ t2) = omap execution_of t1 ++ omap execution_of t2.
Proof. apply omap_app. Qed.

Lemma last_call_app (c : Call) (t1 t2 : list Event) (x : Call) :
  last (ev_call <$> t2) = Some x ->
  last (c :: (ev_call <$> (t1 ++ t2))) = Some x.
Proof.
  intros H. rewrite fmap_app.
  change (last ((c :: (ev_call <$> t1)) ++ (ev_call <$> t2)) = Some x).
  by rewrite last_app, H.
Qed.

(** The six tolerances of the ladder are 300 basis points or more: the
    floor of [TradingService.executeExitTrade] leaves them as they
    are. *)
Lemma ladder_above_floor (slippageBps : Z) :
  slippageBps ∈ ladder ->
  TradingService.actualSlippageBps (inject_Z slippageBps)
  = inject_Z slippageBps.
Proof.
  unfold ladder. intros H.
  repeat (apply elem_of_cons in H as [->|H]; [reflexivity|]).
  by apply elem_of_nil in H.
Qed.

(** The loop of the ladder from any rung on, by its orders and by the
    answers of the order interface. *)
Lemma exit_attempts_rungs ref position reason (rungs : list Z) :
  forall (i : nat) m w,
  exists m' w' t,
    run respond (BotService.exit_attempts ref position reason i rungs) m w
    = mkFinal (Fulfilled tt) m' w' t
    /\ (by_rung t).1 = []
    /\ Forall (fun r =>
                 (length r.2 <= 1)%nat
                 /\ Forall (fun p =>
                              slippageBps p
                              = Some (TradingService.actualSlippageBps
                                        (inject_Z r.1))) r.2)
              (by_rung t).2
    /\ ((exists k slippagePercent,
            rungs !! k = Some slippagePercent
            /\ (by_rung t).2.*1
               = ((fun p => p * 100)%Z <$> take (S k) rungs)
            /\ omap ladder_event t
               = failed_rungs ((fun p => p * 100)%Z <$> take k rungs)
                 ++ [Tried (slippagePercent * 100); Closed]
            /\ (exists p, last (by_rung t).2
                          = Some ((slippagePercent * 100)%Z, [p]))
            /\ (exists er before,
                   omap execution_of t = before ++ [er]
                   /\ er_success er = true
                   /\ Forall (fun e => er_success e = false) before)
            /\ last (ev_call <$> t)
               = Some (Log (PositionClosed (Position.id position)
                                           slippagePercent))
            /\ m' = BotService.set_position_status ref CLOSED m)
        \/ (by_rung t).2.*1 = ((fun p => p * 100)%Z <$> rungs)
           /\ omap ladder_event t
              = failed_rungs ((fun p => p * 100)%Z <$> rungs) ++ [GaveUp]
           /\ Forall (fun e => er_success e = false) (omap execution_of t)
           /\ last (ev_call <$> t)
              = Some (Log (ExitFailedAllLevels (Position.id position)))
           /\ m' = BotService.set_position_status ref OPEN m).
Proof.
  induction rungs as [|slippagePercent rest IH]; intros i m w.
  - simpl. destruct (respond (Log _) w) as [[] w']. simpl.
    do 3 eexists. split; [reflexivity|]. split; [reflexivity|].
    split; [constructor|]. right. repeat split; constructor.
  - simpl. destruct (respond (Log _) w) as [[] w1]. simpl.
    rewrite run_bind, run_try_catch, run_bind.
    match goal with
    | |- context [TradingService.executeExitTrade ?req] =>
      destruct (executeExitTrade_rung req m w1)
        as (result & w2 & t1 & Hrun & Hl & _ & Hlen & Hslip & Hres)
    end.
    simpl in Hslip.
    rewrite Hrun. simpl.
    destruct (TradingService.ex_success result); simpl.
    + destruct Hres as [Hone (er & Hex & Her)].
      destruct (respond (Log _) w2) as [[] w3]. simpl.
      do 3 eexists. split; [reflexivity|].
      rewrite !app_nil_r. cbn [by_rung ev_call fst snd].
      rewrite by_rung_quiet by done. simpl.
      rewrite !app_nil_r.
      split; [reflexivity|].
      split. { constructor; [|constructor]. simpl. split; [lia|done]. }
      left. exists 0%nat, slippagePercent.
      split; [reflexivity|]. split; [reflexivity|].
      split. { cbn. rewrite !omap_app, Hl. reflexivity. }
      split. { destruct (omap order_of t1) as [|p [|]]; simpl in Hone;
                 try discriminate. by exists p. }
      split. { exists er, []. rewrite omap_app, Hex. simpl.
               split; [reflexivity|]. split; [done|constructor]. }
      split; [|reflexivity].
      by apply last_call_app.
    + destruct (respond (Log _) w2) as [[] w3]. simpl.
      destruct (IH (S i) m w3)
        as (m' & w' & t & Hrest & Hpend & Hall & Hcases).
      rewrite Hrest. simpl.
      do 3 eexists. split; [reflexivity|].
      rewrite !app_nil_r. cbn [by_rung ev_call fst snd].
      rewrite <- !app_assoc. rewrite by_rung_quiet by done.
      cbn [app by_rung ev_call fst snd]. rewrite Hpend, !app_nil_r.
      split; [reflexivity|].
      split; [constructor; [simpl; split; [lia|done]|done]|].
      assert (omap ladder_event
                (t1 ++ mkEvent (Log (ExitAttemptFailed
                                       (i + 1) slippagePercent
                                       (TradingService.ex_message result)))
                               tt :: t)
              = FailedAttempt :: omap ladder_event t) as Hlog.
      { by rewrite omap_app, Hl. }
      assert (omap execution_of
                (t1 ++ mkEvent (Log (ExitAttemptFailed
                                       (i + 1) slippagePercent
                                       (TradingService.ex_message result)))
                               tt :: t)
              = omap execution_of t1 ++ omap execution_of t) as Hexe.
      { by rewrite omap_app. }
      destruct Hcases
        as [(k & pct & Hk & Hfst & Ht & Hlast & (er & before & Hex & Her & Hb)
             & Hend & Hm)
           |(Hfst & Ht & Hex & Hend & Hm)].
      * left. exists (S k), pct. split; [done|].
        split; [rewrite fmap_cons, Hfst; reflexivity|].
        split. { cbn. rewrite Hlog, Ht. reflexivity. }
        split. { destruct Hlast as [p Hp]. exists p. simpl.
                 destruct (by_rung t).2; [done|]. exact Hp. }
        split. { exists er, (omap execution_of t1 ++ before).
                 cbn. rewrite Hexe, Hex, app_assoc.
                 split; [reflexivity|]. split; [done|].
                 by apply Forall_app. }
        split; [|done].
        apply last_call_app. by rewrite fmap_cons, last_cons, Hend.
      * right. split; [rewrite fmap_cons, Hfst; reflexivity|].
        split. { cbn. rewrite Hlog, Ht. reflexivity. }
        split. { cbn. rewrite Hexe. by apply Forall_app. }
        split; [|done].
        apply last_call_app. by rewrite fmap_cons, last_cons, Hend.
Qed.

(** Every order of a trace is an order of one of its attempts, or comes
    before the first. *)
Lemma by_rung_orders (t : list Event) :
  omap order_of t = (by_rung t).1 ++ concat (by_rung t).2.*2.
Proof.
  induction t as [|[c a] t IH]; [done|].
  unfold order_of in *. cbn [omap by_rung ev_call].
  destruct c; try destruct line; try exact IH.
  all: cbn; first [exact IH | f_equal; exact IH].
Qed.

Lemma orders_of_trace {A} (f : Final World A) :
  orders_of f = omap order_of (trace f).
Proof.
  unfold orders_of, calls, order_of.
  induction (trace f) as [|[c a] t IH]; [done|].
  rewrite fmap_cons. simpl.
  destruct c; simpl; first [exact IH | f_equal; exact IH].
Qed.

(** C8.  The exit of a position tries the tolerances 300, 500, 700,
    1000, 1500 and 2000 basis points in that order, which is strictly
    increasing, and stops at the first attempt that succeeds: the
    tolerances attempted are a prefix of the ladder, all attempts but
    the last have failed, and the position is marked [CLOSED].  When the
    six attempts fail there is no seventh, the position is [OPEN] and the
    call returns; no exception leaves it in either case.

    An attempt is what the order interface sees of it: every order of
    the run is asked for during one of the attempts, one order at most
    in each, and it carries the tolerance of that attempt.  The attempt
    that succeeds is the one whose order the interface has executed
    with success; the executions answered before it were failures, and
    the line that reports the closing is the last call that the run
    records: no price, no order and no execution is asked for after it.
    When the ladder gives up, no execution was answered with a
    success, and the line that reports it is the last call of the
    run. *)
Theorem exit_ladder_stops_at_first_success
    (ref : BotService.PositionRef) (position : Position.t)
    (reason : Reason) m w :
  BotService.position_at m ref = Some position ->
  let f := run respond (BotService.executeExitTrade ref position reason) m w in
  outcome f = Fulfilled tt
  /\ StronglySorted Z.lt ladder
  /\ tolerances_attempted f `prefix_of` ladder
  /\ (orders_by_rung f).*1 = tolerances_attempted f
  /\ orders_of f = concat (orders_by_rung f).*2
  /\ Forall (fun r =>
               (length r.2 <= 1)%nat
               /\ Forall (fun p => slippageBps p = Some (inject_Z r.1)) r.2)
            (orders_by_rung f)
  /\ ((exists k slippageBps,
          ladder !! k = Some slippageBps
          /\ ladder_of f
             = failed_rungs (take k ladder) ++ [Tried slippageBps; Closed]
          /\ tolerances_attempted f = take (S k) ladder
          /\ BotService.position_at (memory f) ref
             = Some (Position.set_status CLOSED position)
          /\ (Position.status <$> BotService.position_at (memory f) ref)
             = Some CLOSED
          /\ (exists params,
                 last (orders_by_rung f) = Some (slippageBps, [params])
                 /\ last (orders_of f) = Some params)
          /\ (exists er before,
                 executions_of f = before ++ [er]
                 /\ er_success er = true
                 /\ Forall (fun e => er_success e = false) before)
          /\ exists slippagePercent,
              slippageBps = (slippagePercent * 100)%Z
              /\ last (calls f)
                 = Some (Log (PositionClosed (Position.id position)
                                             slippagePercent)))
      \/ ladder_of f = failed_rungs ladder ++ [GaveUp]
         /\ tolerances_attempted f = ladder
         /\ BotService.position_at (memory f) ref
            = Some (Position.set_status OPEN position)
         /\ (Position.status <$> BotService.position_at (memory f) ref)
            = Some OPEN
         /\ Forall (fun e => er_success e = false) (executions_of f)
         /\ last (calls f)
            = Some (Log (ExitFailedAllLevels (Position.id position)))).
Proof.
  intros Hpos f. subst f. unfold BotService.executeExitTrade.
  destruct (exit_attempts_rungs ref position reason
              BotService.slippagePercentages 0 m w)
    as (m' & w' & t & Hrun & Hpend & Hall & Hcases).
  rewrite orders_of_trace.
  rewrite Hrun.
  unfold tolerances_attempted, ladder_of, orders_by_rung, executions_of,
    calls.
  cbn [outcome memory trace].
  split; [reflexivity|].
  split; [repeat constructor; lia|].
  assert (((fun p => p * 100)%Z <$> BotService.slippagePercentages) = ladder)
    as Hladder by reflexivity.
  assert (Forall (fun r : Z * list CreateOrderParams => r.1 ∈ ladder)
                 (by_rung t).2 ->
          Forall (fun r =>
                    (length r.2 <= 1)%nat
                    /\ Forall (fun p => slippageBps p
                                        = Some (inject_Z r.1)) r.2)
                 (by_rung t).2) as Hfloor.
  { intros Hin. apply Forall_forall. intros r Hr.
    destruct (proj1 (Forall_forall _ _) Hall r Hr) as [Hlen Hs].
    pose proof (proj1 (Forall_forall _ _) Hin r Hr) as Hb.
    split; [done|].
    eapply Forall_impl; [exact Hs|]. intros p ->.
    by rewrite ladder_above_floor. }
  assert (forall l : list Z,
             (by_rung t).2.*1 = l -> l `prefix_of` ladder ->
             Forall (fun r : Z * list CreateOrderParams => r.1 ∈ ladder)
                    (by_rung t).2) as Hin.
  { intros l Hl [rest Hp]. apply Forall_forall. intros r Hr.
    rewrite Hp. apply elem_of_app. left. rewrite <- Hl.
    apply list_elem_of_fmap. by exists r. }
  pose proof (by_rung_orders t) as Hord. rewrite Hpend in Hord.
  simpl in Hord.
  destruct Hcases
    as [(k & pct & Hk & Hfst & Ht & (p & Hlast) & Hex & Hend & Hm)
       |(Hfst & Ht & Hex & Hend & Hm)].
  - rewrite fmap_take, Hladder in Ht. rewrite fmap_take, Hladder in Hfst.
    assert (ladder !! k = Some (pct * 100)%Z) as Hk'.
    { rewrite <- Hladder, list_lookup_fmap, Hk. reflexivity. }
    assert (omap (fun e => match e with Tried b => Some b | _ => None end)
                 (omap ladder_event t) = take (S k) ladder) as Ha.
    { by rewrite Ht, attempted_failed_rungs, (take_S_r _ _ _ Hk'). }
    rewrite Ha.
    split; [apply prefix_take|].
    split; [exact Hfst|].
    split; [exact Hord|].
    split; [apply Hfloor, (Hin _ Hfst), prefix_take|].
    left. exists k, (pct * 100)%Z.
    split; [done|]. split; [done|]. split; [done|].
    subst m'. rewrite position_at_set_status, Hpos.
    split; [done|]. split; [done|].
    split.
    { exists p. split; [done|]. rewrite Hord.
      destruct (by_rung t).2 as [|r0 rs] using rev_ind; [done|].
      rewrite last_snoc in Hlast. injection Hlast as ->.
      rewrite fmap_app, concat_app. simpl. by rewrite last_snoc. }
    split; [exact Hex|].
    by exists pct.
  - rewrite Hladder in Ht. rewrite Hladder in Hfst.
    assert (omap (fun e => match e with Tried b => Some b | _ => None end)
                 (omap ladder_event t) = ladder) as Ha.
    { rewrite Ht, attempted_failed_rungs. apply app_nil_r. }
    rewrite Ha.
    split; [done|].
    split; [exact Hfst|].
    split; [exact Hord|].
    split; [by apply Hfloor, (Hin _ Hfst)|].
    right. split; [done|]. split; [done|].
    subst m'. rewrite position_at_set_status, Hpos.
    repeat split; done.
Qed.

End ExitLadderOrders.

(** The order interface refuses the exit at 300 and at 500 basis points
    and accepts it at 700: three attempts, three orders with these
    tolerances, and the position is closed.  It refuses six times: six
    attempts, and the position stays open. *)
Lemma exit_ladder_stops_at_first_success_witness :
  let closing :=
    run desk_respond
        (BotService.executeExitTrade long_ref long_position
                                     TakeProfitReached)
        holding
        (desk [Fulfilled refused; Fulfilled refused; Fulfilled accepted]) in
  let giving_up :=
    run desk_respond
        (BotService.executeExitTrade long_ref long_position
                                     TakeProfitReached)
        holding (desk (replicate 6 (Fulfilled refused))) in
  (tolerances_attempted closing = [300; 500; 700]%Z
   /\ tolerances_attempted giving_up = ladder)
  /\ outcome giving_up = Fulfilled tt
  /\ (slippageBps <$> orders_of closing)
     = [Some (inject_Z 300); Some (inject_Z 500); Some (inject_Z 700)]
  /\ (Position.status <$> BotService.position_at (memory closing) long_ref)
     = Some CLOSED
  /\ (Position.status <$> BotService.position_at (memory giving_up) long_ref)
     = Some OPEN.
Proof.
  intros closing giving_up.
  split; [split; vm_compute; reflexivity|].
  split.
  { apply (exit_ladder_stops_at_first_success desk_respond long_ref
             long_position TakeProfitReached holding
             (desk (replicate 6 (Fulfilled refused)))).
    vm_compute. reflexivity. }
  repeat split; vm_compute; reflexivity.
Defined.

(** C9, on the code.  The order interface refuses the exit at 300 basis
    points and accepts it at 500: the second attempt follows the first
    with no delay in between, where the three seconds were due. *)
Theorem exit_ladder_retries_without_delay :
  let f := run desk_respond
               (BotService.executeExitTrade long_ref long_position
                                            TakeProfitReached)
               holding (desk [Fulfilled refused; Fulfilled accepted]) in
  ladder_of f = [Tried 300; FailedAttempt; Tried 500; Closed]
  /\ delays_of f = []
  /\ Forall (fun c => c <> Sleep 3000) (calls f).
Proof.
  split; [vm_compute; reflexivity|].
  split; [apply exit_ladder_never_waits|].
  vm_compute. repeat constructor; discriminate.
Qed.

(** ** Programs that keep an invariant of the memory *)

Section PreservationLaws.
Context {World : Type}.
Variable respond : forall c : Call, World -> Answer c * World.
Variable Inv : Process -> Prop.

Lemma memory_after {A} (t : list Event) (f : Final World A) :
  memory (after t f) = memory f.
Proof. by destruct f. Qed.

Lemma preserves_ret {A} (a : A) : preserves respond Inv (Ret a).
Proof. by intros m w H. Qed.

Lemma preserves_throw {A} (e : Error) : preserves respond Inv (@Throw A e).
Proof. by intros m w H. Qed.

Lemma preserves_mem {A} (upd : Process -> Process) (k : Process -> Prog A) :
  (forall m, Inv m -> Inv (upd m)) ->
  (forall m, Inv m -> preserves respond Inv (k m)) ->
  preserves respond Inv (Mem upd k).
Proof. intros Hu Hk m w H. simpl. apply Hk; auto. Qed.

Lemma preserves_do {A} (c : Call) (k : Answer c -> Prog A) :
  (forall r, preserves respond Inv (k r)) ->
  preserves respond Inv (Do c k).
Proof.
  intros Hk m w H. simpl. destruct (respond c w) as [r w'].
  rewrite memory_after. by apply Hk.
Qed.

Lemma memory_and_then {A B} (f : Final World A)
    (q : A -> Process -> World -> Final World B) h :
  Inv (memory f) ->
  (forall a m w, Inv m -> Inv (memory (q a m w))) ->
  (forall e m w, Inv m -> Inv (memory (h e m w))) ->
  Inv (memory (and_then f q h)).
Proof.
  intros Hf Hq Hh. destruct f as [[a|e] m w t]; simpl;
    rewrite memory_after; auto.
Qed.

Lemma preserves_bind {A B} (p : Prog A) (f : A -> Prog B) :
  preserves respond Inv p ->
  (forall a, preserves respond Inv (f a)) ->
  preserves respond Inv (bind p f).
Proof.
  intros Hp Hf m w H. rewrite run_bind.
  apply memory_and_then; [by apply Hp| |by intros].
  intros a m' w' H'. by apply Hf.
Qed.

Lemma preserves_try_catch {A} (p : Prog A) (h : Error -> Prog A) :
  preserves respond Inv p ->
  (forall e, preserves respond Inv (h e)) ->
  preserves respond Inv (try_catch p h).
Proof.
  intros Hp Hh m w H. rewrite run_try_catch.
  apply memory_and_then; [by apply Hp|by intros|].
  intros e m' w' H'. by apply Hh.
Qed.

Lemma preserves_finally {A} (p : Prog A) (f : Prog unit) :
  preserves respond Inv p ->
  preserves respond Inv f ->
  preserves respond Inv (finally p f).
Proof.
  intros Hp Hf m w H. rewrite run_finally.
  apply memory_and_then; [by apply Hp| |].
  - intros a m' w' H'. apply preserves_bind; [done| |done].
    intros _. apply preserves_ret.
  - intros e m' w' H'. apply preserves_bind; [done| |done].
    intros _. apply preserves_throw.
Qed.

End PreservationLaws.

(** ** The accounts of a session *)

Create HintDb accounts discriminated.

Lemma balanced_set_status st s :
  balanced s -> balanced (BotSession.set_status st s).
Proof. by intros H. Qed.

Lemma balanced_incr_tradesExecuted s :
  balanced s -> balanced (BotSession.incr_tradesExecuted s).
Proof. by intros H. Qed.

Lemma solSpent_alter_status st (i : nat) (ps : list Position.t) :
  Position.solSpent <$> alter (Position.set_status st) i ps
  = Position.solSpent <$> ps.
Proof.
  revert i. induction ps as [|p ps IH]; intros [|i]; simpl; try done.
  f_equal. apply IH.
Qed.

Lemma balanced_set_position_status st (i : nat) s :
  balanced s ->
  balanced (BotService.set_positions
              (alter (Position.set_status st) i (BotSession.positions s)) s).
Proof.
  unfold balanced, committed. simpl. by rewrite solSpent_alter_status.
Qed.

Lemma committed_app (l : list Q) (x : Q) :
  (foldr Qplus 0 (l ++ [x]) == foldr Qplus 0 l + x)%Q.
Proof.
  induction l as [|y l IH]; simpl; [lra|]. rewrite IH. lra.
Qed.

(** An entry of nine tenths of what remains keeps the accounts in
    order. *)
Lemma balanced_push_position p s :
  Position.solSpent p = (BotSession.remainingSol s * (9 # 10))%Q ->
  balanced s -> balanced (BotSession.push_position p s).
Proof.
  intros Hp [Hpos Heq]. unfold balanced, committed in *. simpl.
  rewrite fmap_app. simpl. rewrite committed_app, Hp.
  split; lra.
Qed.

Lemma all_balanced_sessions m m' :
  activeSessions m' = activeSessions m -> all_balanced m -> all_balanced m'.
Proof. unfold all_balanced. by intros ->. Qed.

Lemma all_balanced_update_session sid f m :
  (forall s, activeSessions m !! sid = Some s -> balanced s -> balanced (f s)) ->
  all_balanced m -> all_balanced (update_session sid f m).
Proof.
  intros Hf H sid' s. unfold update_session. simpl.
  destruct (decide (sid = sid')) as [<-|Hne].
  - rewrite lookup_alter_eq.
    destruct (activeSessions m !! sid) as [s0|] eqn:Hs; [|done].
    simpl. intros [= <-]. apply Hf; [done|]. by apply (H sid).
  - rewrite lookup_alter_ne by done. apply H.
Qed.

Lemma all_balanced_insert sid s m :
  balanced s -> all_balanced m ->
  all_balanced (set_activeSessions (<[sid := s]> (activeSessions m)) m).
Proof. intros Hs H. unfold all_balanced. simpl. by apply map_Forall_insert_2. Qed.

Lemma all_balanced_initial : all_balanced initial.
Proof. apply map_Forall_empty. Qed.

#[export] Hint Resolve balanced_set_status balanced_incr_tradesExecuted
  balanced_set_position_status all_balanced_update_session : accounts.

(** The programs whose writes keep every account in order, whatever the
    memory holds: a proof follows the shape of the program. *)
Ltac keep_accounts :=
  repeat match goal with
    | |- preserves _ _ (Ret _) => apply preserves_ret
    | |- preserves _ _ (Throw _) => apply preserves_throw
    | |- preserves _ _ (bind _ _) => apply preserves_bind
    | |- preserves _ _ (try_catch _ _) => apply preserves_try_catch
    | |- preserves _ _ (finally _ _) => apply preserves_finally
    | |- preserves _ _ (Mem _ _) =>
      apply preserves_mem;
      [ intros ? ?;
        first [ assumption
              | apply all_balanced_update_session; [intros ? _|assumption];
                auto with accounts
              | eapply all_balanced_sessions; [|eassumption]; reflexivity ]
      | intros ? ? ]
    | |- preserves _ _ (Do _ _) => apply preserves_do; intros ?
    | |- preserves _ _ (match ?x with _ => _ end) => destruct x
    | |- preserves _ _ (let _ := _ in _) => cbv zeta
    | |- forall _, _ => intros ?
    end.

Section Accounts.
Context {World : Type}.
Variable respond : forall c : Call, World -> Answer c * World.

Local Arguments Qfloor : simpl never.

Lemma keeps_executeTradeOnce :
  preserves respond all_balanced TradingService.executeTradeOnce.
Proof.
  unfold TradingService.executeTradeOnce, read, write. keep_accounts.
Qed.

Lemma keeps_createExitOrder request :
  preserves respond all_balanced (TradingService.createExitOrder request).
Proof.
  unfold TradingService.createExitOrder, TradingService.exit_order_body,
    call, settle.
  keep_accounts.
Qed.

Lemma keeps_stopBot sessionId :
  preserves respond all_balanced (BotService.stopBot sessionId).
Proof.
  unfold BotService.stopBot, DepositService.returnUnusedFunds, read, write.
  keep_accounts.
Qed.

Lemma keeps_processDeposit wallet signed amountSol :
  preserves respond all_balanced
            (DepositService.processDeposit wallet signed amountSol).
Proof.
  unfold DepositService.processDeposit, read, write, call, settle.
  keep_accounts.
Qed.

Lemma keeps_reserveFundsForTrading wallet amountSol :
  preserves respond all_balanced
            (DepositService.reserveFundsForTrading wallet amountSol).
Proof.
  unfold DepositService.reserveFundsForTrading, read, write, call.
  keep_accounts.
Qed.

Lemma keeps_confirmDepositAndStartTrading sessionId signed wallet amountSol :
  preserves respond all_balanced
            (BotService.confirmDepositAndStartTrading sessionId signed wallet
                                                      amountSol).
Proof.
  unfold BotService.confirmDepositAndStartTrading, read, write, call.
  keep_accounts;
    first [apply keeps_processDeposit|apply keeps_reserveFundsForTrading].
Qed.

(** [createDepositTransaction] returns a result whatever happens, changes
    nothing in the memory, and succeeds for a positive amount only. *)
Lemma createDepositTransaction_run wallet (amountSol : Q) m w :
  exists result w' t,
    run respond (DepositService.createDepositTransaction wallet amountSol) m w
    = mkFinal (Fulfilled result) m w' t
    /\ (DepositService.t_success result = true -> (0 < amountSol)%Q).
Proof.
  remember (run respond
                (DepositService.createDepositTransaction wallet amountSol)
                m w) as g eqn:Hf.
  unfold DepositService.createDepositTransaction in Hf. simpl in Hf.
  destruct (respond GetPublicKey w) as [key w1]. simpl in Hf.
  destruct (Js.present key) as [botWalletAddress|]; simpl in Hf;
    [|subst g; do 3 eexists; split; [reflexivity|]; simpl; discriminate].
  unfold Js.le in Hf.
  destruct (Qle_bool amountSol 0) eqn:Hle; simpl in Hf;
    [subst g; do 3 eexists; split; [reflexivity|]; simpl; discriminate|].
  apply Qle_bool_false in Hle.
  repeat run_call_in respond Hf.
  all: subst g; do 3 eexists; split; [reflexivity|]; intros _; exact Hle.
Qed.

Lemma keeps_launchBot wallet (allocatedSol : Q) :
  preserves respond all_balanced (BotService.launchBot wallet allocatedSol).
Proof.
  intros m w H. unfold BotService.launchBot.
  rewrite run_try_catch, run_bind.
  destruct (createDepositTransaction_run wallet allocatedSol m w)
    as (result & w1 & t & Hrun & Hpos).
  rewrite Hrun. simpl.
  destruct (DepositService.t_success result); simpl; [|done].
  destruct (Js.present (DepositService.t_transaction result)); simpl;
    [|done].
  destruct (respond (Fresh "bot") w1) as [sessionId w2]. simpl.
  destruct (respond Now w2) as [startedAt w3]. simpl.
  apply all_balanced_insert; [|done].
  specialize (Hpos eq_refl).
  unfold balanced, committed. simpl. split; lra.
Qed.

(** A turn of [analyzeAndTradeForSession] keeps the accounts in order:
    the position that it appends commits nine tenths of what remained. *)
Lemma keeps_analyzeAndTradeForSession sessionId :
  preserves respond all_balanced
            (BotService.analyzeAndTradeForSession sessionId).
Proof.
  intros m w H.
  destruct (analyzeAndTradeForSession_run respond sessionId m w)
    as [[-> _]
       |(er & session & result & position & _ & Hs & _ & _ & _ & _ & Hp & _
         & ->)]; [done|].
  apply all_balanced_update_session; [|done].
  intros s Hs' Hb. rewrite Hs in Hs'. injection Hs' as <-.
  by apply balanced_push_position.
Qed.

Lemma keeps_startTradingForSession sessionId :
  preserves respond all_balanced
            (BotService.startTradingForSession sessionId).
Proof.
  unfold BotService.startTradingForSession,
    DepositService.returnUnusedFunds, read, write, call.
  keep_accounts; apply keeps_analyzeAndTradeForSession.
Qed.

Lemma keeps_executeExitTrade ref position reason :
  preserves respond all_balanced
            (BotService.executeExitTrade ref position reason).
Proof.
  intros m w H. unfold BotService.executeExitTrade.
  destruct (exit_attempts_run respond ref position reason
              BotService.slippagePercentages 0 m w)
    as (m' & w' & t & Hrun & _ & Hcases).
  rewrite Hrun. simpl.
  destruct Hcases as [(k & pct & _ & _ & ->)|[_ ->]];
    (apply all_balanced_update_session; [|done]);
    intros s _ Hb; by apply balanced_set_position_status.
Qed.

Lemma keeps_perform (op : Operation) :
  preserves respond all_balanced (perform op).
Proof.
  destruct op; unfold perform.
  - apply preserves_bind; [apply keeps_launchBot|intros; apply preserves_ret].
  - apply preserves_bind;
      [apply keeps_confirmDepositAndStartTrading|intros; apply preserves_ret].
  - apply preserves_bind; [apply keeps_stopBot|intros; apply preserves_ret].
  - apply keeps_startTradingForSession.
  - apply keeps_executeExitTrade.
  - apply preserves_bind;
      [apply keeps_createExitOrder|intros; apply preserves_ret].
  - apply preserves_bind;
      [apply keeps_executeTradeOnce|intros; apply preserves_ret].
Qed.

(** C2.  After any operations of the process, the accounts of every
    session are in order: what remains is not negative, and it is what
    was allocated less the SOL committed by the positions appended to
    the session. *)
Theorem session_accounts_balanced
    (ops : list Operation) (w : World) (sessionId : string)
    (session : BotSession.t) :
  activeSessions (life respond ops initial w).1 !! sessionId = Some session ->
  (0 <= BotSession.remainingSol session)%Q
  /\ (BotSession.remainingSol session
      == BotSession.allocatedSol session
         - foldr Qplus 0 (Position.solSpent
                            <$> BotSession.positions session))%Q.
Proof.
  assert (forall ops m w0, all_balanced m ->
                           all_balanced (life respond ops m w0).1) as Hlife.
  { clear. induction ops as [|op ops IH]; intros m w0 H; [done|].
    simpl. apply IH. by apply keeps_perform. }
  intros Hs.
  exact (Hlife ops initial w all_balanced_initial sessionId session Hs).
Qed.

End Accounts.

(** One SOL allocated and two turns of the cadence: two positions, and a
    hundredth of a SOL remains. *)
Lemma session_accounts_balanced_witness :
  exists session,
    activeSessions (desk_life (session_life 1 2)).1 !! "bot" = Some session
    /\ length (BotSession.positions session) = 2%nat
    /\ (BotSession.remainingSol session == 1 # 100)%Q
    /\ (0 <= BotSession.remainingSol session)%Q
    /\ (BotSession.remainingSol session
        == BotSession.allocatedSol session
           - foldr Qplus 0 (Position.solSpent
                              <$> BotSession.positions session))%Q.
Proof.
  eexists. split; [vm_compute; reflexivity|].
  split; [reflexivity|]. split; [vm_compute; reflexivity|].
  apply (session_accounts_balanced desk_respond (session_life 1 2)
           (desk (replicate 5 (Fulfilled accepted))) "bot").
  vm_compute. reflexivity.
Defined.

(** ** Stopping a session, and the end of the cadence *)

Section Stopping.
Context {World : Type}.
Variable respond : forall c : Call, World -> Answer c * World.

(** [stopBot] on a session that exists: it is marked [STOPPED], whatever
    its status was, and what remains of it, when positive, is added to
    the available balance of its wallet. *)
Lemma stopBot_run sessionId session m w :
  activeSessions m !! sessionId = Some session ->
  run respond (BotService.stopBot sessionId) m w
  = mkFinal
      (Fulfilled
         (BotService.mkStopResult true
            (BotStopped (BotSession.remainingSol session)) (Some STOPPED)
            (Some (BotSession.tradesExecuted session))
            (Some (BotSession.remainingSol session))
            (Some (Js.gt (BotSession.remainingSol session) 0))))
      (if Js.gt (BotSession.remainingSol session) 0 then
         update_deposit (BotSession.walletPublicKey session)
           (DepositService.add_available (BotSession.remainingSol session))
           (update_session sessionId (BotSession.set_status STOPPED) m)
       else update_session sessionId (BotSession.set_status STOPPED) m)
      w [].
Proof.
  intros Hs. unfold BotService.stopBot. simpl. rewrite Hs. simpl.
  by destruct (Js.gt (BotSession.remainingSol session) 0).
Qed.

(** A second [stopBot] finds the same remaining balance and returns it
    again. *)
Lemma stopBot_again sessionId session m w :
  activeSessions m !! sessionId = Some session ->
  (0 < BotSession.remainingSol session)%Q ->
  let f1 := run respond (BotService.stopBot sessionId) m w in
  let f2 := run respond (BotService.stopBot sessionId) (memory f1) (world f1) in
  availableSol_of (memory f2) (BotSession.walletPublicKey session)
  = match userDeposits m !! BotSession.walletPublicKey session with
    | Some deposit =>
      (UserDeposit.availableSol deposit + BotSession.remainingSol session
       + BotSession.remainingSol session)%Q
    | None => 0%Q
    end.
Proof.
  intros Hs Hpos f1 f2. subst f1 f2.
  assert (Js.gt (BotSession.remainingSol session) 0 = true) as Hgt.
  { unfold Js.gt. apply negb_true_iff. by apply Qle_bool_false. }
  rewrite (stopBot_run _ _ _ _ Hs), Hgt. cbn [memory world].
  erewrite stopBot_run; cycle 1.
  { unfold update_deposit, update_session. simpl.
    rewrite lookup_alter_eq, Hs. reflexivity. }
  simpl. rewrite Hgt. unfold availableSol_of, update_deposit. simpl.
  rewrite !lookup_alter_eq.
  by destruct (userDeposits m !! BotSession.walletPublicKey session).
Qed.

(** The turn of the cadence that finds less than the minimum: the
    session is marked [COMPLETED] and nothing else happens; the ledger
    is not touched. *)
Lemma startTradingForSession_below_minimum sessionId session m w :
  activeSessions m !! sessionId = Some session ->
  BotSession.status session = RUNNING ->
  (BotSession.tradesExecuted session < BotSession.maxTrades session)%nat ->
  (BotSession.remainingSol session < 1 # 100)%Q ->
  run respond (BotService.startTradingForSession sessionId) m w
  = mkFinal (Fulfilled tt)
            (update_session sessionId (BotSession.set_status COMPLETED) m)
            w [].
Proof.
  intros Hs Hst Hn Hlt. unfold BotService.startTradingForSession. simpl.
  rewrite Hs, Hst. simpl.
  apply Nat.leb_gt in Hn. rewrite Hn.
  unfold Js.lt, BotService.minimumTradeSol.
  apply Qle_bool_false in Hlt. by rewrite Hlt.
Qed.

(** The turn of the cadence that finds the quota of trades used: the
    session is marked [COMPLETED] and what remains, when positive, is
    returned to the ledger. *)
Lemma startTradingForSession_quota sessionId session m w :
  activeSessions m !! sessionId = Some session ->
  BotSession.status session = RUNNING ->
  (BotSession.maxTrades session <= BotSession.tradesExecuted session)%nat ->
  (0 < BotSession.remainingSol session)%Q ->
  run respond (BotService.startTradingForSession sessionId) m w
  = mkFinal (Fulfilled tt)
            (update_deposit (BotSession.walletPublicKey session)
               (DepositService.add_available
                  (BotSession.remainingSol session))
               (update_session sessionId (BotSession.set_status COMPLETED)
                               m))
            w [].
Proof.
  intros Hs Hst Hn Hpos. unfold BotService.startTradingForSession. simpl.
  rewrite Hs, Hst. simpl.
  apply Nat.leb_le in Hn. rewrite Hn.
  unfold Js.gt. apply Qle_bool_false in Hpos. by rewrite Hpos.
Qed.

End Stopping.

(** C4, on the code.  Four SOL allocated and one turn of the cadence
    leave 0.4 SOL in a running session and nothing available in the
    ledger.  The first [stopBot] succeeds and makes 0.4 SOL available;
    the second succeeds too and makes 0.8 SOL available. *)
Theorem stopBot_twice_returns_twice :
  let m := (desk_life (session_life 4 1)).1 in
  let w := (desk_life (session_life 4 1)).2 in
  let f1 := run desk_respond (BotService.stopBot "bot") m w in
  let f2 := run desk_respond (BotService.stopBot "bot")
                (memory f1) (world f1) in
  status_of m "bot" = Some RUNNING
  /\ (remainingSol_of m "bot" == 4 # 10)%Q
  /\ (availableSol_of m "UserWallet" == 0)%Q
  /\ (BotService.s_success <$> outcome_value f1) = Some true
  /\ (availableSol_of (memory f1) "UserWallet" == 4 # 10)%Q
  /\ (BotService.s_success <$> outcome_value f2) = Some true
  /\ (availableSol_of (memory f2) "UserWallet" == 8 # 10)%Q.
Proof. vm_compute. repeat split; reflexivity. Qed.

(** C5, on the code.  One SOL allocated and three turns of the cadence
    leave 0.001 SOL in a running session that has used three of its five
    trades, and nothing available in the ledger.  The next turn finds
    less than the minimum of 0.01 SOL: it marks the session [COMPLETED],
    calls nobody, and the ledger still shows nothing available.  The
    turn that finds the quota used, for a session with 0.3 SOL left,
    does return them. *)
Theorem cadence_below_minimum_keeps_funds :
  let m := (desk_life (session_life 1 3)).1 in
  let w := (desk_life (session_life 1 3)).2 in
  let f := run desk_respond (BotService.startTradingForSession "bot") m w in
  let quota := trading (bot1 1 (3 # 10) 5 []) 1 0 in
  let g := run desk_respond (BotService.startTradingForSession "bot-1")
               quota w in
  (status_of m "bot" = Some RUNNING
   /\ (remainingSol_of m "bot" == 1 # 1000)%Q
   /\ (availableSol_of m "UserWallet" == 0)%Q)
  /\ (status_of (memory f) "bot" = Some COMPLETED
      /\ (remainingSol_of (memory f) "bot" == 1 # 1000)%Q
      /\ (availableSol_of (memory f) "UserWallet" == 0)%Q
      /\ calls f = [])
  /\ (status_of (memory g) "bot-1" = Some COMPLETED
      /\ (availableSol_of (memory g) "UserWallet" == 3 # 10)%Q).
Proof. vm_compute. repeat split; reflexivity. Qed.

(** ** The guard of the trade executions *)

Lemma mem_free_bind {A B} (p : Prog A) (f : A -> Prog B) :
  mem_free p -> (forall a, mem_free (f a)) -> mem_free (bind p f).
Proof. induction 1; simpl; auto using @mem_free. Qed.

Lemma mem_free_try_catch {A} (p : Prog A) (h : Error -> Prog A) :
  mem_free p -> (forall e, mem_free (h e)) -> mem_free (try_catch p h).
Proof. induction 1; simpl; auto using @mem_free. Qed.

Ltac no_mem :=
  repeat match goal with
    | |- mem_free (Ret _) => constructor
    | |- mem_free (Throw _) => constructor
    | |- mem_free (Do _ _) => constructor
    | |- mem_free (bind _ _) => apply mem_free_bind
    | |- mem_free (try_catch _ _) => apply mem_free_try_catch
    | |- mem_free (match ?x with _ => _ end) => destruct x
    | |- mem_free (let _ := _ in _) => cbv zeta
    | |- forall _, _ => intros ?
    end.

Lemma mem_free_entry request :
  mem_free (try_catch (TradingService.entry_body request)
                      (fun e => Ret (TradingService.entry_failed e))).
Proof. unfold TradingService.entry_body, call, settle. no_mem. Qed.

Lemma mem_free_exit request :
  mem_free (TradingService.executeExitTrade request).
Proof.
  unfold TradingService.executeExitTrade, TradingService.exit_body, call,
    settle.
  no_mem.
Qed.

Section SingleFlight.
Context {World : Type}.
Variable respond : forall c : Call, World -> Answer c * World.

(** A program that does not touch the memory runs on to an awaited call
    or to its end, and the memory is as it was. *)
Lemma advance_mem_free {A} (p : Prog A) :
  mem_free p ->
  forall m w p' m' w' evs,
    advance respond p m w = (p', m', w', evs) ->
    m' = m /\ mem_free p'.
Proof.
  induction 1 as [a|e|c k Hk IH]; intros m w p' m' w' evs Hadv;
    simpl in Hadv.
  - injection Hadv as <- <- _ _. split; [done|constructor].
  - injection Hadv as <- <- _ _. split; [done|constructor].
  - destruct (awaited c).
    + injection Hadv as <- <- _ _. split; [done|by constructor].
    + destruct (respond c w) as [r w1]. simpl in Hadv.
      destruct (advance respond (k r) m w1) as [[[p1 m1] w2] evs1] eqn:E.
      injection Hadv as <- <- _ _. by eapply IH.
Qed.

(** An entry past the guard runs on to an awaited call, still guarded
    and with the memory as it was, or to its end, and then the guard is
    free. *)
Lemma advance_guarded {A} (q : Prog A) :
  mem_free q ->
  forall m w p' m' w' evs,
    advance respond (finally q (write (set_isExecutingTrade false))) m w
    = (p', m', w', evs) ->
    in_flight p' = true /\ guarded p' /\ m' = m
    \/ finished p' /\ m' = set_isExecutingTrade false m.
Proof.
  induction 1 as [a|e|c k Hk IH]; intros m w p' m' w' evs Hadv;
    simpl in Hadv.
  - injection Hadv as <- <- _ _. by right.
  - injection Hadv as <- <- _ _. by right.
  - destruct (awaited c) eqn:Hc.
    + injection Hadv as <- <- _ _. left. simpl. split; [done|]. split; [|done].
      exists (Do c k). split; [by constructor|done].
    + destruct (respond c w) as [r w1]. simpl in Hadv.
      destruct (advance respond
                  (finally (k r) (write (set_isExecutingTrade false))) m w1)
        as [[[p1 m1] w2] evs1] eqn:E.
      injection Hadv as <- <- _ _. by eapply IH.
Qed.

Lemma resume_guarded {A} (p : Prog A) m w p' m' w' evs :
  in_flight p = true -> guarded p ->
  resume respond p m w = (p', m', w', evs) ->
  in_flight p' = true /\ guarded p' /\ m' = m
  \/ finished p' /\ m' = set_isExecutingTrade false m.
Proof.
  intros Hin (q & Hq & ->) Hres.
  destruct Hq as [a|e|c k Hk]; simpl in Hin; try discriminate.
  simpl in Hres. destruct (respond c w) as [r w1]. simpl in Hres.
  destruct (advance respond
              (finally (k r) (write (set_isExecutingTrade false))) m w1)
    as [[[p1 m1] w2] evs1] eqn:E.
  injection Hres as <- <- _ _. by eapply advance_guarded.
Qed.

Lemma resume_mem_free {A} (p : Prog A) m w p' m' w' evs :
  mem_free p ->
  resume respond p m w = (p', m', w', evs) ->
  m' = m /\ mem_free p'.
Proof.
  intros Hp Hres. destruct Hp as [a|e|c k Hk]; simpl in Hres.
  - injection Hres as <- <- _ _. split; [done|constructor].
  - injection Hres as <- <- _ _. split; [done|constructor].
  - destruct (respond c w) as [r w1]. simpl in Hres.
    destruct (advance respond (k r) m w1) as [[[p1 m1] w2] evs1] eqn:E.
    injection Hres as <- <- _ _. by eapply advance_mem_free.
Qed.

Lemma resume_finished {A} (p : Prog A) m w :
  finished p -> resume respond p m w = (p, m, w, []).
Proof. by destruct p. Qed.

Lemma finished_not_in_flight {A} (p : Prog A) :
  finished p -> in_flight p = false.
Proof. by destruct p. Qed.

Lemma count_jobs_app f (l1 l2 : list Job) :
  count_jobs f (l1 ++ l2) = (count_jobs f l1 + count_jobs f l2)%nat.
Proof. induction l1 as [|j l1 IH]; simpl; [done|]. rewrite IH. lia. Qed.

Lemma count_jobs_insert f (jobs : list Job) (i : nat) (j j' : Job) :
  jobs !! i = Some j ->
  (count_jobs f (<[i := j']> jobs) + (if f j then 1 else 0)
   = count_jobs f jobs + (if f j' then 1 else 0))%nat.
Proof.
  revert i. induction jobs as [|x jobs IH]; intros [|i] Hi; simpl in *;
    try discriminate.
  - injection Hi as ->. lia.
  - specialize (IH i Hi). lia.
Qed.

(** The call of an entry, up to its first awaited call: turned away
    while the guard is held, past the guard otherwise. *)
Lemma advance_executeTradeForSession request m w :
  advance respond (TradingService.executeTradeForSession request) m w
  = if isExecutingTrade m then (Ret TradingService.skipped, m, w, [])
    else advance respond
           (finally
              (try_catch (TradingService.entry_body request)
                         (fun e => Ret (TradingService.entry_failed e)))
              (write (set_isExecutingTrade false)))
           (set_isExecutingTrade true m) w.
Proof.
  unfold TradingService.executeTradeForSession, read, write.
  cbn [bind advance]. by destruct (isExecutingTrade m).
Qed.

Local Opaque TradingService.executeTradeForSession
  TradingService.executeExitTrade TradingService.entry_body.

(** Each step of the event loop keeps the jobs as the guard leaves
    them. *)
Lemma step_ok (l : Loop World) (s : Step) :
  loop_ok l -> loop_ok (step respond l s).
Proof.
  intros [Hjobs Hcount]. unfold loop_ok, entries_in_flight in *.
  destruct l as [m w jobs tr]. simpl in *.
  destruct s as [request|request|i]; cbn [step lp_memory lp_world lp_jobs].
  - (* an entry is called *)
    rewrite advance_executeTradeForSession.
    destruct (isExecutingTrade m) eqn:Hflag; simpl.
    + split; [|by rewrite count_jobs_app, Hcount, Hflag].
      apply Forall_app. split; [done|]. apply Forall_singleton. by right.
    + destruct (advance respond _ (set_isExecutingTrade true m) w)
        as [[[p m1] w1] evs] eqn:E. simpl.
      apply advance_guarded in E; [|apply mem_free_entry].
      rewrite count_jobs_app, Hcount. simpl.
      destruct E as [(Hin & Hg & ->)|[Hfin ->]]; simpl.
      * split; [|by rewrite Hin].
        apply Forall_app. split; [done|]. apply Forall_singleton. by left.
      * split; [|by rewrite (finished_not_in_flight _ Hfin)].
        apply Forall_app. split; [done|]. apply Forall_singleton. by right.
  - (* an exit is called *)
    destruct (advance respond (TradingService.executeExitTrade request) m w)
      as [[[p m1] w1] evs] eqn:E. simpl.
    apply advance_mem_free in E as [-> Hp]; [|apply mem_free_exit].
    split; [|rewrite count_jobs_app, Hcount; simpl; lia].
    apply Forall_app. split; [done|]. by apply Forall_singleton.
  - (* an awaited call settles *)
    destruct (jobs !! i) as [j|] eqn:Hi; [|done].
    pose proof (Forall_lookup_1 _ _ _ _ Hjobs Hi) as Hj.
    destruct j as [p|p]; simpl.
    + destruct (resume respond p m w) as [[[p' m1] w1] evs] eqn:E. simpl.
      pose proof (count_jobs_insert entry_in_flight jobs i (EntryJob p)
                    (EntryJob p') Hi) as Hc.
      simpl in Hc, Hj.
      destruct Hj as [[Hin Hg]|Hfin].
      * rewrite Hin in Hc.
        assert (isExecutingTrade m = true) as Hflag.
        { destruct (isExecutingTrade m); [done|].
          assert (1 <= count_jobs entry_in_flight jobs)%nat; [|lia].
          clear -Hi Hin. revert i Hi.
          induction jobs as [|x jobs IH]; intros [|i] Hi; simpl in *;
            try discriminate.
          - injection Hi as ->. simpl. rewrite Hin. lia.
          - specialize (IH i Hi). lia. }
        rewrite Hflag in Hcount.
        destruct (resume_guarded p m w p' m1 w1 evs Hin Hg E)
          as [(Hin' & Hg' & ->)|[Hfin' ->]].
        -- split; [|rewrite Hflag; rewrite Hin' in Hc; lia].
           apply Forall_insert; [done|]. by left.
        -- rewrite (finished_not_in_flight _ Hfin') in Hc.
           split; [|simpl; lia].
           apply Forall_insert; [done|]. by right.
      * rewrite (resume_finished _ _ _ Hfin) in E.
        injection E as <- <- <- <-.
        rewrite list_insert_id by done. by split.
    + destruct (resume respond p m w) as [[[p' m1] w1] evs] eqn:E. simpl.
      pose proof (count_jobs_insert entry_in_flight jobs i (ExitJob p)
                    (ExitJob p') Hi) as Hc.
      simpl in Hc, Hj.
      apply resume_mem_free in E as [-> Hp']; [|done].
      split; [|lia].
      by apply Forall_insert.
Qed.

(** X1.  Under every schedule of entries, exits and settlements, from
    the start of the process, one entry at most is in flight, and the
    guard is held exactly when one is. *)
Theorem entry_single_flight (schedule : list Step) (w : World) :
  let l := steps respond (mkLoop initial w [] []) schedule in
  (entries_in_flight l <= 1)%nat
  /\ (entries_in_flight l = 1%nat <-> isExecutingTrade (lp_memory l) = true).
Proof.
  assert (forall ss (l : Loop World),
             loop_ok l -> loop_ok (steps respond l ss)) as Hsteps.
  { induction ss as [|s ss IH]; intros l Hl; [done|].
    simpl. apply IH. by apply step_ok. }
  intros l.
  destruct (Hsteps schedule (mkLoop initial w [] [])) as [_ Hcount].
  { split; [constructor|reflexivity]. }
  fold l in Hcount. rewrite Hcount.
  destruct (isExecutingTrade (lp_memory l)); split; try lia; split; try done;
    lia.
Qed.

End SingleFlight.

(** C1, on the code.  An entry is called and waits for the prices: it
    holds the guard.  An exit is called: it does not look at the guard
    and waits for the prices too, so that two trade executions are in
    flight.  The exit goes on to its end, creating, signing and
    submitting its order, while the entry still waits and still holds
    the guard. *)
Theorem exit_runs_while_entry_in_flight :
  let started :=
    steps desk_respond idle_loop
          [CallEntry entry_request; CallExit (exit_request (19 # 10) 300)] in
  let exited := steps desk_respond started (replicate 4 (Settle 1)) in
  (isExecutingTrade (lp_memory started) = true
   /\ job_in_flight <$> lp_jobs started = [true; true]
   /\ executions_in_flight started = 2%nat)
  /\ (isExecutingTrade (lp_memory exited) = true
      /\ job_in_flight <$> lp_jobs exited = [true; false]
      /\ (TradingService.ex_success <$> exit_result_of exited 1) = Some true
      /\ loop_calls exited
         = [FetchPricesBySymbols ["BONK"; "SOL"];
            GetPublicKey;
            FetchPricesBySymbols ["BONK"; "SOL"];
            CreateOrder (mkCreateOrderParams bonkMint solMint "BotWallet"
                           "BotWallet" 100000 4750000 (Some 300%Q));
            SignTransaction "tx";
            ExecuteSignedTransaction "signed-tx" "req-1";
            Fresh "swap"]).
Proof. vm_compute. repeat split; reflexivity. Qed.

(** For comparison, an entry that is called while an entry waits is
    turned away at once: it is not in flight and calls nobody. *)
Lemma entry_skipped_while_entry_in_flight :
  let started :=
    steps desk_respond idle_loop
          [CallEntry entry_request; CallEntry entry_request] in
  isExecutingTrade (lp_memory started) = true
  /\ job_in_flight <$> lp_jobs started = [true; false]
  /\ entry_result_of started 1 = Some TradingService.skipped
  /\ loop_calls started = [].
Proof. vm_compute. repeat split; reflexivity. Qed.

(** * Further properties of the services *)

(** ** TradingService: entries and exits *)

(** Rewriting with what is known of the signer's answer. *)
Ltac known_answers :=
  repeat match goal with
         | H : Js.present _ = _ |- _ => rewrite H
         end.

Section TradingEdges.
Context {World : Type}.
Variable respond : forall c : Call, World -> Answer c * World.

Local Arguments Qfloor : simpl never.

(** X2.  [executeTradeForSession] always returns a result, whatever the
    collaborators answer or throw, and the memory of the process at the
    end is the memory at the start: a guard that was free is free again,
    and the call itself records nothing.  When the guard is held the
    result is the skipped one and nobody has been called. *)
Theorem entry_returns_and_restores_memory
    (request : TradingService.EntryRequest) m w :
  let f := run respond (TradingService.executeTradeForSession request) m w in
  memory f = m
  /\ exists result,
      outcome f = Fulfilled result
      /\ (isExecutingTrade m = true ->
          result = TradingService.skipped /\ calls f = [])
      /\ (TradingService.en_executed result = true ->
          isExecutingTrade m = false
          /\ TradingService.en_success result = true
          /\ is_Some (TradingService.en_position result)).
Proof.
  intros f. subst f.
  destruct (isExecutingTrade m) eqn:Hflag.
  - rewrite executeTradeForSession_held by done. simpl.
    split; [done|]. eexists. split; [done|]. split; [done|].
    discriminate.
  - destruct (executeTradeForSession_run respond request m w Hflag)
      as [Hm (result & Hout & Hcases)].
    split; [done|]. exists result. split; [done|]. split; [discriminate|].
    intros Hexec.
    destruct Hcases as [(Hno & _)|(Hs & _ & _ & position & Hp & _)];
      [congruence|].
    rewrite Hp. eauto.
Qed.

(** X3.  A token in ASCII that the table of mints does not have, in
    upper case: the entry, the exit, the exit order and the entry order
    all fail with the missing-mapping message before they call anybody,
    and the memory is left as it was. *)
Theorem unsupported_token_fails_without_calls (token : string) m w :
  ascii_only token = true ->
  JupiterService.getDefaultTokenMap !! Js.toUpperCase token = None ->
  (forall request,
      TradingService.e_token request = token ->
      isExecutingTrade m = false ->
      run respond (TradingService.executeTradeForSession request) m w
      = mkFinal (Fulfilled (TradingService.entry_failed
                              (MissingMintMapping (Js.toUpperCase token))))
                m w [])
  /\ (forall request,
         TradingService.x_token request = token ->
         run respond (TradingService.executeExitTrade request) m w
         = mkFinal (Fulfilled (TradingService.exit_failed
                                 (MissingMintMapping (Js.toUpperCase token))))
                   m w [])
  /\ (forall request,
         TradingService.xo_token request = token ->
         run respond (TradingService.createExitOrder request) m w
         = mkFinal (Fulfilled
                      (TradingService.mkOrderResult false None None None
                         (Failed (MissingMintMapping
                                    (Js.toUpperCase token)))))
                   m w [])
  /\ (forall request,
         TradingService.eo_token request = token ->
         run respond (TradingService.createEntryOrder request) m w
         = mkFinal (Fulfilled
                      (TradingService.mkEntryOrderResult false None None None
                         (TradingService.OrderFailed
                            (MissingMintMapping (Js.toUpperCase token)))))
                   m w []).
Proof.
  intros _ Hnone. repeat split; intros request Htoken.
  - intros Hfree. destruct m as [flag n ss ds]. simpl in Hfree. subst flag.
    unfold TradingService.executeTradeForSession, TradingService.entry_body.
    rewrite Htoken, Hnone. reflexivity.
  - unfold TradingService.executeExitTrade, TradingService.exit_body.
    rewrite Htoken, Hnone. reflexivity.
  - unfold TradingService.createExitOrder, TradingService.exit_order_body.
    rewrite Htoken, Hnone. reflexivity.
  - unfold TradingService.createEntryOrder, TradingService.entry_order_body.
    rewrite Htoken, Hnone. reflexivity.
Qed.

(** X4.  An entry and an exit hand to the order interface, for
    execution, only a transaction that the wallet signer has returned
    with success, and they do so once at most.  The request id of an
    exit is the one of the order that it has just created, and never
    one that the process made up; an entry makes one up when the order
    has none. *)
Theorem trades_submit_what_the_wallet_signed
    (entry : TradingService.EntryRequest)
    (exit : TradingService.ExitRequest) m w :
  (let f := run respond (TradingService.executeTradeForSession entry) m w in
   (length (omap submitted_of (trace f)) <= 1)%nat
   /\ forall signed requestId,
       (signed, requestId) ∈ omap submitted_of (trace f) ->
       signed ∈ omap signed_of (trace f)
       /\ (requestId ∈ omap request_id_of (trace f)
           \/ omap request_id_of (trace f) = []
              /\ requestId ∈ omap fresh_of (trace f)))
  /\ (let f := run respond (TradingService.executeExitTrade exit) m w in
      (length (omap submitted_of (trace f)) <= 1)%nat
      /\ forall signed requestId,
          (signed, requestId) ∈ omap submitted_of (trace f) ->
          signed ∈ omap signed_of (trace f)
          /\ requestId ∈ omap request_id_of (trace f)).
Proof.
  split.
  - intros f. remember f as g eqn:Hf. subst f.
    unfold TradingService.executeTradeForSession, TradingService.entry_body
      in Hf.
    simpl in Hf.
    destruct (isExecutingTrade m); simpl in Hf;
      [subst g; simpl; split; [lia|];
       intros ? ? H; by apply elem_of_nil in H|].
    set (sym := Js.toUpperCase (TradingService.e_token entry)) in Hf.
    destruct (Js.present (JupiterService.getDefaultTokenMap !! sym))
      as [tokenMint|];
      [|subst g; simpl; split; [lia|];
        intros ? ? H; by apply elem_of_nil in H].
    destruct (Js.present (JupiterService.getDefaultTokenMap !! "SOL"))
      as [solMint|];
      [|subst g; simpl; split; [lia|];
        intros ? ? H; by apply elem_of_nil in H].
    simpl in Hf.
    repeat run_call_in respond Hf.
    all: subst g; simpl; known_answers; simpl.
    all: split; [lia|]; intros signed requestId Hin.
    all: try by apply elem_of_nil in Hin.
    all: apply list_elem_of_singleton in Hin; injection Hin as -> ->.
    all: split; [by apply list_elem_of_singleton|].
    all: first [ left; by apply list_elem_of_singleton
               | right; split; [reflexivity|];
                 repeat first [apply list_elem_of_here
                              |apply list_elem_of_further] ].
  - intros f. remember f as g eqn:Hf. subst f.
    unfold TradingService.executeExitTrade, TradingService.exit_body in Hf.
    simpl in Hf.
    set (sym := Js.toUpperCase (TradingService.x_token exit)) in Hf.
    destruct (Js.present (JupiterService.getDefaultTokenMap !! sym))
      as [tokenMint|];
      [|subst g; simpl; split; [lia|];
        intros ? ? H; by apply elem_of_nil in H].
    destruct (Js.present (JupiterService.getDefaultTokenMap !! "SOL"))
      as [solMint|];
      [|subst g; simpl; split; [lia|];
        intros ? ? H; by apply elem_of_nil in H].
    simpl in Hf.
    repeat run_call_in respond Hf.
    all: subst g; simpl; known_answers; simpl.
    all: split; [lia|]; intros signed requestId Hin.
    all: try by apply elem_of_nil in Hin.
    all: apply list_elem_of_singleton in Hin; injection Hin as -> ->.
    all: split; by apply list_elem_of_singleton.
Qed.

End TradingEdges.

(** The token DOGE is not in the table. *)
Lemma unsupported_token_fails_without_calls_witness :
  ascii_only "doge" = true
  /\ JupiterService.getDefaultTokenMap !! Js.toUpperCase "doge" = None
  /\ run desk_respond
         (TradingService.executeExitTrade
            (TradingService.mkExitRequest "pos-9" "doge" SELL 1 300
                                          TakeProfitReached))
         initial (desk [])
     = mkFinal (Fulfilled (TradingService.exit_failed
                             (MissingMintMapping "DOGE")))
               initial (desk []) [].
Proof.
  split; [reflexivity|]. split; [by vm_compute|].
  apply (unsupported_token_fails_without_calls desk_respond "doge"
           initial (desk [])); [reflexivity|by vm_compute|reflexivity].
Defined.

(** ** TradingService: the position that an entry opens *)

Section OpenedPosition.
Context {World : Type}.
Variable respond : forall c : Call, World -> Answer c * World.

Local Arguments Qfloor : simpl never.





End OpenedPosition.



(** ** Numbers up to the rounding of the code *)

Lemma unit_roundoff_nonneg : (0 <= unit_roundoff)%Q.
Proof. by vm_compute. Qed.

(** The value of the embedding is the exact one. *)
Lemma rounded_exact (exact stored : Q) :
  (stored == exact)%Q -> rounded exact stored.
Proof.
  intros Heq _.
  assert (stored - exact == 0)%Q as -> by lra.
  simpl. apply Qmult_le_0_compat; [apply unit_roundoff_nonneg|].
  apply Qabs_nonneg.
Qed.

Lemma floor_of_rounded_floor (exact : Q) :
  floor_of_rounded exact (Qfloor exact).
Proof.
  intros _.
  pose proof (Qfloor_le exact) as Hle.
  pose proof (Qlt_floor exact) as Hlt.
  assert (inject_Z (Qfloor exact + 1) == inject_Z (Qfloor exact) + 1)%Q
    as Hone by (rewrite inject_Z_plus; reflexivity).
  rewrite Hone in Hlt.
  pose proof (Qmult_le_0_compat _ _ unit_roundoff_nonneg (Qabs_nonneg exact)).
  apply Qabs_Qle_condition. split; lra.
Qed.

(** ** TradingService: the orders that a client signs *)

Section ClientOrders.
Context {World : Type}.
Variable respond : forall c : Call, World -> Answer c * World.

Local Arguments Qfloor : simpl never.



(** The run that asked for no order. *)
Ltac no_orders :=
  split; [reflexivity|]; split; [eauto|];
  split; [reflexivity|]; split; [reflexivity|]; split; [simpl; lia|];
  let Hin := fresh "Hin" in
  intros ? Hin; by apply elem_of_nil in Hin.


(** X8.  [createEntryOrder] always returns a result and leaves the
    memory as it is, without a look at the guard of the entries; the
    bot wallet takes no part in it.  It asks for one order at most,
    after the price feed has answered for the token and SOL; the order
    is made and paid by the wallet of the request, carries no
    tolerance, and pays SOL for the token for a BUY, the token for SOL
    for a SELL; its amount of SOL is the trade size in lamports,
    rounded down, up to the rounding of the product. *)
Theorem entry_order_is_the_client_s
    (request : TradingService.EntryOrderRequest) m w :
  ascii_only (TradingService.eo_token request) = true ->
  let symbol := Js.toUpperCase (TradingService.eo_token request) in
  let f := run respond (TradingService.createEntryOrder request) m w in
  memory f = m
  /\ (exists result, outcome f = Fulfilled result)
  /\ omap signed_of (trace f) = []
  /\ omap submitted_of (trace f) = []
  /\ (length (orders_of f) <= 1)%nat
  /\ forall params,
      params ∈ orders_of f ->
      maker params = TradingService.eo_walletPublicKey request
      /\ payer params = TradingService.eo_walletPublicKey request
      /\ slippageBps params = None
      /\ exists tokenMint solMint prices,
          JupiterService.getDefaultTokenMap !! symbol = Some tokenMint
          /\ JupiterService.getDefaultTokenMap !! "SOL" = Some solMint
          /\ (respond (FetchPricesBySymbols [symbol; "SOL"]) w).1
             = Fulfilled prices
          /\ inputMint params
             = match TradingService.eo_action request with
               | BUY => solMint | SELL => tokenMint end
          /\ outputMint params
             = match TradingService.eo_action request with
               | BUY => tokenMint | SELL => solMint end
          /\ floor_of_rounded
               (TradingService.eo_tradeSizeSol request
                * TradingService.lamportsPerSol)
               (match TradingService.eo_action request with
                | BUY => makingAmount params
                | SELL => takingAmount params
                end).
Proof.
  intros _ symbol f. remember f as g eqn:Hf. subst f.
  unfold TradingService.createEntryOrder, TradingService.entry_order_body
    in Hf.
  simpl in Hf. fold symbol in Hf.
  destruct (Js.present (JupiterService.getDefaultTokenMap !! symbol))
    as [tokenMint|] eqn:Htok;
    [|subst g; simpl; by no_orders].
  destruct (Js.present (JupiterService.getDefaultTokenMap !! "SOL"))
    as [solMint|] eqn:Hsol;
    [|subst g; simpl; by no_orders].
  apply present_Some in Htok, Hsol.
  simpl in Hf.
  destruct (respond (FetchPricesBySymbols [symbol; "SOL"]) w)
    as [[prices|e] w0] eqn:Hfeed; simpl in Hf;
    [|subst g; simpl; by no_orders].
  unfold TradingService.entry_amounts in Hf.
  destruct (TradingService.eo_action request) eqn:Hact; simpl in Hf.
  all: repeat run_call_in respond Hf.
  all: subst g; unfold orders_of; simpl.
  all: split; [reflexivity|]; split; [eauto|].
  all: split; [reflexivity|]; split; [reflexivity|]; split; [lia|].
  all: intros params Hin; try by apply elem_of_nil in Hin.
  all: apply list_elem_of_singleton in Hin; subst params; simpl.
  all: split; [reflexivity|]; split; [reflexivity|]; split; [reflexivity|].
  all: exists tokenMint, solMint, prices.
  all: do 5 (split; [done|]).
  all: apply floor_of_rounded_floor.
Qed.

(** X9.  [executeEntryOrder] and [executeExitOrder] hand the signed
    transaction of the request to the order interface under the request
    id of the request, once, always return a result and leave the
    memory as it is.  The result is a success exactly when the order
    interface answered with a signature that is not empty, and then it
    carries that signature: what the answer says of its own success is
    not looked at. *)
Theorem signed_order_succeeds_on_signature
    (request : TradingService.ExecuteOrderRequest) m w :
  let submitted :=
    ExecuteSignedTransaction (TradingService.xq_signedTransaction request)
                             (TradingService.xq_requestId request) in
  let answer := (respond submitted w).1 in
  forall p,
    p = TradingService.executeEntryOrder request
    \/ p = TradingService.executeExitOrder request ->
    let f := run respond p m w in
    memory f = m
    /\ calls f = [submitted]
    /\ exists result,
        outcome f = Fulfilled result
        /\ TradingService.xr_signature result
           = match answer with
             | Fulfilled er => Js.present (er_signature er)
             | Rejected _ => None
             end
        /\ TradingService.xr_success result
           = bool_decide (is_Some (TradingService.xr_signature result)).
Proof.
  intros submitted answer p Hp f. subst submitted answer f.
  destruct Hp as [-> | ->].
  all: unfold TradingService.executeEntryOrder,
         TradingService.executeExitOrder; simpl.
  all: destruct (respond _ w) as [[er|e] w']; simpl.
  all: try destruct (Js.present (er_signature er)) eqn:Hsig; simpl.
  all: repeat split; eexists; repeat split; reflexivity.
Qed.

End ClientOrders.


Lemma entry_order_is_the_client_s_witness :
  let f := run desk_respond
               (TradingService.createEntryOrder
                  (TradingService.mkEntryOrderRequest
                     "bonk" BUY (9 # 10) "UserWallet"))
               initial (desk []) in
  length (orders_of f) = 1%nat
  /\ Forall (fun params => maker params = "UserWallet"
                           /\ slippageBps params = None
                           /\ outputMint params = bonkMint)
            (orders_of f).
Proof.
  intros f. split; [by vm_compute|].
  destruct (entry_order_is_the_client_s desk_respond
              (TradingService.mkEntryOrderRequest
                 "bonk" BUY (9 # 10) "UserWallet")
              initial (desk []) eq_refl)
    as (_ & _ & _ & _ & _ & Horders).
  fold f in Horders. apply Forall_forall. intros params Hin.
  destruct (Horders params Hin)
    as (Hmaker & _ & Hslip & tokenMint & solMint & prices & Htok & _ & _ & _
        & Houtput & _).
  split; [exact Hmaker|]. split; [exact Hslip|]. rewrite Houtput.
  vm_compute in Htok. by injection Htok as <-.
Defined.

Lemma signed_order_succeeds_on_signature_witness :
  let request :=
    TradingService.mkExecuteOrderRequest "signed-tx" "req-1" None in
  let f :=
    run desk_respond (TradingService.executeEntryOrder request) initial
        (desk [Fulfilled refused]) in
  memory f = initial
  /\ calls f = [ExecuteSignedTransaction "signed-tx" "req-1"]
  /\ exists result,
      outcome f = Fulfilled result
      /\ TradingService.xr_signature result = None
      /\ TradingService.xr_success result = false.
Proof.
  intros request f.
  destruct (signed_order_succeeds_on_signature desk_respond request initial
              (desk [Fulfilled refused])
              (TradingService.executeEntryOrder request) (or_introl eq_refl))
    as (Hm & Hc & result & Hout & Hsig & Hs).
  split; [exact Hm|]. split; [exact Hc|].
  exists result. split; [exact Hout|]. split; [exact Hsig|].
  rewrite Hs, Hsig. reflexivity.
Defined.

(** ** DepositService: the ledger *)

Section Ledger.
Context {World : Type}.
Variable respond : forall c : Call, World -> Answer c * World.

Local Arguments Qfloor : simpl never.

(** X10.  The loop that asks the chain for a recent blockhash asks three
    times at most, waits one second between two requests and not after
    the last one, stops at the first answer, and fails only when the
    third request has failed, with the error of that request.  The
    memory is not touched. *)
Theorem blockhash_is_asked_three_times_at_most m w :
  let f := run respond (DepositService.latestBlockhash 3) m w in
  memory f = m
  /\ (calls f = [GetLatestBlockhash]
      \/ calls f = [GetLatestBlockhash; Sleep 1000; GetLatestBlockhash]
      \/ calls f = [GetLatestBlockhash; Sleep 1000; GetLatestBlockhash;
                    Sleep 1000; GetLatestBlockhash])
  /\ (exists before,
         omap blockhash_of (trace f) = before ++ [outcome f]
         /\ Forall (fun a => exists e, a = Rejected e) before)
  /\ forall e,
      outcome f = Rejected e ->
      length (omap blockhash_of (trace f)) = 3%nat.
Proof.
  intros f. remember f as g eqn:Hf. subst f. simpl in Hf.
  repeat run_call_in respond Hf.
  all: subst g; simpl.
  all: split; [reflexivity|]; split; [auto|]; split; [|done].
  - by exists [].
  - eexists [_]. split; [reflexivity|]. repeat constructor. eauto.
  - eexists [_; _]. split; [reflexivity|]. repeat constructor; eauto.
  - eexists [_; _]. split; [reflexivity|]. repeat constructor; eauto.
Qed.

(** What [reserveFundsForTrading] does, by cases. *)
Lemma reserveFundsForTrading_run wallet (amountSol : Q) m w :
  let f := run respond
               (DepositService.reserveFundsForTrading wallet amountSol) m w in
  (exists result,
      f = mkFinal (Fulfilled result) m w []
      /\ DepositService.rv_success result = false
      /\ match userDeposits m !! wallet with
         | None => DepositService.rv_message result = NoDepositsFound
         | Some deposit =>
           (UserDeposit.availableSol deposit < amountSol)%Q
           /\ DepositService.rv_message result
              = InsufficientBalance (UserDeposit.availableSol deposit)
                                    amountSol
         end)
  \/ exists deposit now w',
      userDeposits m !! wallet = Some deposit
      /\ (amountSol <= UserDeposit.availableSol deposit)%Q
      /\ f = mkFinal
               (Fulfilled
                  (DepositService.mkReserveResult true
                     (Some (UserDeposit.availableSol deposit - amountSol)%Q)
                     (Reserved amountSol)))
               (update_deposit wallet (DepositService.reserve amountSol now)
                               m)
               w' [mkEvent Now now].
Proof.
  intros f. subst f. unfold DepositService.reserveFundsForTrading. simpl.
  destruct (userDeposits m !! wallet) as [deposit|] eqn:Hd; simpl;
    [|left; eexists; split; [reflexivity|]; split; reflexivity].
  unfold Js.lt.
  destruct (Qle_bool amountSol (UserDeposit.availableSol deposit)) eqn:Hle;
    simpl.
  - right. destruct (respond Now w) as [now w']. simpl.
    exists deposit, now, w'. split; [done|].
    split; [by apply Qle_bool_iff|]. reflexivity.
  - left. eexists. split; [reflexivity|]. split; [reflexivity|].
    split; [by apply Qle_bool_false|]. reflexivity.
Qed.

(** What [processDeposit] does, by cases. *)
Lemma processDeposit_run wallet signed (amountSol : Q) m w :
  let f := run respond
               (DepositService.processDeposit wallet signed amountSol) m w in
  (exists e,
      outcome f
      = Fulfilled (DepositService.mkDepositResult false None None (Failed e))
      /\ memory f = m
      /\ omap confirmed_of (trace f) = [])
  \/ exists signature,
      omap sent_of (trace f) = [(signed, signature)]
      /\ omap confirmed_of (trace f) = [signature]
      /\ match userDeposits m !! wallet with
         | Some deposit =>
           outcome f
           = Fulfilled
               (DepositService.mkDepositResult true (Some signature)
                  (Some (UserDeposit.availableSol deposit + amountSol)%Q)
                  (DepositProcessed amountSol))
           /\ memory f
              = update_deposit wallet (DepositService.add_deposit amountSol)
                               m
         | None =>
           outcome f
           = Fulfilled
               (DepositService.mkDepositResult true (Some signature)
                  (Some amountSol) (DepositProcessed amountSol))
           /\ exists now,
               memory f
               = set_userDeposits
                   (<[wallet := UserDeposit.mk wallet wallet amountSol
                                               amountSol 0 now None]>
                      (userDeposits m)) m
         end.
Proof.
  intros f. remember f as g eqn:Hf. subst f.
  unfold DepositService.processDeposit in Hf. simpl in Hf.
  destruct (respond (SendRawTransaction signed) w) as [[signature|e] w1];
    simpl in Hf;
    [|subst g; left; eexists; repeat split; reflexivity].
  destruct (respond (ConfirmTransaction signature) w1) as [[[]|e] w2];
    simpl in Hf;
    [|subst g; left; eexists; repeat split; reflexivity].
  right. exists signature.
  destruct (userDeposits m !! wallet) as [deposit|] eqn:Hd; simpl in Hf.
  - subst g. simpl. rewrite lookup_alter_eq, Hd. simpl.
    repeat split; reflexivity.
  - destruct (respond Now w2) as [now w3]. simpl in Hf.
    subst g. simpl. rewrite lookup_insert_eq. simpl.
    repeat split; try reflexivity. by exists now.
Qed.

(** X11.  [processDeposit] always returns a result.  It credits the
    ledger only after the chain has accepted the signed transaction and
    confirmed its signature; the result then shows the available
    balance that the ledger holds.  The entry of a wallet that had none
    starts at the amount, with no trade; the entry of a wallet that had
    one keeps its count of trades, its available balance and its
    deposited total are what they were plus the amount, up to the
    rounding of the sum, and for an amount that is not negative neither
    of them has gone down.  The sessions and the entries of the other
    wallets are as they were.  When the result is a failure the memory
    is as it was. *)
Theorem deposit_is_credited_after_confirmation
    wallet signed (amountSol : Q) m w :
  let f := run respond
               (DepositService.processDeposit wallet signed amountSol) m w in
  exists result,
    outcome f = Fulfilled result
    /\ if DepositService.d_success result then
         (exists signature,
             DepositService.d_signature result = Some signature
             /\ omap sent_of (trace f) = [(signed, signature)]
             /\ omap confirmed_of (trace f) = [signature])
         /\ (exists deposit',
                userDeposits (memory f) !! wallet = Some deposit'
                /\ DepositService.d_depositBalance result
                   = Some (UserDeposit.availableSol deposit')
                /\ match userDeposits m !! wallet with
                   | None =>
                     UserDeposit.availableSol deposit' = amountSol
                     /\ UserDeposit.depositedSol deposit' = amountSol
                     /\ UserDeposit.totalTrades deposit' = 0%nat
                   | Some deposit =>
                     UserDeposit.totalTrades deposit'
                     = UserDeposit.totalTrades deposit
                     /\ rounded (UserDeposit.availableSol deposit
                                 + amountSol)
                                (UserDeposit.availableSol deposit')
                     /\ rounded (UserDeposit.depositedSol deposit
                                 + amountSol)
                                (UserDeposit.depositedSol deposit')
                     /\ ((0 <= amountSol)%Q ->
                         (UserDeposit.availableSol deposit
                          <= UserDeposit.availableSol deposit')%Q
                         /\ (UserDeposit.depositedSol deposit
                             <= UserDeposit.depositedSol deposit')%Q)
                   end)
         /\ activeSessions (memory f) = activeSessions m
         /\ forall other,
             other <> wallet ->
             userDeposits (memory f) !! other = userDeposits m !! other
       else memory f = m /\ omap confirmed_of (trace f) = [].
Proof.
  intros f.
  destruct (processDeposit_run wallet signed amountSol m w)
    as [(e & Hout & Hm & Hc)|(signature & Hsent & Hconf & Hcases)];
    fold f in Hout, Hm, Hc || fold f in Hsent, Hconf, Hcases.
  - eexists. split; [exact Hout|]. simpl. done.
  - destruct (userDeposits m !! wallet) as [deposit|] eqn:Hd.
    + destruct Hcases as [Hout Hm]. eexists. split; [exact Hout|]. simpl.
      rewrite Hm. unfold update_deposit. simpl.
      rewrite lookup_alter_eq, Hd. simpl.
      split; [eauto|]. split.
      { eexists. split; [reflexivity|]. simpl. split; [reflexivity|].
        split; [reflexivity|].
        split; [by apply rounded_exact|].
        split; [by apply rounded_exact|].
        intros Ha. split; lra. }
      split; [reflexivity|]. intros other Hne. by rewrite lookup_alter_ne.
    + destruct Hcases as [Hout (now & Hm)]. eexists. split; [exact Hout|].
      simpl. rewrite Hm. simpl. rewrite lookup_insert_eq. simpl.
      split; [eauto|]. split.
      { eexists. split; [reflexivity|]. simpl. done. }
      split; [reflexivity|]. intros other Hne. by rewrite lookup_insert_ne.
Qed.

(** X12.  After a deposit that succeeded, [getUserBalance] finds the
    entry of the wallet, and the available balance that it reads is the
    balance that the deposit reported. *)
Theorem balance_reads_what_the_deposit_wrote
    wallet signed (amountSol : Q) m w result :
  let f := run respond
               (DepositService.processDeposit wallet signed amountSol) m w in
  outcome f = Fulfilled result ->
  DepositService.d_success result = true ->
  exists deposit,
    run respond (DepositService.getUserBalance wallet) (memory f) (world f)
    = mkFinal
        (Fulfilled
           (DepositService.mkBalanceResult true (Some deposit)
              (DepositService.AvailableBalance
                 (UserDeposit.availableSol deposit))))
        (memory f) (world f) []
    /\ DepositService.d_depositBalance result
       = Some (UserDeposit.availableSol deposit).
Proof.
  intros f Hout Hs.
  destruct (processDeposit_run wallet signed amountSol m w)
    as [(e & Hout' & _)|(signature & _ & _ & Hcases)];
    fold f in Hout' || fold f in Hcases.
  - rewrite Hout in Hout'. injection Hout' as ->. discriminate.
  - unfold DepositService.getUserBalance. simpl.
    destruct (userDeposits m !! wallet) as [deposit|] eqn:Hd.
    + destruct Hcases as [Hout' Hm]. rewrite Hout in Hout'.
      injection Hout' as ->. rewrite Hm. unfold update_deposit. simpl.
      rewrite lookup_alter_eq, Hd. simpl.
      exists (DepositService.add_deposit amountSol deposit).
      split; reflexivity.
    + destruct Hcases as [Hout' (now & Hm)]. rewrite Hout in Hout'.
      injection Hout' as ->. rewrite Hm. simpl.
      rewrite lookup_insert_eq. simpl.
      exists (UserDeposit.mk wallet wallet amountSol amountSol 0 now None).
      split; reflexivity.
Qed.

(** X13.  [reserveFundsForTrading] never takes more than the wallet has
    available: when it succeeds the amount was available, the balance
    that is left is the balance before less the amount, up to the
    rounding of the difference; it is not negative, nor more than the
    balance before when the amount is not negative, and it is the one
    that the result shows; the entry counts one trade more and its
    deposited total has not moved.  When it fails nothing has changed
    and nobody has been called. *)
Theorem reserve_takes_what_is_available wallet (amountSol : Q) m w :
  let f := run respond
               (DepositService.reserveFundsForTrading wallet amountSol) m w in
  exists result,
    outcome f = Fulfilled result
    /\ activeSessions (memory f) = activeSessions m
    /\ (forall other, other <> wallet ->
          userDeposits (memory f) !! other = userDeposits m !! other)
    /\ if DepositService.rv_success result then
         exists deposit deposit',
           userDeposits m !! wallet = Some deposit
           /\ userDeposits (memory f) !! wallet = Some deposit'
           /\ (amountSol <= UserDeposit.availableSol deposit)%Q
           /\ rounded (UserDeposit.availableSol deposit - amountSol)
                      (UserDeposit.availableSol deposit')
           /\ (0 <= UserDeposit.availableSol deposit')%Q
           /\ ((0 <= amountSol)%Q ->
               (UserDeposit.availableSol deposit'
                <= UserDeposit.availableSol deposit)%Q)
           /\ DepositService.rv_remainingBalance result
              = Some (UserDeposit.availableSol deposit')
           /\ UserDeposit.totalTrades deposit'
              = S (UserDeposit.totalTrades deposit)
           /\ UserDeposit.depositedSol deposit'
              = UserDeposit.depositedSol deposit
       else memory f = m /\ trace f = [].
Proof.
  intros f.
  destruct (reserveFundsForTrading_run wallet amountSol m w)
    as [(result & Hf & Hs & _)|(deposit & now & w' & Hd & Hle & Hf)];
    fold f in Hf; rewrite Hf; simpl.
  - exists result. rewrite Hs. done.
  - eexists. split; [reflexivity|]. split; [reflexivity|].
    split; [intros other Hne; by rewrite lookup_alter_ne|]. simpl.
    exists deposit, (DepositService.reserve amountSol now deposit).
    rewrite lookup_alter_eq, Hd. simpl.
    do 3 (split; [done|]). split; [by apply rounded_exact|].
    repeat split; try done; lra.
Qed.

(** X14.  A reservation that succeeded and the return of the same
    amount.  The available balance of the wallet is the balance before
    less the amount, which the reservation reports, plus the amount, up
    to the rounding of the difference and of the sum; when the amount
    is the whole balance, it is the balance before again.  The return
    calls nobody; the deposited total and the sessions have not moved,
    and the reservation stays counted as a trade. *)
Theorem reserve_then_return_up_to_rounding
    wallet (amountSol : Q) m w result :
  let f := run respond
               (DepositService.reserveFundsForTrading wallet amountSol) m w in
  outcome f = Fulfilled result ->
  DepositService.rv_success result = true ->
  let g := run respond (DepositService.returnUnusedFunds wallet amountSol)
               (memory f) (world f) in
  (exists reserved,
      DepositService.rv_remainingBalance result = Some reserved
      /\ rounded (availableSol_of m wallet - amountSol) reserved
      /\ rounded (reserved + amountSol) (availableSol_of (memory g) wallet))
  /\ ((amountSol == availableSol_of m wallet)%Q ->
      (availableSol_of (memory g) wallet == availableSol_of m wallet)%Q)
  /\ (UserDeposit.depositedSol <$> userDeposits (memory g) !! wallet)
     = (UserDeposit.depositedSol <$> userDeposits m !! wallet)
  /\ (UserDeposit.totalTrades <$> userDeposits (memory g) !! wallet)
     = (S <$> (UserDeposit.totalTrades <$> userDeposits m !! wallet))
  /\ trace g = []
  /\ activeSessions (memory g) = activeSessions m.
Proof.
  intros f Hout Hs g. subst g.
  destruct (reserveFundsForTrading_run wallet amountSol m w)
    as [(result' & Hf & Hs' & _)|(deposit & now & w' & Hd & Hle & Hf)];
    fold f in Hf; rewrite Hf in *; simpl in *.
  - injection Hout as ->. congruence.
  - injection Hout as <-. simpl.
    unfold availableSol_of, update_deposit. simpl.
    rewrite !lookup_alter_eq, Hd. simpl.
    split.
    { eexists. split; [reflexivity|].
      split; apply rounded_exact; reflexivity. }
    split; [intros Hall; lra|]. done.
Qed.

(** X15.  A wallet that has no entry in the ledger: [getUserBalance]
    and [reserveFundsForTrading] fail, [createWithdrawalTransaction]
    fails, and [returnUnusedFunds] returns nothing to anybody; none of
    them calls anybody, and none of them makes an entry. *)
Theorem ledger_unknown_wallet wallet (amountSol : Q) m w :
  userDeposits m !! wallet = None ->
  run respond (DepositService.getUserBalance wallet) m w
  = mkFinal (Fulfilled (DepositService.mkBalanceResult
                          false None DepositService.NoDeposits)) m w []
  /\ run respond (DepositService.reserveFundsForTrading wallet amountSol) m w
     = mkFinal (Fulfilled (DepositService.mkReserveResult
                             false None NoDepositsFound)) m w []
  /\ run respond
         (DepositService.createWithdrawalTransaction wallet amountSol) m w
     = mkFinal (Fulfilled (DepositService.mkWithdrawalResult
                             false None DepositService.NoDeposits)) m w []
  /\ memory (run respond
                 (DepositService.returnUnusedFunds wallet amountSol) m w)
     = m.
Proof.
  intros Hd.
  unfold DepositService.getUserBalance,
    DepositService.reserveFundsForTrading,
    DepositService.createWithdrawalTransaction,
    DepositService.returnUnusedFunds.
  simpl. rewrite Hd. repeat split.
  unfold update_deposit, set_userDeposits.
  destruct m as [flag n ss ds]. simpl in *.
  f_equal. apply map_eq. intros k.
  destruct (decide (k = wallet)) as [->|Hne].
  - by rewrite lookup_alter_eq, Hd.
  - by rewrite lookup_alter_ne.
Qed.

(** X16.  More than the wallet has available is neither reserved nor
    withdrawn: both calls fail at once, before anybody is called, and
    the ledger is as it was. *)
Theorem ledger_refuses_overdraft wallet deposit (amountSol : Q) m w :
  userDeposits m !! wallet = Some deposit ->
  (UserDeposit.availableSol deposit < amountSol)%Q ->
  run respond (DepositService.reserveFundsForTrading wallet amountSol) m w
  = mkFinal
      (Fulfilled
         (DepositService.mkReserveResult false None
            (InsufficientBalance (UserDeposit.availableSol deposit)
                                 amountSol)))
      m w []
  /\ run respond
         (DepositService.createWithdrawalTransaction wallet amountSol) m w
     = mkFinal
         (Fulfilled
            (DepositService.mkWithdrawalResult false None
               (DepositService.InsufficientFunds
                  (UserDeposit.availableSol deposit))))
         m w [].
Proof.
  intros Hd Hlt.
  unfold DepositService.reserveFundsForTrading,
    DepositService.createWithdrawalTransaction.
  simpl. rewrite Hd. simpl. unfold Js.lt.
  apply Qle_bool_false in Hlt. rewrite Hlt. simpl. done.
Qed.

(** X17.  [createWithdrawalTransaction] always returns a result.  It
    debits the ledger only after the bot wallet has signed the transfer
    and the chain has accepted it and confirmed its signature; the
    transfer goes from the key of the bot wallet to the key of the
    user, for the amount in lamports, rounded down, up to the rounding
    of the product.  The amount was available; the balance that is
    left is the balance before less the amount, up to the rounding of
    the difference, is not negative, and not more than the balance
    before when the amount is not negative; nothing else of the entry,
    no other entry and no session has changed.  When the result is a
    failure the memory is as it was, and the chain has confirmed
    nothing. *)
Theorem withdrawal_is_debited_after_confirmation
    wallet (amountSol : Q) m w :
  let f := run respond
               (DepositService.createWithdrawalTransaction wallet amountSol)
               m w in
  exists result,
    outcome f = Fulfilled result
    /\ activeSessions (memory f) = activeSessions m
    /\ (forall other, other <> wallet ->
          userDeposits (memory f) !! other = userDeposits m !! other)
    /\ if DepositService.w_success result then
         exists deposit deposit' bot botKey userKey lamports signed
                signature,
           userDeposits m !! wallet = Some deposit
           /\ userDeposits (memory f) !! wallet = Some deposit'
           /\ (amountSol <= UserDeposit.availableSol deposit)%Q
           /\ rounded (UserDeposit.availableSol deposit - amountSol)
                      (UserDeposit.availableSol deposit')
           /\ floor_of_rounded
                (amountSol * DepositService.LAMPORTS_PER_SOL) lamports
           /\ (0 <= UserDeposit.availableSol deposit')%Q
           /\ ((0 <= amountSol)%Q ->
               (UserDeposit.availableSol deposit'
                <= UserDeposit.availableSol deposit)%Q)
           /\ UserDeposit.depositedSol deposit'
              = UserDeposit.depositedSol deposit
           /\ UserDeposit.totalTrades deposit'
              = UserDeposit.totalTrades deposit
           /\ Js.present (respond GetPublicKey w).1 = Some bot
           /\ (bot, botKey) ∈ omap public_key_of (trace f)
           /\ (wallet, userKey) ∈ omap public_key_of (trace f)
           /\ omap transfer_of (trace f) = [(botKey, userKey, lamports)]
           /\ omap signed_of (trace f) = [signed]
           /\ omap sent_of (trace f) = [(signed, signature)]
           /\ omap confirmed_of (trace f) = [signature]
           /\ DepositService.w_signature result = Some signature
       else memory f = m /\ omap confirmed_of (trace f) = [].
Proof.
  intros f. remember f as g eqn:Hf. subst f.
  unfold DepositService.createWithdrawalTransaction in Hf. simpl in Hf.
  assert (forall other, other <> wallet ->
            userDeposits m !! other = userDeposits m !! other) as Hsame
      by done.
  destruct (userDeposits m !! wallet) as [deposit|] eqn:Hd; simpl in Hf;
    [|subst g; eexists; split; [reflexivity|]; simpl; done].
  unfold Js.lt in Hf.
  destruct (Qle_bool amountSol (UserDeposit.availableSol deposit)) eqn:Hle;
    simpl in Hf;
    [|subst g; eexists; split; [reflexivity|]; simpl; done].
  apply Qle_bool_iff in Hle.
  destruct (respond GetPublicKey w) as [key w0] eqn:Hkey. simpl in Hf.
  destruct (Js.present key) as [bot|] eqn:Hbot; simpl in Hf;
    [|subst g; eexists; split; [reflexivity|]; simpl; done].
  repeat run_call_in respond Hf.
  all: subst g; eexists; (split; [reflexivity|]); simpl.
  all: try done.
  all: split; [reflexivity|].
  all: split; [intros other Hne; by rewrite lookup_alter_ne|].
  all: exists deposit, (DepositService.sub_available amountSol deposit), bot.
  all: rewrite lookup_alter_eq, Hd; known_answers; simpl.
  all: eexists _, _, _, _, _.
  all: split; [reflexivity|]; split; [reflexivity|]; split; [exact Hle|].
  all: split; [by apply rounded_exact|].
  all: split; [apply floor_of_rounded_floor|].
  all: split; [lra|]; split; [intros; lra|].
  all: repeat split; try done.
  all: repeat first [apply list_elem_of_here | apply list_elem_of_further].
Qed.

End Ledger.

Lemma balance_reads_what_the_deposit_wrote_witness :
  let f := run desk_respond
               (DepositService.processDeposit "UserWallet" "signed-deposit" 2)
               initial (desk []) in
  exists deposit,
    outcome (run desk_respond (DepositService.getUserBalance "UserWallet")
                 (memory f) (world f))
    = Fulfilled
        (DepositService.mkBalanceResult true (Some deposit)
           (DepositService.AvailableBalance 2))
    /\ UserDeposit.availableSol deposit = 2%Q.
Proof.
  intros f.
  destruct (balance_reads_what_the_deposit_wrote desk_respond "UserWallet"
              "signed-deposit" 2 initial (desk []) _ eq_refl eq_refl)
    as (deposit & Hrun & Hbal).
  exists deposit. fold f in Hrun. rewrite Hrun.
  injection Hbal as <-. split; reflexivity.
Defined.

(** The three SOL that a wallet holds, reserved and returned. *)
Lemma reserve_then_return_up_to_rounding_witness :
  let m := trading (bot1 1 1 0 []) 3 3 in
  let f := run desk_respond
               (DepositService.reserveFundsForTrading "UserWallet" 3)
               m (desk []) in
  let g := run desk_respond (DepositService.returnUnusedFunds "UserWallet" 3)
               (memory f) (world f) in
  (availableSol_of (memory f) "UserWallet" == 0)%Q
  /\ (availableSol_of (memory g) "UserWallet" == 3)%Q.
Proof.
  intros m f g. split; [by vm_compute|].
  destruct (reserve_then_return_up_to_rounding desk_respond "UserWallet" 3 m
              (desk []) _ eq_refl eq_refl) as (_ & H & _).
  apply H. by vm_compute.
Defined.

Lemma ledger_unknown_wallet_witness :
  outcome (run desk_respond
               (DepositService.reserveFundsForTrading "Nobody" 1)
               (trading (bot1 1 1 0 []) 3 3) (desk []))
  = Fulfilled (DepositService.mkReserveResult false None NoDepositsFound).
Proof.
  destruct (ledger_unknown_wallet desk_respond "Nobody" 1
              (trading (bot1 1 1 0 []) 3 3) (desk []) eq_refl)
    as (_ & H & _).
  by rewrite H.
Defined.

Lemma ledger_refuses_overdraft_witness :
  outcome (run desk_respond
               (DepositService.createWithdrawalTransaction "UserWallet" 4)
               (trading (bot1 1 1 0 []) 3 3) (desk []))
  = Fulfilled (DepositService.mkWithdrawalResult
                 false None (DepositService.InsufficientFunds 3)).
Proof.
  destruct (ledger_refuses_overdraft desk_respond "UserWallet" _ 4
              (trading (bot1 1 1 0 []) 3 3) (desk []) eq_refl eq_refl)
    as (_ & H).
  by rewrite H.
Defined.

(** Two SOL deposited to a wallet that holds three. *)
Lemma deposit_is_credited_after_confirmation_witness :
  let m := trading (bot1 1 1 0 []) 3 3 in
  let f := run desk_respond
               (DepositService.processDeposit "UserWallet" "signed-deposit"
                                              2) m (desk []) in
  exists result deposit',
    outcome f = Fulfilled result
    /\ DepositService.d_success result = true
    /\ userDeposits (memory f) !! "UserWallet" = Some deposit'
    /\ (3 <= UserDeposit.availableSol deposit')%Q.
Proof.
  intros m f.
  destruct (deposit_is_credited_after_confirmation desk_respond "UserWallet"
              "signed-deposit" 2 m (desk [])) as (result & Hout & Hcases).
  fold f in Hout, Hcases.
  assert (DepositService.d_success result = true) as Hs.
  { vm_compute in Hout. injection Hout as <-. reflexivity. }
  rewrite Hs in Hcases.
  destruct Hcases as (_ & (deposit' & Hd & _ & Hold) & _).
  exists result, deposit'. split; [exact Hout|]. split; [exact Hs|].
  split; [exact Hd|].
  change (userDeposits m !! "UserWallet")
    with (Some (UserDeposit.mk "UserWallet" "UserWallet" 3 3 1 0 (Some 0%Z)))
    in Hold.
  destruct Hold as [_ Hle]. apply Hle. by vm_compute.
Defined.

(** One SOL withdrawn by a wallet that holds three: the bot wallet
    signs, the chain confirms, and the entry is debited. *)
Lemma withdrawal_is_debited_after_confirmation_witness :
  let m := trading (bot1 1 1 0 []) 3 3 in
  let f := run desk_respond
               (DepositService.createWithdrawalTransaction "UserWallet" 1)
               m (desk []) in
  exists result,
    outcome f = Fulfilled result
    /\ DepositService.w_success result = true
    /\ omap confirmed_of (trace f) = ["signature"]
    /\ omap transfer_of (trace f)
       = [("BotWallet", "UserWallet", 1000000000%Z)].
Proof.
  intros m f.
  destruct (withdrawal_is_debited_after_confirmation desk_respond
              "UserWallet" 1 m (desk [])) as (result & Hout & _ & _ & Hcases).
  fold f in Hout, Hcases.
  assert (DepositService.w_success result = true) as Hs.
  { vm_compute in Hout. injection Hout as <-. reflexivity. }
  exists result. split; [exact Hout|]. split; [exact Hs|].
  split; by vm_compute.
Defined.

(** ** BotService: launching, confirming and stopping *)

Section Sessions.
Context {World : Type}.
Variable respond : forall c : Call, World -> Answer c * World.

Local Arguments Qfloor : simpl never.

(** X18.  [createDepositTransaction] always returns a result and leaves
    the memory as it is; the bot wallet signs nothing.  It succeeds for
    a positive amount only, and then the transfer that it has
    serialized, the only one, goes from the key of the user to the key
    of the bot wallet that the result names, for the amount in
    lamports, rounded down, up to the rounding of the product.  For an
    amount that is not positive the chain is not asked for anything. *)
Theorem deposit_transfer_goes_to_the_bot wallet (amountSol : Q) m w :
  let f := run respond
               (DepositService.createDepositTransaction wallet amountSol)
               m w in
  memory f = m
  /\ omap signed_of (trace f) = []
  /\ exists result,
      outcome f = Fulfilled result
      /\ (DepositService.t_success result = true ->
          (0 < amountSol)%Q
          /\ exists bot botKey userKey lamports,
              DepositService.t_botWalletAddress result = Some bot
              /\ Js.present (respond GetPublicKey w).1 = Some bot
              /\ (wallet, userKey) ∈ omap public_key_of (trace f)
              /\ (bot, botKey) ∈ omap public_key_of (trace f)
              /\ omap transfer_of (trace f) = [(userKey, botKey, lamports)]
              /\ floor_of_rounded
                   (amountSol * DepositService.LAMPORTS_PER_SOL) lamports)
      /\ ((amountSol <= 0)%Q ->
          DepositService.t_success result = false
          /\ omap blockhash_of (trace f) = []
          /\ omap transfer_of (trace f) = []).
Proof.
  intros f. remember f as g eqn:Hf. subst f.
  unfold DepositService.createDepositTransaction in Hf. simpl in Hf.
  destruct (respond GetPublicKey w) as [key w1]. simpl in Hf.
  destruct (Js.present key) as [botWalletAddress|] eqn:Hbot; simpl in Hf;
    [|subst g; simpl; split; [done|]; split; [done|];
      eexists; split; [done|]; split; [discriminate|]; done].
  unfold Js.le in Hf.
  destruct (Qle_bool amountSol 0) eqn:Hle; simpl in Hf;
    [subst g; simpl; split; [done|]; split; [done|];
      eexists; split; [done|]; split; [discriminate|]; done|].
  apply Qle_bool_false in Hle.
  repeat run_call_in respond Hf.
  all: subst g; simpl.
  all: split; [reflexivity|]; split; [reflexivity|].
  all: eexists; split; [reflexivity|]; simpl.
  all: split; [|intros Hneg; lra].
  all: try discriminate.
  all: intros _; split; [exact Hle|].
  all: eexists _, _, _, _.
  all: do 5 (split; [first [done
                           |repeat first [apply list_elem_of_here
                                         |apply list_elem_of_further]]|]).
  all: apply floor_of_rounded_floor.
Qed.

Local Opaque DepositService.createDepositTransaction.

(** X19.  [launchBot] always returns a result.  When it succeeds it has
    made one new session, in the state [PENDING_DEPOSIT], with the
    whole allocation remaining, no trade, no position and a quota of
    five trades, for a positive allocation; the ledger is not touched.
    When it fails the memory is as it was. *)
Theorem launch_creates_a_pending_session wallet (allocatedSol : Q) m w :
  let f := run respond (BotService.launchBot wallet allocatedSol) m w in
  exists result,
    outcome f = Fulfilled result
    /\ if BotService.l_success result then
         (0 < allocatedSol)%Q
         /\ exists sessionId startedAt,
             BotService.l_sessionId result = Some sessionId
             /\ memory f
                = set_activeSessions
                    (<[sessionId :=
                         BotSession.mk sessionId wallet allocatedSol
                           allocatedSol 0 5 PENDING_DEPOSIT startedAt []]>
                       (activeSessions m)) m
       else memory f = m.
Proof.
  intros f. subst f. unfold BotService.launchBot.
  rewrite run_try_catch, run_bind.
  destruct (createDepositTransaction_run respond wallet allocatedSol m w)
    as (result & w1 & t & Hrun & Hpos).
  rewrite Hrun. simpl.
  destruct (DepositService.t_success result); simpl;
    [|eexists; split; [reflexivity|]; done].
  destruct (Js.present (DepositService.t_transaction result)); simpl;
    [|eexists; split; [reflexivity|]; done].
  destruct (respond (Fresh "bot") w1) as [sessionId w2]. simpl.
  destruct (respond Now w2) as [startedAt w3]. simpl.
  eexists. split; [reflexivity|]. simpl. split; [by apply Hpos|].
  by exists sessionId, startedAt.
Qed.

(** X20.  [confirmDepositAndStartTrading] asks for a session that waits
    for its deposit: for a session that does not exist, or that is in
    any other state, it fails at once; nothing is sent to the chain and
    the memory is as it was. *)
Theorem confirm_needs_a_pending_session
    sessionId signed wallet (allocatedSol : Q) m w :
  status_of m sessionId <> Some PENDING_DEPOSIT ->
  exists result,
    run respond
        (BotService.confirmDepositAndStartTrading sessionId signed wallet
                                                  allocatedSol) m w
    = mkFinal (Fulfilled result) m w []
    /\ BotService.l_success result = false.
Proof.
  unfold status_of. intros Hst.
  unfold BotService.confirmDepositAndStartTrading.
  rewrite run_try_catch. simpl.
  destruct (activeSessions m !! sessionId) as [session|]; simpl in *;
    [|eexists; split; reflexivity].
  destruct (BotSession.status session); simpl; try congruence.
  all: eexists; split; reflexivity.
Qed.

(** What [confirmDepositAndStartTrading] does for a session that waits
    for its deposit. *)
Lemma confirmDepositAndStartTrading_run
    sessionId signed wallet (allocatedSol : Q) m w session :
  activeSessions m !! sessionId = Some session ->
  BotSession.status session = PENDING_DEPOSIT ->
  let f := run respond
               (BotService.confirmDepositAndStartTrading sessionId signed
                  wallet allocatedSol) m w in
  exists result,
    outcome f = Fulfilled result
    /\ if BotService.l_success result then
         omap started_of (trace f) = [StartTradingForSession sessionId]
         /\ (exists signature,
                omap sent_of (trace f) = [(signed, signature)]
                /\ omap confirmed_of (trace f) = [signature])
         /\ exists m1 now,
             memory f
             = update_session sessionId (BotSession.set_status RUNNING)
                 (update_deposit wallet
                    (DepositService.reserve allocatedSol now) m1)
             /\ activeSessions m1 = activeSessions m
             /\ (availableSol_of m1 wallet
                 == availableSol_of m wallet + allocatedSol)%Q
             /\ (allocatedSol <= availableSol_of m1 wallet)%Q
             /\ is_Some (userDeposits m1 !! wallet)
             /\ (forall other, other <> wallet ->
                   userDeposits m1 !! other = userDeposits m !! other)
       else
         omap started_of (trace f) = []
         /\ exists m1,
             memory f
             = update_session sessionId (BotSession.set_status FAILED) m1
             /\ activeSessions m1 = activeSessions m
             /\ (m1 = m /\ omap confirmed_of (trace f) = []
                 \/ (availableSol_of m wallet < 0)%Q
                    /\ forall other, other <> wallet ->
                         userDeposits m1 !! other = userDeposits m !! other).
Proof.
  intros Hs Hst f. remember f as g eqn:Hf. subst f.
  unfold BotService.confirmDepositAndStartTrading,
    DepositService.processDeposit, DepositService.reserveFundsForTrading
    in Hf.
  simpl in Hf. rewrite Hs in Hf. simpl in Hf. rewrite Hst in Hf.
  simpl in Hf.
  destruct (respond (SendRawTransaction signed) w) as [[signature|e] w1];
    simpl in Hf;
    [|subst g; eexists; split; [reflexivity|]; simpl; split; [done|];
      exists m; auto].
  destruct (respond (ConfirmTransaction signature) w1) as [[[]|e] w2];
    simpl in Hf;
    [|subst g; eexists; split; [reflexivity|]; simpl; split; [done|];
      exists m; auto].
  unfold availableSol_of.
  destruct (userDeposits m !! wallet) as [deposit|] eqn:Hd; simpl in Hf.
  - rewrite lookup_alter_eq, Hd in Hf. simpl in Hf. unfold Js.lt in Hf.
    destruct (Qle_bool allocatedSol
                (UserDeposit.availableSol deposit + allocatedSol)) eqn:Hle;
      simpl in Hf.
    + destruct (respond Now w2) as [now w3]. simpl in Hf.
      destruct (respond (Start _) w3) as [[] w4]. simpl in Hf.
      subst g. eexists. split; [reflexivity|]. simpl.
      split; [reflexivity|]. split; [eauto|].
      exists (update_deposit wallet (DepositService.add_deposit allocatedSol)
                             m), now.
      unfold update_deposit. simpl. rewrite lookup_alter_eq, Hd. simpl.
      split; [reflexivity|]. split; [reflexivity|]. split; [reflexivity|].
      split; [by apply Qle_bool_iff|]. split; [eauto|].
      intros other Hne. by rewrite lookup_alter_ne.
    + subst g. eexists. split; [reflexivity|]. simpl. split; [reflexivity|].
      exists (update_deposit wallet (DepositService.add_deposit allocatedSol)
                             m).
      unfold update_deposit. simpl.
      split; [reflexivity|]. split; [reflexivity|]. right.
      split; [apply Qle_bool_false in Hle; lra|].
      intros other Hne. by rewrite lookup_alter_ne.
  - destruct (respond Now w2) as [now0 w3]. simpl in Hf.
    rewrite lookup_insert_eq in Hf. simpl in Hf. unfold Js.lt in Hf.
    assert (Qle_bool allocatedSol allocatedSol = true) as Hle
        by (apply Qle_bool_iff; lra).
    rewrite Hle in Hf. simpl in Hf.
    destruct (respond Now w3) as [now w4]. simpl in Hf.
    destruct (respond (Start _) w4) as [[] w5]. simpl in Hf.
    subst g. eexists. split; [reflexivity|]. simpl.
    split; [reflexivity|]. split; [eauto|].
    eexists (set_userDeposits _ m), now.
    unfold update_deposit. simpl. split; [reflexivity|].
    rewrite lookup_insert_eq. simpl.
    split; [reflexivity|]. split; [lra|]. split; [lra|]. split; [eauto|].
    intros other Hne. by rewrite lookup_insert_ne.
Qed.

(** X21.  For a session that waits for its deposit, that has trades
    left in its quota and at least the minimum of a trade remaining,
    so that the first turn of the cadence writes nothing before it
    first waits, [confirmDepositAndStartTrading] always returns a
    result and touches no other session and no other wallet.  When it
    succeeds the chain has accepted the signed deposit and confirmed
    its signature, the session is [RUNNING] and otherwise as it was,
    its first turn has been started, once, and the ledger holds an
    entry of the wallet, with at least one trade counted and a balance
    that is not negative: the balance before plus the deposit, less
    the deposit, up to the rounding of the sum and of the difference.
    When it fails the session is [FAILED] and otherwise as it was, and
    no turn has been started; for a wallet whose balance was not
    negative the failure is the deposit's: the chain has confirmed
    nothing and the ledger is as it was. *)
Theorem confirmed_deposit_is_reserved
    sessionId signed wallet (allocatedSol : Q) m w session :
  activeSessions m !! sessionId = Some session ->
  BotSession.status session = PENDING_DEPOSIT ->
  (BotSession.tradesExecuted session < BotSession.maxTrades session)%nat ->
  (BotService.minimumTradeSol <= BotSession.remainingSol session)%Q ->
  let f := run respond
               (BotService.confirmDepositAndStartTrading sessionId signed
                  wallet allocatedSol) m w in
  exists result,
    outcome f = Fulfilled result
    /\ (forall other, other <> sessionId ->
          activeSessions (memory f) !! other = activeSessions m !! other)
    /\ (forall other, other <> wallet ->
          userDeposits (memory f) !! other = userDeposits m !! other)
    /\ if BotService.l_success result then
         activeSessions (memory f) !! sessionId
         = Some (BotSession.set_status RUNNING session)
         /\ omap started_of (trace f) = [StartTradingForSession sessionId]
         /\ (exists signature,
                omap sent_of (trace f) = [(signed, signature)]
                /\ omap confirmed_of (trace f) = [signature])
         /\ exists deposit',
             userDeposits (memory f) !! wallet = Some deposit'
             /\ (0 <= UserDeposit.availableSol deposit')%Q
             /\ (1 <= UserDeposit.totalTrades deposit')%nat
             /\ exists credited,
                 rounded (availableSol_of m wallet + allocatedSol) credited
                 /\ rounded (credited - allocatedSol)
                            (UserDeposit.availableSol deposit')
       else
         activeSessions (memory f) !! sessionId
         = Some (BotSession.set_status FAILED session)
         /\ omap started_of (trace f) = []
         /\ ((0 <= availableSol_of m wallet)%Q ->
             omap confirmed_of (trace f) = []
             /\ userDeposits (memory f) = userDeposits m).
Proof.
  intros Hs Hst _ _ f.
  destruct (confirmDepositAndStartTrading_run sessionId signed wallet
              allocatedSol m w session Hs Hst) as (result & Hout & Hcases).
  fold f in Hout, Hcases. exists result. split; [exact Hout|].
  destruct (BotService.l_success result).
  - destruct Hcases
      as (Hstart & Hconf & m1 & now & Hm & Hss & Hav & Hle & [d Hd]
          & Hother).
    rewrite Hm. unfold update_session, update_deposit. simpl.
    split; [intros other Hne; by rewrite lookup_alter_ne, Hss|].
    split; [intros other Hne; by rewrite lookup_alter_ne, Hother|].
    rewrite !lookup_alter_eq, Hss, Hs, Hd. simpl.
    repeat split; try done.
    eexists. split; [reflexivity|]. simpl.
    unfold availableSol_of in Hle, Hav. rewrite Hd in Hle, Hav.
    simpl in Hle, Hav.
    split; [lra|]. split; [lia|].
    exists (UserDeposit.availableSol d).
    split; apply rounded_exact; [exact Hav|reflexivity].
  - destruct Hcases as (Hstart & m1 & Hm & Hss & Hcases).
    rewrite Hm. unfold update_session. simpl.
    split; [intros other Hne; by rewrite lookup_alter_ne, Hss|].
    split.
    { destruct Hcases as [[-> _]|[_ Hother]]; [done|exact Hother]. }
    rewrite lookup_alter_eq, Hss, Hs. simpl.
    repeat split; try done.
    all: destruct Hcases as [[-> Hc]|[Hneg _]]; [done|lra].
Qed.

(** X22.  A turn of the cadence for a session that does not exist, or
    that is not [RUNNING], does nothing: nobody is called, no further
    turn is scheduled, and the memory is as it was.  So it is for every
    session that [stopBot] has just stopped. *)
Theorem idle_session_takes_no_turn sessionId m w :
  (status_of m sessionId <> Some RUNNING ->
   run respond (BotService.startTradingForSession sessionId) m w
   = mkFinal (Fulfilled tt) m w [])
  /\ let f := run respond (BotService.stopBot sessionId) m w in
     run respond (BotService.startTradingForSession sessionId)
         (memory f) (world f)
     = mkFinal (Fulfilled tt) (memory f) (world f) [].
Proof.
  assert (forall m0 w0,
             status_of m0 sessionId <> Some RUNNING ->
             run respond (BotService.startTradingForSession sessionId) m0 w0
             = mkFinal (Fulfilled tt) m0 w0 []) as Hidle.
  { clear. intros m w. unfold status_of. intros Hst.
    unfold BotService.startTradingForSession. simpl.
    destruct (activeSessions m !! sessionId) as [session|]; simpl in *;
      [|done].
    destruct (BotSession.status session); simpl; congruence. }
  split; [apply Hidle|].
  intros f. apply Hidle. subst f.
  destruct (activeSessions m !! sessionId) as [session|] eqn:Hs.
  - rewrite (stopBot_run respond _ _ _ _ Hs). simpl.
    unfold status_of.
    destruct (Js.gt (BotSession.remainingSol session) 0);
      unfold update_deposit, update_session; simpl;
      rewrite lookup_alter_eq, Hs; simpl; congruence.
  - unfold BotService.stopBot. simpl. rewrite Hs. simpl.
    unfold status_of. rewrite Hs. simpl. congruence.
Qed.

(** X23.  [stopBot] on a session that does not exist fails and changes
    nothing.  On a session that exists it calls nobody and changes the
    status of that session and nothing else of it: its positions stay
    as they are, open or closed, and so do its count of trades and what
    remains of its allocation, which the result reports.  The other
    sessions and the other wallets are not touched. *)
Theorem stop_changes_the_status_only sessionId m w :
  let f := run respond (BotService.stopBot sessionId) m w in
  trace f = []
  /\ match activeSessions m !! sessionId with
     | None =>
       f = mkFinal (Fulfilled (BotService.mkStopResult
                                 false SessionNotFound None None None None))
                   m w []
     | Some session =>
       activeSessions (memory f) !! sessionId
       = Some (BotSession.set_status STOPPED session)
       /\ (forall other, other <> sessionId ->
             activeSessions (memory f) !! other = activeSessions m !! other)
       /\ (forall other, other <> BotSession.walletPublicKey session ->
             userDeposits (memory f) !! other = userDeposits m !! other)
       /\ exists result,
           outcome f = Fulfilled result
           /\ BotService.s_remainingSol result
              = Some (BotSession.remainingSol session)
           /\ BotService.s_tradesExecuted result
              = Some (BotSession.tradesExecuted session)
     end.
Proof.
  intros f. subst f.
  destruct (activeSessions m !! sessionId) as [session|] eqn:Hs.
  - rewrite (stopBot_run respond _ _ _ _ Hs). simpl. split; [done|].
    destruct (Js.gt (BotSession.remainingSol session) 0);
      unfold update_deposit, update_session; simpl;
      rewrite lookup_alter_eq, Hs; simpl.
    all: split; [done|].
    all: split; [intros other Hne; by rewrite lookup_alter_ne|].
    all: split; [intros other Hne; by rewrite ?lookup_alter_ne|].
    all: eexists; repeat split; reflexivity.
  - unfold BotService.stopBot. simpl. rewrite Hs. simpl. done.
Qed.

End Sessions.

Lemma confirm_needs_a_pending_session_witness :
  exists result,
    run desk_respond
        (BotService.confirmDepositAndStartTrading "bot-1" "signed-deposit"
                                                  "UserWallet" 1)
        (trading (bot1 1 1 0 []) 3 3) (desk [])
    = mkFinal (Fulfilled result) (trading (bot1 1 1 0 []) 3 3) (desk []) []
    /\ BotService.l_success result = false.
Proof.
  apply (confirm_needs_a_pending_session desk_respond "bot-1"
           "signed-deposit" "UserWallet" 1 (trading (bot1 1 1 0 []) 3 3)
           (desk [])).
  vm_compute. discriminate.
Defined.

Lemma confirmed_deposit_is_reserved_witness :
  let m := (desk_life [LaunchBot "UserWallet" 1]).1 in
  let f := run desk_respond
               (BotService.confirmDepositAndStartTrading
                  "bot" "signed-deposit" "UserWallet" 1)
               m (desk []) in
  status_of m "bot" = Some PENDING_DEPOSIT
  /\ status_of (memory f) "bot" = Some RUNNING
  /\ omap started_of (trace f) = [StartTradingForSession "bot"].
Proof.
  intros m f. split; [by vm_compute|].
  destruct (confirmed_deposit_is_reserved desk_respond "bot" "signed-deposit"
              "UserWallet" 1 m (desk [])
              (BotSession.mk "bot" "UserWallet" 1 1 0 5 PENDING_DEPOSIT 1000
                             [])
              eq_refl eq_refl ltac:(simpl; lia) ltac:(by vm_compute))
    as (result & Hout & _ & _ & Hcases).
  fold f in Hout, Hcases.
  assert (BotService.l_success result = true) as Hs.
  { vm_compute in Hout. injection Hout as <-. reflexivity. }
  rewrite Hs in Hcases. destruct Hcases as (H1 & H2 & _).
  split; [|exact H2]. unfold status_of. by rewrite H1.
Defined.

(** ** BotService: the cadence and the quota *)

Section Cadence.
Context {World : Type}.
Variable respond : forall c : Call, World -> Answer c * World.

Local Arguments Qfloor : simpl never.

(** An entry schedules nothing. *)
Lemma executeTradeForSession_schedules_nothing
    (request : TradingService.EntryRequest) m w :
  omap timeout_of
       (trace (run respond (TradingService.executeTradeForSession request)
                   m w)) = [].
Proof.
  remember (run respond (TradingService.executeTradeForSession request) m w)
    as g eqn:Hf.
  unfold TradingService.executeTradeForSession, TradingService.entry_body
    in Hf.
  simpl in Hf.
  destruct (isExecutingTrade m); simpl in Hf; [by subst g|].
  set (sym := Js.toUpperCase (TradingService.e_token request)) in Hf.
  destruct (Js.present (JupiterService.getDefaultTokenMap !! sym))
    as [tokenMint|]; [|by subst g].
  destruct (Js.present (JupiterService.getDefaultTokenMap !! "SOL"))
    as [solMint|]; [|by subst g].
  simpl in Hf.
  repeat run_call_in respond Hf.
  all: by subst g.
Qed.

Local Opaque TradingService.executeTradeForSession.

(** A turn of [analyzeAndTradeForSession] by its result: either it
    leaves the memory as it was, and what it returns, if it returns, is
    not an executed entry; or it returns an executed entry and has
    appended the open position of that entry to the session.  It
    schedules nothing. *)
Lemma analyzeAndTradeForSession_cases (sessionId : string) m w :
  let f := run respond (BotService.analyzeAndTradeForSession sessionId) m w in
  omap timeout_of (trace f) = []
  /\ (memory f = m
      /\ (forall result,
             outcome f = Fulfilled result ->
             TradingService.en_executed result = false)
      \/ exists session result position,
          activeSessions m !! sessionId = Some session
          /\ outcome f = Fulfilled result
          /\ TradingService.en_executed result = true
          /\ Position.status position = OPEN
          /\ memory f
             = update_session sessionId (BotSession.push_position position)
                              m).
Proof.
  intros f. remember f as g eqn:Hf. subst f.
  unfold BotService.analyzeAndTradeForSession in Hf. simpl in Hf.
  destruct (activeSessions m !! sessionId) as [session|] eqn:Hs;
    simpl in Hf;
    [|subst g; simpl; split; [done|]; left; split; [done|];
      by intros ? [= <-]].
  destruct (respond RefreshThenGetSignals w) as [r w1]. simpl in Hf.
  destruct r as [[[[] [[|d data]|]]|]|e]; simpl in Hf;
    try (subst g; simpl; split; [done|]; left; split; [done|];
         intros ? [=]; by subst).
  destruct (BotService.sort_by_score (BotService.candidates (d :: data)))
    as [|best rest]; simpl in Hf;
    [subst g; simpl; split; [done|]; left; split; [done|];
      by intros ? [= <-]|].
  unfold current in Hf. rewrite Hs in Hf. simpl in Hf.
  rewrite run_bind in Hf.
  match type of Hf with
  | context [TradingService.executeTradeForSession ?req] =>
    pose proof (executeTradeForSession_schedules_nothing req m w1) as Hquiet;
    destruct (isExecutingTrade m) eqn:Hflag;
    [ rewrite executeTradeForSession_held in Hf by done; simpl in Hf;
      subst g; simpl; split; [done|]; left; split; [done|];
      by intros ? [= <-]
    | destruct (executeTradeForSession_run respond req m w1 Hflag)
        as (Hmem & result & Hout & Hcases);
      destruct (run respond (TradingService.executeTradeForSession req) m w1)
        as [o m1 w2 t] eqn:Hrun ]
  end.
  simpl in Hmem, Hout, Hquiet. subst o m1. simpl in Hf.
  destruct Hcases
    as [(He & Hp & _)|(_ & He & _ & position & Hp & _ & Hst)].
  - rewrite He in Hf. simpl in Hf. subst g. simpl.
    rewrite app_nil_r. split; [done|]. left. split; [done|].
    by intros ? [= <-].
  - rewrite He, Hp in Hf. simpl in Hf. subst g. simpl.
    rewrite app_nil_r. split; [done|]. right.
    by exists session, result, position.
Qed.

Local Opaque BotService.analyzeAndTradeForSession.

Lemma existsb_open_app (ps : list Position.t) (p : Position.t) :
  Position.status p = OPEN ->
  existsb (fun q => PositionStatus_eqb (Position.status q) OPEN) (ps ++ [p])
  = true.
Proof.
  intros Hp. rewrite existsb_app. simpl. rewrite Hp. simpl.
  by rewrite orb_true_r.
Qed.

(** A turn of [startTradingForSession] for a running session, by
    cases. *)
Lemma startTradingForSession_cases sessionId session m w :
  activeSessions m !! sessionId = Some session ->
  BotSession.status session = RUNNING ->
  let f := run respond (BotService.startTradingForSession sessionId) m w in
  let next := StartTradingForSession sessionId in
  outcome f = Fulfilled tt
  /\ ((BotSession.maxTrades session <= BotSession.tradesExecuted session)%nat
      /\ omap timeout_of (trace f) = []
      /\ memory f
         = (if Js.gt (BotSession.remainingSol session) 0 then
              update_deposit (BotSession.walletPublicKey session)
                (DepositService.add_available
                   (BotSession.remainingSol session))
                (update_session sessionId (BotSession.set_status COMPLETED)
                                m)
            else update_session sessionId (BotSession.set_status COMPLETED)
                                m)
      \/ (BotSession.tradesExecuted session < BotSession.maxTrades session)%nat
         /\ (BotSession.remainingSol session < 1 # 100)%Q
         /\ omap timeout_of (trace f) = []
         /\ memory f
            = update_session sessionId (BotSession.set_status COMPLETED) m
      \/ (BotSession.tradesExecuted session < BotSession.maxTrades session)%nat
         /\ (1 # 100 <= BotSession.remainingSol session)%Q
         /\ (memory f = m
             /\ (omap timeout_of (trace f) = [(next, 120000%Z)]
                 \/ omap timeout_of (trace f) = [(next, 600000%Z)]
                    /\ existsb (fun p => PositionStatus_eqb
                                           (Position.status p) OPEN)
                               (BotSession.positions session) = true)
             \/ exists position,
                 Position.status position = OPEN
                 /\ memory f
                    = update_session sessionId BotSession.incr_tradesExecuted
                        (update_session sessionId
                           (BotSession.push_position position) m)
                 /\ omap timeout_of (trace f)
                    = if (S (BotSession.tradesExecuted session)
                         <? BotSession.maxTrades session)%nat
                      then [(next, 600000%Z)] else [])).
Proof.
  intros Hs Hst f next. subst f next.
  unfold BotService.startTradingForSession. simpl. rewrite Hs, Hst. simpl.
  destruct (BotSession.maxTrades session <=? BotSession.tradesExecuted session)%nat
    eqn:Hq.
  { apply Nat.leb_le in Hq. simpl.
    destruct (Js.gt (BotSession.remainingSol session) 0); simpl;
      (split; [done|]); left; done. }
  apply Nat.leb_gt in Hq. unfold Js.lt, BotService.minimumTradeSol.
  destruct (Qle_bool (1 # 100) (BotSession.remainingSol session)) eqn:Hmin;
    simpl.
  2: { apply Qle_bool_false in Hmin. split; [done|]. right. left. done. }
  apply Qle_bool_iff in Hmin.
  rewrite run_try_catch, run_bind.
  destruct (analyzeAndTradeForSession_cases sessionId m w)
    as [Hquiet Hcases].
  destruct (run respond (BotService.analyzeAndTradeForSession sessionId) m w)
    as [o m1 w1 t1] eqn:Hrun.
  simpl in Hquiet, Hcases.
  destruct Hcases
    as [[-> Hno]|(session' & result & position & Hs' & -> & He & Hp & ->)].
  - destruct o as [result|e]; simpl.
    + rewrite (Hno result eq_refl). simpl.
      unfold current. rewrite Hs. simpl. rewrite Hst. simpl.
      apply Nat.ltb_lt in Hq. rewrite Hq. simpl.
      destruct (existsb _ (BotSession.positions session)) eqn:Hopen; simpl.
      * destruct (respond (SetTimeout _ _) w1) as [[] w2]. simpl.
        rewrite ?app_nil_r, ?omap_app, ?app_nil_r, ?Hquiet. simpl.
        split; [done|]. right. right. apply Nat.ltb_lt in Hq.
        split; [done|]. split; [done|]. left. split; [done|]. right. done.
      * destruct (respond (SetTimeout _ _) w1) as [[] w2]. simpl.
        rewrite ?app_nil_r, ?omap_app, ?app_nil_r, ?Hquiet. simpl.
        split; [done|]. right. right. apply Nat.ltb_lt in Hq.
        split; [done|]. split; [done|]. left. split; [done|]. left. done.
    + destruct (respond (SetTimeout _ _) w1) as [[] w2]. simpl.
      rewrite ?app_nil_r, ?omap_app, ?app_nil_r, ?Hquiet. simpl.
      split; [done|]. right. right.
      split; [done|]. split; [done|]. left. split; [done|]. left. done.
  - rewrite Hs in Hs'. injection Hs' as <-. simpl. rewrite He. simpl.
    unfold current, update_session. simpl.
    rewrite !lookup_alter_eq, Hs. simpl. rewrite Hst. simpl.
    destruct (S (BotSession.tradesExecuted session)
              <? BotSession.maxTrades session)%nat eqn:Hnext; simpl.
    + rewrite existsb_open_app by done. simpl.
      destruct (respond (SetTimeout _ _) w1) as [[] w2]. simpl.
      rewrite ?app_nil_r, ?omap_app, ?app_nil_r, ?Hquiet. simpl.
      split; [done|]. right. right. split; [done|]. split; [done|].
      right. by exists position.
    + rewrite ?app_nil_r, ?omap_app, ?app_nil_r, ?Hquiet.
      split; [done|]. right. right. split; [done|]. split; [done|].
      right. by exists position.
Qed.

(** X24.  A turn of the cadence never throws and schedules one further
    turn at most, for the same session, in two minutes or in ten. *)
Theorem turn_schedules_one_turn_at_most sessionId m w :
  let f := run respond (BotService.startTradingForSession sessionId) m w in
  outcome f = Fulfilled tt
  /\ (omap timeout_of (trace f) = []
      \/ omap timeout_of (trace f)
         = [(StartTradingForSession sessionId, 120000%Z)]
      \/ omap timeout_of (trace f)
         = [(StartTradingForSession sessionId, 600000%Z)]).
Proof.
  intros f.
  destruct (activeSessions m !! sessionId) as [session|] eqn:Hs.
  2: { subst f. unfold BotService.startTradingForSession. simpl.
       rewrite Hs. simpl. auto. }
  destruct (SessionStatus_eqb (BotSession.status session) RUNNING) eqn:Hst.
  2: { subst f. unfold BotService.startTradingForSession. simpl.
       rewrite Hs. simpl. rewrite Hst. simpl. auto. }
  assert (BotSession.status session = RUNNING) as Hrun
      by (by destruct (BotSession.status session)).
  clear Hst. rename Hrun into Hst.
  destruct (startTradingForSession_cases sessionId session m w Hs Hst)
    as [Hout Hcases].
  fold f in Hout, Hcases. split; [done|].
  destruct Hcases
    as [(_ & -> & _)
       |[(_ & _ & -> & _)
        |(_ & _ & [(_ & [->|[-> _]])|(position & _ & _ & ->)])]]; auto.
  destruct (_ <? _)%nat; auto.
Qed.

(** X25.  The turn that makes the last trade of the quota schedules no
    further turn: the session stays [RUNNING], and what remains of its
    allocation is not returned to the ledger by this turn. *)
Theorem quota_filling_trade_schedules_nothing
    sessionId session session' m w :
  activeSessions m !! sessionId = Some session ->
  BotSession.status session = RUNNING ->
  S (BotSession.tradesExecuted session) = BotSession.maxTrades session ->
  let f := run respond (BotService.startTradingForSession sessionId) m w in
  activeSessions (memory f) !! sessionId = Some session' ->
  BotSession.tradesExecuted session' = BotSession.maxTrades session' ->
  BotSession.status session' = RUNNING
  /\ omap timeout_of (trace f) = []
  /\ userDeposits (memory f) = userDeposits m.
Proof.
  intros Hs Hst Hlast f Hs' Hfull.
  destruct (startTradingForSession_cases sessionId session m w Hs Hst)
    as [_ Hcases].
  fold f in Hcases.
  destruct Hcases
    as [(Hq & _)
       |[(_ & _ & _ & Hm)
        |(_ & _ & [(Hm & _)|(position & _ & Hm & Ht)])]].
  - lia.
  - rewrite Hm in Hs'. unfold update_session in Hs'. simpl in Hs'.
    rewrite lookup_alter_eq, Hs in Hs'. injection Hs' as <-.
    simpl in Hfull. lia.
  - rewrite Hm, Hs in Hs'. injection Hs' as <-. lia.
  - rewrite Hm in Hs' |- *. unfold update_session in Hs' |- *.
    simpl in Hs' |- *.
    rewrite !lookup_alter_eq, Hs in Hs'. injection Hs' as <-. simpl.
    split; [done|]. split; [|done]. rewrite Ht.
    assert ((S (BotSession.tradesExecuted session)
             <? BotSession.maxTrades session)%nat = false) as ->; [|done].
    apply Nat.ltb_ge. lia.
Qed.

End Cadence.

(** ** BotService: the quota of a session *)

Section Quota.
Context {World : Type}.
Variable respond : forall c : Call, World -> Answer c * World.

(** X26.  A turn of the cadence for a running session, run from its
    start to its end, makes one trade at most and none beyond the
    quota.  It touches no other session and leaves the quota of its own
    as it is.  Either the session has the positions and the count of
    trades that it had; or the count was under the quota and at least
    the minimum of a trade remained, and the session, still [RUNNING],
    counts one trade more and has one position more, [OPEN], after the
    ones that it had.  So a count within the quota stays within it,
    and a count that is the number of the positions stays that
    number. *)
Theorem turn_trades_once_within_quota sessionId session m w :
  activeSessions m !! sessionId = Some session ->
  BotSession.status session = RUNNING ->
  let f := run respond (BotService.startTradingForSession sessionId) m w in
  (forall other, other <> sessionId ->
     activeSessions (memory f) !! other = activeSessions m !! other)
  /\ exists session',
      activeSessions (memory f) !! sessionId = Some session'
      /\ BotSession.maxTrades session' = BotSession.maxTrades session
      /\ (BotSession.positions session' = BotSession.positions session
          /\ BotSession.tradesExecuted session'
             = BotSession.tradesExecuted session
          \/ (BotSession.tradesExecuted session
              < BotSession.maxTrades session)%nat
             /\ (BotService.minimumTradeSol
                 <= BotSession.remainingSol session)%Q
             /\ BotSession.status session' = RUNNING
             /\ BotSession.tradesExecuted session'
                = S (BotSession.tradesExecuted session)
             /\ exists position,
                 Position.status position = OPEN
                 /\ BotSession.positions session'
                    = BotSession.positions session ++ [position])
      /\ ((BotSession.tradesExecuted session
           <= BotSession.maxTrades session)%nat ->
          (BotSession.tradesExecuted session'
           <= BotSession.maxTrades session')%nat)
      /\ (length (BotSession.positions session)
          = BotSession.tradesExecuted session ->
          length (BotSession.positions session')
          = BotSession.tradesExecuted session').
Proof.
  intros Hs Hst f.
  destruct (startTradingForSession_cases respond sessionId session m w
              Hs Hst) as [_ Hcases].
  fold f in Hcases.
  destruct Hcases
    as [(_ & _ & Hm)
       |[(_ & _ & _ & Hm)
        |(Hq & Hmin & [(Hm & _)|(position & Hp & Hm & _)])]].
  - assert (activeSessions (memory f)
            = alter (BotSession.set_status COMPLETED) sessionId
                    (activeSessions m)) as ->
        by (rewrite Hm; by destruct (Js.gt _ _)).
    split; [intros other Hne; by rewrite lookup_alter_ne|].
    rewrite lookup_alter_eq, Hs. simpl. eexists. split; [reflexivity|].
    simpl. split; [done|]. split; [by left|]. done.
  - rewrite Hm. unfold update_session. simpl.
    split; [intros other Hne; by rewrite lookup_alter_ne|].
    rewrite lookup_alter_eq, Hs. simpl. eexists. split; [reflexivity|].
    simpl. split; [done|]. split; [by left|]. done.
  - rewrite Hm. split; [done|]. exists session.
    split; [done|]. split; [done|]. split; [by left|]. done.
  - rewrite Hm. unfold update_session. simpl.
    split; [intros other Hne; by rewrite !lookup_alter_ne|].
    rewrite !lookup_alter_eq, Hs. simpl. eexists. split; [reflexivity|].
    simpl. split; [done|]. split.
    + right. split; [done|]. split; [done|]. split; [done|].
      split; [done|]. by exists position.
    + split; [lia|]. rewrite length_app. simpl. lia.
Qed.

End Quota.

(** A running session that has made four trades of its five, on the
    desk: the turn makes the fifth, and the session holds one position
    more. *)
Lemma turn_trades_once_within_quota_witness :
  let m := trading (bot1 1 1 4 []) 1 0 in
  let f := run desk_respond (BotService.startTradingForSession "bot-1") m
               (desk [Fulfilled accepted]) in
  exists session',
    activeSessions (memory f) !! "bot-1" = Some session'
    /\ BotSession.tradesExecuted session' = 5%nat
    /\ (BotSession.tradesExecuted session'
        <= BotSession.maxTrades session')%nat.
Proof.
  intros m f.
  destruct (turn_trades_once_within_quota desk_respond "bot-1"
              (bot1 1 1 4 []) m (desk [Fulfilled accepted])
              eq_refl eq_refl)
    as (_ & session' & Hs' & _ & _ & Hq & _).
  fold f in Hs'. exists session'. split; [exact Hs'|].
  split; [|apply Hq; simpl; lia].
  vm_compute in Hs'. injection Hs' as <-. reflexivity.
Defined.

(** ** BotService: the choice of a signal *)

Lemma lt_true (a b : Q) : Js.lt a b = true <-> (a < b)%Q.
Proof.
  unfold Js.lt. rewrite negb_true_iff. apply Qle_bool_false.
Qed.

Lemma lt_false (a b : Q) : Js.lt a b = false <-> (b <= a)%Q.
Proof.
  unfold Js.lt. rewrite negb_false_iff. apply Qle_bool_iff.
Qed.

(** The sort of the turn is the sort by the scores in exact
    arithmetic. *)
Lemma sort_by_score_is_sort_by l :
  BotService.sort_by_score l = sort_by BotService.score l.
Proof.
  induction l as [|x r IH]; [done|]. simpl. rewrite IH.
  generalize (sort_by BotService.score r). clear.
  induction l as [|y r IH]; [done|]. simpl. by rewrite IH.
Qed.

(** The score in exact arithmetic grows with the urgency, the
    confidence and the bias. *)
Lemma score_dominates a b :
  dominates a b -> (BotService.score b <= BotService.score a)%Q.
Proof.
  intros (Hu & Hc & Ha). unfold BotService.score.
  assert (((if (sg_action b =? 1)%Z then 1 # 100 else 0)
           <= (if (sg_action a =? 1)%Z then 1 # 100 else 0))%Q) as Hb.
  { destruct (sg_action b =? 1)%Z eqn:Hb.
    - apply Z.eqb_eq in Hb. rewrite (Ha Hb). simpl. lra.
    - destruct (sg_action a =? 1)%Z; lra. }
  lra.
Qed.

Lemma insert_by_head sc x l best rest :
  insert_by sc x l = best :: rest ->
  match l with
  | [] => best = x
  | y :: _ => if Js.lt (sc x) (sc y) then best = y else best = x
  end.
Proof.
  destruct l as [|y r]; simpl; [by intros [= <-]|].
  destruct (Js.lt _ _); by intros [= <-].
Qed.

Lemma insert_by_perm sc x l : insert_by sc x l ≡ₚ x :: l.
Proof.
  induction l as [|y r IH]; [done|]. simpl.
  destruct (Js.lt _ _); [|done].
  rewrite IH. apply Permutation_swap.
Qed.

Lemma sort_by_perm sc l : sort_by sc l ≡ₚ l.
Proof.
  induction l as [|x r IH]; [done|]. simpl.
  by rewrite insert_by_perm, IH.
Qed.

(** The first element of the sorted list comes first among the elements
    of the greatest score. *)
Lemma sort_by_head sc l best rest :
  sort_by sc l = best :: rest ->
  exists pre post,
    l = pre ++ best :: post
    /\ (forall s, s ∈ pre -> (sc s < sc best)%Q)
    /\ (forall s, s ∈ post -> (sc s <= sc best)%Q).
Proof.
  revert best rest. induction l as [|x r IH]; intros best rest; [done|].
  simpl. intros Hsort.
  destruct (sort_by sc r) as [|b rest'] eqn:Hr.
  - simpl in Hsort. injection Hsort as <- <-.
    assert (r = []) as ->.
    { apply Permutation_nil_r. by rewrite <- Hr, sort_by_perm. }
    exists [], []. split; [done|]. split; intros s Hs; by inversion Hs.
  - destruct (IH b rest' eq_refl) as (pre & post & -> & Hpre & Hpost).
    apply insert_by_head in Hsort.
    destruct (Js.lt (sc x) (sc b)) eqn:Hlt.
    + subst best. apply lt_true in Hlt.
      exists (x :: pre), post. split; [done|]. split; [|done].
      intros s [->|Hs]%elem_of_cons; auto.
    + subst best. apply lt_false in Hlt.
      exists [], (pre ++ b :: post). split; [done|].
      split; [intros s Hs; by inversion Hs|].
      intros s [Hs|[->|Hs]%elem_of_cons]%elem_of_app.
      * apply Qlt_le_weak. eapply Qlt_le_trans; [by apply Hpre|done].
      * done.
      * eapply Qle_trans; [by apply Hpost|done].
Qed.

(** X28.  The signal that a turn trades, for signals whose tokens are
    in ASCII.  The turn sorts the candidates by their scores, the sums
    of the code in exact arithmetic, and these grow with the urgency,
    the confidence and the bias.  For every scoring that does so, as
    the sums of the code do, rounded or not, the first of the sorted
    candidates is a signal of the feed that is not a hold and whose
    token, in upper case, is in the table of mints; the sort loses and
    adds no candidate; no candidate has a greater score, and no
    candidate that the feed lists before the chosen one is at least as
    urgent, as sure and as much of a buy. *)
Theorem chosen_signal_is_not_dominated (data : list (option Signal)) :
  (forall s, Some s ∈ data -> ascii_only (sg_token s) = true) ->
  BotService.sort_by_score (BotService.candidates data)
  = sort_by BotService.score (BotService.candidates data)
  /\ (forall a b,
         dominates a b -> (BotService.score b <= BotService.score a)%Q)
  /\ forall (sc : Signal -> Q) (best : Signal) (rest : list Signal),
      (forall a b, dominates a b -> (sc b <= sc a)%Q) ->
      sort_by sc (BotService.candidates data) = best :: rest ->
      Some best ∈ data
      /\ sg_action best <> 0%Z
      /\ is_Some (JupiterService.getDefaultTokenMap
                    !! Js.toUpperCase (sg_token best))
      /\ best :: rest ≡ₚ BotService.candidates data
      /\ (forall s, s ∈ BotService.candidates data -> (sc s <= sc best)%Q)
      /\ exists before after,
          BotService.candidates data = before ++ best :: after
          /\ forall s, s ∈ before ->
                       (sc s < sc best)%Q /\ ~ dominates s best.
Proof.
  intros _. split; [apply sort_by_score_is_sort_by|].
  split; [apply score_dominates|].
  intros sc best rest Hmono Hsort.
  destruct (sort_by_head _ _ _ _ Hsort) as (pre & post & Hl & Hpre & Hpost).
  assert (best ∈ BotService.candidates data) as Hin.
  { rewrite Hl. apply elem_of_app. right. apply list_elem_of_here. }
  unfold BotService.candidates in Hin.
  apply list_elem_of_filter in Hin as [Hsup Hin].
  apply list_elem_of_omap in Hin as (o & Ho & Hsome).
  destruct o as [sig|]; [|done].
  destruct (sg_action sig =? 0)%Z eqn:Hact; [done|].
  injection Hsome as ->. apply Z.eqb_neq in Hact.
  split; [done|]. split; [done|]. split; [done|].
  split; [rewrite <- Hsort; apply sort_by_perm|]. split.
  - intros s. rewrite Hl.
    intros [Hs|[->|Hs]%elem_of_cons]%elem_of_app.
    + apply Qlt_le_weak. by apply Hpre.
    + apply Qle_refl.
    + by apply Hpost.
  - exists pre, post. split; [done|]. intros s Hs.
    split; [by apply Hpre|]. intros Hdom.
    apply Hmono in Hdom. specialize (Hpre s Hs). lra.
Qed.

(** Of two candidates the more urgent one is chosen, after a hold and a
    token that is not listed have been left out. *)
Lemma chosen_signal_is_not_dominated_witness :
  let urgent := mkSignal "sol" (-1) (Some (4 # 10)) (Some 1) None None in
  let calm := mkSignal "bonk" 1 (Some (8 # 10)) (Some (5 # 10)) None None in
  let hold := mkSignal "jup" 0 (Some 1) (Some 1) None None in
  let unlisted := mkSignal "doge" 1 (Some 1) (Some 1) None None in
  let data := [Some hold; None; Some unlisted; Some calm; Some urgent] in
  BotService.sort_by_score (BotService.candidates data) = [urgent; calm]
  /\ Some urgent ∈ data
  /\ ~ dominates calm urgent.
Proof.
  intros urgent calm hold unlisted data.
  assert (BotService.sort_by_score (BotService.candidates data)
          = [urgent; calm]) as Hsort by (by vm_compute).
  split; [exact Hsort|].
  destruct (chosen_signal_is_not_dominated data) as (Heq & Hmono & Hbest).
  { intros s Hs. unfold data in Hs.
    repeat (apply elem_of_cons in Hs as [Hs|Hs];
            [first [by injection Hs as -> | discriminate Hs]|]).
    by apply elem_of_nil in Hs. }
  rewrite Heq in Hsort.
  destruct (Hbest BotService.score urgent [calm] Hmono Hsort)
    as (Hin & _ & _ & _ & _ & Hfirst).
  split; [exact Hin|].
  destruct Hfirst as (before & after & Hl & Hbefore).
  apply Hbefore.
  assert (BotService.candidates data = [calm; urgent]) as Hc
      by (by vm_compute).
  rewrite Hc in Hl.
  destruct before as [|b before']; [by injection Hl as Hl _|].
  injection Hl as <- Hl. apply list_elem_of_here.
Defined.

(** ** BotService: the monitor *)

Lemma same_position_refl p : same_position p p.
Proof. exists (Position.status p). by destruct p. Qed.

Lemma same_session_refl s : same_session s s.
Proof.
  split; [by destruct s|]. apply Forall2_same_length_lookup_2; [done|].
  intros i p p' Hp Hp'. rewrite Hp in Hp'. injection Hp' as <-.
  apply same_position_refl.
Qed.

Lemma statuses_only_refl m : statuses_only m m.
Proof.
  split; [done|]. split; [done|]. intros sid.
  destruct (activeSessions m !! sid); constructor. apply same_session_refl.
Qed.

Lemma statuses_only_set_position_status ref st m m' :
  statuses_only m m' ->
  statuses_only m (BotService.set_position_status ref st m').
Proof.
  intros (Hflag & Hd & Hs). split; [done|]. split; [done|]. intros sid.
  unfold BotService.set_position_status, update_session. simpl.
  destruct (decide (ref.1 = sid)) as [<-|Hne];
    [|by rewrite lookup_alter_ne].
  rewrite lookup_alter_eq. specialize (Hs ref.1).
  destruct Hs as [s s' [Heq Hps]|]; simpl; constructor.
  split.
  - simpl. rewrite Heq. reflexivity.
  - simpl. apply Forall2_alter_r; [done|].
    intros p p' _ _ [st0 ->]. exists st. by destruct p.
Qed.

Lemma position_at_set_status_ne ref ref' st m :
  ref <> ref' ->
  BotService.position_at (BotService.set_position_status ref st m) ref'
  = BotService.position_at m ref'.
Proof.
  intros Hne.
  unfold BotService.position_at, BotService.set_position_status,
    update_session.
  simpl. destruct (decide (ref.1 = ref'.1)) as [H1|H1].
  - rewrite H1, lookup_alter_eq.
    destruct (activeSessions m !! ref'.1) as [s|]; [|done].
    simpl. apply list_lookup_alter_ne. intros H2. apply Hne.
    destruct ref, ref'; simpl in *; congruence.
  - by rewrite lookup_alter_ne.
Qed.

(** The positions that the monitor gathers are open positions of the
    process, each at its place. *)
Lemma allPositions_open keys m ref p :
  (ref, p) ∈ BotService.allPositions keys m ->
  BotService.position_at m ref = Some p /\ Position.status p = OPEN.
Proof.
  unfold BotService.allPositions. intros Hin.
  apply list_elem_of_bind in Hin as (sid & Hin & _).
  destruct (activeSessions m !! sid) as [s|] eqn:Hs;
    [|by apply elem_of_nil in Hin].
  unfold BotService.open_positions_of in Hin.
  apply list_elem_of_omap in Hin as ([i q] & Hiq & Hsome).
  apply elem_of_lookup_imap in Hiq as (i' & q' & [= -> ->] & Hq).
  simpl in Hsome.
  destruct (Position.status q') eqn:Hst; simpl in Hsome; [|done].
  injection Hsome as <- <-. split; [|done].
  unfold BotService.position_at. simpl. by rewrite Hs.
Qed.

(** [unique] keeps each token once: the tokens that are not in [seen]. *)
Lemma unique_spec (tokens : list string) :
  forall seen,
    NoDup (BotService.unique seen tokens)
    /\ forall t, t ∈ BotService.unique seen tokens
                 <-> t ∈ tokens /\ t ∉ seen.
Proof.
  induction tokens as [|x rest IH]; intros seen; simpl.
  - split; [constructor|]. intros t. split; [by intros ?%elem_of_nil|].
    by intros [?%elem_of_nil _].
  - destruct (bool_decide (x ∈ seen)) eqn:Hx.
    + apply bool_decide_eq_true in Hx.
      destruct (IH seen) as [Hnd Hin]. split; [done|].
      intros t. rewrite Hin, elem_of_cons. split; [tauto|].
      intros [[->|Ht] Hns]; tauto.
    + apply bool_decide_eq_false in Hx.
      destruct (IH (x :: seen)) as [Hnd Hin]. split.
      * constructor; [|done]. rewrite Hin, elem_of_cons. tauto.
      * intros t. rewrite !elem_of_cons, Hin, elem_of_cons.
        destruct (decide (t = x)) as [->|Hne]; tauto.
Qed.

Section Monitor.
Context {World : Type}.
Variable respond : forall c : Call, World -> Answer c * World.

(** [shouldExitPosition] returns a decision and leaves the memory as it
    is. *)
Lemma shouldExitPosition_returns position (currentPrice : Q) m w :
  exists decision w' t,
    run respond (BotService.shouldExitPosition position currentPrice) m w
    = mkFinal (Fulfilled decision) m w' t.
Proof.
  unfold BotService.shouldExitPosition.
  destruct (Js.ge _ _); [by eexists _, _, _|].
  destruct (Js.le _ _); [by eexists _, _, _|].
  simpl. destruct (respond Now w) as [now w']. simpl.
  destruct (_ <=? _)%Z; by eexists _, _, _.
Qed.

(** The exit retry ladder returns, and changes the status of its
    position and nothing else. *)
Lemma executeExitTrade_statuses ref position reason m0 m w :
  statuses_only m0 m ->
  exists m' w' t,
    run respond (BotService.executeExitTrade ref position reason) m w
    = mkFinal (Fulfilled tt) m' w' t
    /\ statuses_only m0 m'
    /\ forall ref', ref' <> ref ->
         BotService.position_at m' ref' = BotService.position_at m ref'.
Proof.
  intros Hm. unfold BotService.executeExitTrade.
  destruct (exit_attempts_run respond ref position reason
              BotService.slippagePercentages 0 m w)
    as (m1 & w3 & t3 & Hrun & _ & Hcases).
  exists m1, w3, t3. split; [done|].
  destruct Hcases as [(k & pct & _ & _ & ->)|[_ ->]].
  all: split; [by apply statuses_only_set_position_status|].
  all: intros ref' Hne; apply position_at_set_status_ne; congruence.
Qed.

Local Opaque BotService.executeExitTrade BotService.shouldExitPosition.

(** The loop of the monitor returns, and changes nothing but the
    statuses of the positions that it was given. *)
Lemma check_positions_run prices
    (positions : list (BotService.PositionRef * Position.t)) :
  forall m0 m w,
    statuses_only m0 m ->
    exists m' w' t,
      run respond (BotService.check_positions prices positions) m w
      = mkFinal (Fulfilled tt) m' w' t
      /\ statuses_only m0 m'
      /\ (forall ref, ref ∉ positions.*1 ->
            BotService.position_at m' ref = BotService.position_at m ref)
      /\ ((forall rp, rp ∈ positions ->
             BotService.currentPrice_of prices rp.2 = None) ->
          m' = m /\ t = []).
Proof.
  induction positions as [|[ref position] rest IH]; intros m0 m w Hm.
  - simpl. eexists _, _, _. split; [reflexivity|]. done.
  - simpl.
    destruct (BotService.currentPrice_of prices position)
      as [currentPrice|] eqn:Hprice.
    2: { destruct (IH m0 m w Hm) as (m' & w' & t & Hrun & Hs & Hne & Hskip).
         exists m', w', t. split; [done|]. split; [done|]. split.
         - intros ref' Hnot. apply Hne. intros Hin. apply Hnot.
           by apply list_elem_of_further.
         - intros Hall. apply Hskip. intros rp Hrp. apply Hall.
           by apply list_elem_of_further. }
    simpl. destruct (respond Now w) as [now w1]. simpl.
    rewrite run_bind.
    destruct (shouldExitPosition_returns position currentPrice m w1)
      as (decision & w2 & t2 & Hdec).
    rewrite Hdec. simpl. rewrite run_bind.
    assert (exists m1 w3 t3,
               run respond
                   match (if BotService.exit decision
                          then BotService.reason decision else None) with
                   | Some why =>
                     BotService.executeExitTrade ref position why
                   | None => Ret tt
                   end m w2
               = mkFinal (Fulfilled tt) m1 w3 t3
               /\ statuses_only m0 m1
               /\ forall ref', ref' <> ref ->
                    BotService.position_at m1 ref'
                    = BotService.position_at m ref')
      as (m1 & w3 & t3 & Hexit & Hs1 & Hne1).
    { destruct (if BotService.exit decision
                then BotService.reason decision else None) as [why|].
      - by apply executeExitTrade_statuses.
      - eexists _, _, _. split; [reflexivity|]. done. }
    rewrite Hexit. simpl.
    destruct (IH m0 m1 w3 Hs1) as (m' & w' & t & Hrun & Hs & Hne & _).
    rewrite Hrun. simpl.
    eexists _, _, _. split; [reflexivity|]. split; [done|]. split.
    + intros ref' Hnot. rewrite Hne.
      * apply Hne1. intros ->. apply Hnot. apply list_elem_of_here.
      * intros Hin. apply Hnot. by apply list_elem_of_further.
    + intros Hall. specialize (Hall (ref, position)). simpl in Hall.
      rewrite Hall in Hprice; [done|]. apply list_elem_of_here.
Qed.

(** X29.  A tick of the monitor never throws, whatever the price feed
    and the order interface do, and it changes nothing but the statuses
    of positions: the ledger, the guard and every other field of every
    session and of every position are as they were, and so is every
    position that was closed when the tick began. *)
Theorem monitor_changes_statuses_only keys m w :
  let f := run respond (BotService.monitoringTick keys) m w in
  outcome f = Fulfilled tt
  /\ statuses_only m (memory f)
  /\ forall ref position,
      BotService.position_at m ref = Some position ->
      Position.status position = CLOSED ->
      BotService.position_at (memory f) ref = Some position.
Proof.
  intros f. subst f.
  unfold BotService.monitoringTick, BotService.checkExitConditions.
  rewrite run_try_catch. simpl.
  destruct (BotService.allPositions keys m) as [|rp rest] eqn:Hall; simpl.
  { split; [done|]. split; [apply statuses_only_refl|done]. }
  destruct (respond (FetchPricesBySymbols _) w) as [[prices|e] w1]; simpl.
  2: { split; [done|]. split; [apply statuses_only_refl|done]. }
  destruct (check_positions_run prices (rp :: rest) m m w1
              (statuses_only_refl m))
    as (m' & w' & t & Hrun & Hs & Hne & _).
  simpl in Hrun. rewrite Hrun. simpl.
  split; [done|]. split; [done|].
  intros ref position Hp Hclosed. rewrite Hne; [done|].
  intros Hin. apply list_elem_of_fmap in Hin as ([ref' p'] & -> & Hin).
  rewrite <- Hall in Hin. apply allPositions_open in Hin as [Hp' Hopen].
  simpl in Hp. rewrite Hp in Hp'. injection Hp' as <-. congruence.
Qed.

(** X30.  The monitor looks a token up in the table of mints as the
    position has it, not in upper case.  When no open position has a
    token that the table has under that very name, a tick asks the
    price feed once for the tokens of the open positions, each once, or
    asks nobody when there is no open position, and then leaves every
    position as it is, whatever the prices and the clock. *)
Theorem monitor_skips_tokens_not_in_the_table keys m w :
  (forall ref position,
      (ref, position) ∈ BotService.allPositions keys m ->
      JupiterService.getDefaultTokenMap !! Position.token position = None) ->
  let f := run respond (BotService.monitoringTick keys) m w in
  outcome f = Fulfilled tt
  /\ memory f = m
  /\ calls f
     = match BotService.allPositions keys m with
       | [] => []
       | _ => [FetchPricesBySymbols (monitored_tokens keys m)]
       end
  /\ NoDup (monitored_tokens keys m)
  /\ forall token,
      token ∈ monitored_tokens keys m
      <-> exists ref position,
            (ref, position) ∈ BotService.allPositions keys m
            /\ Position.token position = token.
Proof.
  intros Hskip f.
  assert (NoDup (monitored_tokens keys m)
          /\ forall token,
              token ∈ monitored_tokens keys m
              <-> exists ref position,
                    (ref, position) ∈ BotService.allPositions keys m
                    /\ Position.token position = token) as Htokens.
  { unfold monitored_tokens.
    destruct (unique_spec
                ((fun rp => Position.token rp.2)
                   <$> BotService.allPositions keys m) []) as [Hnd Hin].
    split; [done|]. intros token. rewrite Hin, list_elem_of_fmap.
    split.
    - intros [([ref position] & -> & Hrp) _]. by exists ref, position.
    - intros (ref & position & Hrp & <-). split; [|by apply not_elem_of_nil].
      by exists (ref, position). }
  subst f.
  unfold BotService.monitoringTick, BotService.checkExitConditions,
    monitored_tokens in *.
  rewrite run_try_catch. simpl.
  destruct (BotService.allPositions keys m) as [|rp rest] eqn:Hall; simpl;
    [done|].
  destruct (respond (FetchPricesBySymbols _) w) as [[prices|e] w1]; simpl;
    [|done].
  destruct (check_positions_run prices (rp :: rest) m m w1
              (statuses_only_refl m))
    as (m' & w' & t & Hrun & _ & _ & Hnone).
  simpl in Hrun. rewrite Hrun. simpl.
  destruct Hnone as [-> ->]; [|done].
  intros [ref position] Hin. simpl.
  unfold BotService.currentPrice_of. by rewrite (Hskip ref position).
Qed.

End Monitor.

(** A session that has bought BONK on the signal "bonk" of the desk:
    the position is open under the token "bonk", which the table has as
    "BONK" only; the monitor leaves it open. *)
Lemma monitor_skips_tokens_not_in_the_table_witness :
  let m := (desk_life (session_life 1 1)).1 in
  let f := run desk_respond (BotService.monitoringTick ["bot"]) m (desk []) in
  (Position.token <$> BotService.position_at m ("bot", 0%nat)) = Some "bonk"
  /\ memory f = m
  /\ calls f = [FetchPricesBySymbols ["bonk"]].
Proof.
  intros m f. split; [by vm_compute|].
  destruct (monitor_skips_tokens_not_in_the_table desk_respond ["bot"] m
              (desk []))
    as (_ & Hm & Hc & _).
  { intros ref position Hin. vm_compute in Hin.
    apply list_elem_of_singleton in Hin. injection Hin as _ ->.
    by vm_compute. }
  fold f in Hm, Hc. split; [exact Hm|]. rewrite Hc. by vm_compute.
Defined.

(** A running session that has made four trades of its five, on the
    desk: the turn makes the fifth and schedules nothing. *)
Lemma quota_filling_trade_schedules_nothing_witness :
  let m := trading (bot1 1 1 4 []) 1 0 in
  let f := run desk_respond (BotService.startTradingForSession "bot-1") m
               (desk [Fulfilled accepted]) in
  (BotSession.tradesExecuted <$> activeSessions (memory f) !! "bot-1")
  = Some 5%nat
  /\ status_of (memory f) "bot-1" = Some RUNNING
  /\ omap timeout_of (trace f) = [].
Proof.
  intros m f. split; [by vm_compute|].
  destruct (activeSessions (memory f) !! "bot-1") as [session'|] eqn:Hs';
    [|by vm_compute in Hs'].
  destruct (quota_filling_trade_schedules_nothing desk_respond "bot-1"
              (bot1 1 1 4 []) session' m (desk [Fulfilled accepted])
              eq_refl eq_refl eq_refl Hs') as (H1 & H2 & _).
  { vm_compute in Hs'. injection Hs' as <-. reflexivity. }
  fold f in H2. unfold status_of. rewrite Hs'. simpl. by rewrite H1.
Defined.
